(** * Initiator and responder endpoints of the MAL API (package [api])

    A shallow embedding of [mal/api/operations.go] and [mal/api/handlers.go]:
    the operation state machines of the six interaction patterns, the
    per-endpoint transaction table and its counter, and the handler
    dispatch table.

    Go pointers to mutable structs become explicit state: a method with
    receiver [op *SubmitOperationX] is a state transformer over a [World]
    holding the operation, its owning [OperationContext] and the heap of
    channels.  A receive on a channel may wait forever and a [close] may
    panic; a method therefore has three outcomes: it returns, it blocks, or
    it panics.

    The embedding is sequential.  What another goroutine does to a channel
    (the router queueing a reply, a [close]) is seen by a method as the
    state of the channel when it receives: the messages already queued, in
    order, and whether the channel is closed.  A method that finds its
    queue empty and open blocks.  It is then suspended in its receive,
    holding the channel that [op.ch] pointed to; what it does when the
    receive completes, in the world that the other goroutines have made by
    then, is the code of the method from the receive on
    ([<Method>_from_receive]).

    Calls of the logger are left out.  [OperationContext.OnMessage] and
    [OnClose], which route to other operations, run on an [Endpoint] that
    holds the operations next to the context.  The endpoint registration
    in [Context] ([NewOperationContext], [Close]) is outside the embedding.

    Of the TCP transport below [Context.Send], the length field of the
    frame is embedded: [write32] and the length computed by
    [readMessage]. *)

From Stdlib Require Import ZArith String List Lia Strings.Byte Sorting.Sorted.
From stdpp Require Import base option gmap list fin_maps.

Local Open Scope Z_scope.

(** ** Package [mal], as far as package [api] uses it *)

Module Mal.

(** [errors.New(s)]: an error is identified by its text. *)
Definition error : Type := string.

Definition URI : Type := string.

(** The integer types of package [mal]. *)
Definition UOctet : Type := Z.
Definition UShort : Type := Z.
Definition ULong : Type := Z.
Definition InteractionType : Type := Z.
Definition InteractionStage : Type := Z.

(** Modelled from the spec: the struct [Message] of package [mal]; the
    fields are those that the two files read or set in a literal (the
    remaining header fields of the spec are never touched here).  A field
    that shares its name with a type or with a method carries a trailing
    underscore. *)
Record Message : Type := mkMessage {
  UriFrom : URI;
  UriTo : URI;
  InteractionType_ : InteractionType;
  InteractionStage_ : InteractionStage;
  ServiceArea : UShort;
  AreaVersion : UOctet;
  Service : UShort;
  Operation : UShort;
  TransactionId_ : ULong;
  IsErrorMessage : bool;
  Body : list byte
}.

(** What package [api] imports from package [mal] without defining it: the
    numbering of interaction types and stages, the state of a [Context]
    with its [Send], and the function [key] that packs the four service
    coordinates into a [uint64].  They are parameters of the development. *)
Class Package : Type := {
  MAL_INTERACTIONTYPE_SEND : InteractionType;
  MAL_INTERACTIONTYPE_SUBMIT : InteractionType;
  MAL_INTERACTIONTYPE_REQUEST : InteractionType;
  MAL_INTERACTIONTYPE_INVOKE : InteractionType;
  MAL_INTERACTIONTYPE_PROGRESS : InteractionType;
  MAL_INTERACTIONTYPE_PUBSUB : InteractionType;
  MAL_IP_STAGE_SEND : InteractionStage;
  MAL_IP_STAGE_SUBMIT : InteractionStage;
  MAL_IP_STAGE_SUBMIT_ACK : InteractionStage;
  MAL_IP_STAGE_REQUEST : InteractionStage;
  MAL_IP_STAGE_REQUEST_RESPONSE : InteractionStage;
  MAL_IP_STAGE_INVOKE : InteractionStage;
  MAL_IP_STAGE_INVOKE_ACK : InteractionStage;
  MAL_IP_STAGE_INVOKE_RESPONSE : InteractionStage;
  MAL_IP_STAGE_PROGRESS : InteractionStage;
  MAL_IP_STAGE_PROGRESS_ACK : InteractionStage;
  MAL_IP_STAGE_PROGRESS_UPDATE : InteractionStage;
  MAL_IP_STAGE_PROGRESS_RESPONSE : InteractionStage;
  MAL_IP_STAGE_PUBSUB_REGISTER : InteractionStage;
  MAL_IP_STAGE_PUBSUB_REGISTER_ACK : InteractionStage;
  MAL_IP_STAGE_PUBSUB_PUBLISH_REGISTER : InteractionStage;
  MAL_IP_STAGE_PUBSUB_PUBLISH_REGISTER_ACK : InteractionStage;
  MAL_IP_STAGE_PUBSUB_PUBLISH : InteractionStage;
  MAL_IP_STAGE_PUBSUB_NOTIFY : InteractionStage;
  MAL_IP_STAGE_PUBSUB_DEREGISTER : InteractionStage;
  MAL_IP_STAGE_PUBSUB_DEREGISTER_ACK : InteractionStage;
  MAL_IP_STAGE_PUBSUB_PUBLISH_DEREGISTER : InteractionStage;
  MAL_IP_STAGE_PUBSUB_PUBLISH_DEREGISTER_ACK : InteractionStage;
  (** [ctx.Send(msg)]: the new state of the context and the outcome that
      the transport reports ([None] is Go's [nil] error). *)
  Context : Type;
  Context_Send : Message -> Context -> option error * Context;
  (** [key(area, areaVersion, service, operation)]. *)
  key : UShort -> UOctet -> UShort -> UShort -> Z
}.

End Mal.

Export Mal.

(** ** Calls that may return, block or panic *)

Inductive outcome (S A : Type) : Type :=
  | Returns (a : A) (s : S)
  | Blocks (s : S)
  | Panics.
Arguments Returns {S A} a s.
Arguments Blocks {S A} s.
Arguments Panics {S A}.

Definition M (S A : Type) : Type := S -> outcome S A.

#[global] Instance M_ret {S} : MRet (M S) := fun A a s => Returns a s.

#[global] Instance M_bind {S} : MBind (M S) := fun A B f m s =>
  match m s with
  | Returns a s' => f a s'
  | Blocks s' => Blocks s'
  | Panics => Panics
  end.

Definition gets {S A} (f : S -> A) : M S A := fun s => Returns (f s) s.
Definition modify {S} (f : S -> S) : M S unit := fun s => Returns tt (f s).

(** The result pair of a method: a message pointer (or nil) and an error (or nil). *)
Definition reply : Type := option Message * option error.

(** ** operations.go *)

Module Operations.

(** An [OperationHandler] held in the transaction table is the pointer to
    an operation; only its identity matters. *)
Definition ptr : Type := positive.
Definition OperationHandler : Type := ptr.

(** Channels live in a heap; [make] allocates a location. *)
Definition loc : Type := positive.

Record chan : Type := mkChan {
  buf : list Message;   (* sent and not yet received, oldest first *)
  cap : nat;
  closed : bool
}.

Definition BadStatus : error := "Bad operation status"%string.
Definition BadStage : error := "Bad return message"%string.
Definition OperationEnded : error := "Operation ends"%string.
Definition ErrorMessage : error := "Error message"%string.
Definition DuplicateTransaction : error := "Handler already registered for this transaction"%string.
Definition UnknownTransaction : error := "No handler registered for this transaction"%string.

Inductive Status : Set :=
  | _CREATED
  | _INITIATED
  | _ACKNOWLEDGED
  | _PROGRESSING
  | _REGISTER_INITIATED
  | _REGISTERED
  | _REREGISTER_INITIATED
  | _DEREGISTER_INITIATED
  | _FINAL
  | _CLOSED.

#[global] Instance Status_eq_dec : EqDecision Status.
Proof. solve_decision. Defined.

(** [OperationX] without its [ictx] pointer: the owning context is the
    [ictx] of the [World] the operation lives in. *)
Record OperationX : Type := mkOperationX {
  tid : ULong;
  ch : option loc;      (* [None] is the nil channel *)
  urito : URI;
  area : UShort;
  areaVersion : UOctet;
  service : UShort;
  operation : UShort;
  status : Status
}.

Definition set_tid (t : ULong) (x : OperationX) : OperationX :=
  mkOperationX t (ch x) (urito x) (area x) (areaVersion x) (service x) (operation x) (status x).
Definition set_ch (c : option loc) (x : OperationX) : OperationX :=
  mkOperationX (tid x) c (urito x) (area x) (areaVersion x) (service x) (operation x) (status x).
Definition set_status (s : Status) (x : OperationX) : OperationX :=
  mkOperationX (tid x) (ch x) (urito x) (area x) (areaVersion x) (service x) (operation x) s.

(** The operation structs embed [OperationX]; its fields and methods are
    promoted to them. *)
Class IsOperation (O : Type) : Type := {
  embedded : O -> OperationX;
  with_embedded : OperationX -> O -> O
}.

#[global] Instance OperationX_IsOperation : IsOperation OperationX :=
  {| embedded := fun x => x; with_embedded := fun x _ => x |}.

Section WithPackage.
Context `{P : Package}.

Record OperationContext : Type := mkOperationContext {
  Ctx : Context;
  Uri : URI;
  handlers : gmap Z OperationHandler;
  txcounter : Z
}.

Definition set_handlers (h : gmap Z OperationHandler) (ictx : OperationContext) :=
  mkOperationContext (Ctx ictx) (Uri ictx) h (txcounter ictx).
Definition set_txcounter (c : Z) (ictx : OperationContext) :=
  mkOperationContext (Ctx ictx) (Uri ictx) (handlers ictx) c.
Definition set_Ctx (c : Context) (ictx : OperationContext) :=
  mkOperationContext c (Uri ictx) (handlers ictx) (txcounter ictx).

(** The struct literal of [NewOperationContext] (line 48); the endpoint
    registration that follows it belongs to [Context]. *)
Definition NewOperationContext_literal (ctx : Context) (uri : URI) : OperationContext :=
  mkOperationContext ctx uri ∅ 0.

Definition register (tid : ULong) (handler : OperationHandler) : M OperationContext (option error) :=
  old ← gets (fun ictx => handlers ictx !! tid);
  if old is Some _ then mret (Some DuplicateTransaction)
  else
    modify (fun ictx => set_handlers (<[tid := handler]> (handlers ictx)) ictx);;
    mret None.

Definition deregister (tid : ULong) : M OperationContext (option error) :=
  old ← gets (fun ictx => handlers ictx !! tid);
  if old is None then mret (Some UnknownTransaction)
  else
    modify (fun ictx => set_handlers (delete tid (handlers ictx)) ictx);;
    mret None.

(** [atomic.AddUint64(&ictx.txcounter, 1)]: the sum wraps at 2^64 and the
    new value is returned. *)
Definition wrap64 (z : Z) : Z := z mod 2 ^ 64.

Definition TransactionId : M OperationContext ULong :=
  modify (fun ictx => set_txcounter (wrap64 (txcounter ictx + 1)) ictx);;
  gets txcounter.

(** [n] successive calls of [TransactionId], with the values they return in
    the order of the calls. *)
Fixpoint TransactionIds (n : nat) : M OperationContext (list ULong) :=
  match n with
  | O => mret []
  | S n => t ← TransactionId; ts ← TransactionIds n; mret (t :: ts)
  end.

(** The state a method of an operation of type [O] runs in: the owning
    context, the channel heap, and the receiver (its address and the
    struct it points to). *)
Record World (O : Type) : Type := mkWorld {
  ictx : OperationContext;
  chans : gmap loc chan;
  op_addr : ptr;
  op : O
}.
#[global] Arguments mkWorld {O} _ _ _ _.
#[global] Arguments ictx {O} _.
#[global] Arguments chans {O} _.
#[global] Arguments op_addr {O} _.
#[global] Arguments op {O} _.

Definition set_ictx {O} (i : OperationContext) (w : World O) : World O :=
  mkWorld i (chans w) (op_addr w) (op w).
Definition set_chans {O} (c : gmap loc chan) (w : World O) : World O :=
  mkWorld (ictx w) c (op_addr w) (op w).
Definition set_op {O O'} (o : O') (w : World O) : World O' :=
  mkWorld (ictx w) (chans w) (op_addr w) o.

(** A call on [op.ictx]. *)
Definition on_ictx {O A} (m : M OperationContext A) : M (World O) A := fun w =>
  match m (ictx w) with
  | Returns a i => Returns a (set_ictx i w)
  | Blocks i => Blocks (set_ictx i w)
  | Panics => Panics
  end.

(** [op.ictx.Ctx.Send(msg)] *)
Definition Ctx_Send {O} (msg : Message) : M (World O) (option error) :=
  on_ictx (fun i => let (e, c) := Context_Send msg (Ctx i) in Returns e (set_Ctx c i)).

(** Reading and writing the promoted fields of the receiver. *)
Definition op_get {O} `{IsOperation O} {A} (f : OperationX -> A) : M (World O) A :=
  gets (fun w => f (embedded (op w))).
Definition op_set {O} `{IsOperation O} (f : OperationX -> OperationX) : M (World O) unit :=
  modify (fun w => set_op (with_embedded (f (embedded (op w))) (op w)) w).

(** *** Go channels *)

(** [make(chan *Message, n)] *)
Definition chan_make {O} (n : nat) : M (World O) loc := fun w =>
  let l := fresh (dom (chans w)) in
  Returns l (set_chans (<[l := mkChan [] n false]> (chans w)) w).

(** [msg, more := <-c]: [Some msg] when a message is taken from the
    buffer, [None] when [more] is false.  Buffered messages are delivered
    even after the channel is closed; an empty open channel and the nil
    channel make the caller wait. *)
Definition chan_recv {O} (c : option loc) : M (World O) (option Message) := fun w =>
  match c with
  | None => Blocks w
  | Some l =>
      match chans w !! l with
      | None => Panics
      | Some q =>
          match buf q with
          | m :: rest => Returns (Some m) (set_chans (<[l := mkChan rest (cap q) (closed q)]> (chans w)) w)
          | [] => if closed q then Returns None w else Blocks w
          end
      end
  end.

(** [c <- msg] *)
Definition chan_send {O} (c : option loc) (msg : Message) : M (World O) unit := fun w =>
  match c with
  | None => Blocks w
  | Some l =>
      match chans w !! l with
      | None => Panics
      | Some q =>
          if closed q then Panics
          else if (length (buf q) <? cap q)%nat
          then Returns tt (set_chans (<[l := mkChan (buf q ++ [msg]) (cap q) false]> (chans w)) w)
          else Blocks w
      end
  end.

(** [close(c)] *)
Definition chan_close {O} (c : option loc) : M (World O) unit := fun w =>
  match c with
  | None => Panics
  | Some l =>
      match chans w !! l with
      | None => Panics
      | Some q =>
          if closed q then Panics
          else Returns tt (set_chans (<[l := mkChan (buf q) (cap q) true]> (chans w)) w)
      end
  end.

End WithPackage.

(** *** OperationX *)

Module OperationX.
Section WithPackage.
Context `{P : Package} {O : Type} `{IsOperation O}.

(* Verifies that the incoming message corresponds to the initiated operation *)
Definition verify (msg : Message) : M (World O) bool :=
  x ← op_get id;
  if decide (ServiceArea msg = area x ∧ AreaVersion msg = areaVersion x ∧
             Service msg = service x ∧ Operation msg = operation x)
  then mret true
  else mret false.

(* Finalize the operation *)
Definition finalize : M (World O) unit :=
  op_set (set_status _FINAL);;
  c ← op_get ch;
  if c is Some _ then
    t ← op_get tid;
    on_ictx (deregister t);;
    mret tt
  else mret tt.

Definition GetTid : M (World O) ULong := op_get tid.

(* Closes the operation. *)
Definition Close : M (World O) (option error) :=
  st ← op_get status;
  if decide (st = _CLOSED) then mret None else
  op_set (set_status _CLOSED);;
  c ← op_get ch;
  if c is Some _ then
    st ← op_get status;
    err ← (if decide (st ≠ _CREATED ∧ st ≠ _FINAL)
           then t ← op_get tid; on_ictx (deregister t)
           else mret None);
    c ← op_get ch;
    chan_close c;;
    op_set (set_ch None);;
    mret err
  else mret None.

(* Resets the operation for a new use, a new TransactionId is allocated. *)
Definition Reset : M (World O) (option error) :=
  st ← op_get status;
  if decide (st ≠ _FINAL) then mret (Some BadStatus) else
  t ← on_ictx TransactionId;
  op_set (set_tid t);;
  op_set (set_status _CREATED);;
  mret None.

(** The message literal that every emitting method builds from the
    receiver; the methods differ in the interaction type and stage. *)
Definition message_literal (ityp : InteractionType) (stage : InteractionStage)
    (body : list byte) (w : World O) : Message :=
  let x := embedded (op w) in
  mkMessage (Uri (ictx w)) (urito x) ityp stage (area x) (areaVersion x) (service x)
    (operation x) (tid x) false body.

Definition outgoing (ityp : InteractionType) (stage : InteractionStage) (body : list byte)
    : M (World O) Message :=
  gets (message_literal ityp stage body).

(** [op.ictx.register(op.tid, op)] *)
Definition register_self : M (World O) (option error) :=
  t ← op_get tid;
  self ← gets op_addr;
  on_ictx (register t self).

(** [msg, more := <-op.ch] *)
Definition receive : M (World O) (option Message) :=
  c ← op_get ch;
  chan_recv c.

(** A call that finds the channel open and empty is suspended in the
    receive.  It has evaluated [op.ch] by then: it holds the channel [c],
    and when another goroutine has queued a message on [c] or has closed it,
    the call goes on with [msg, more := <-c] and the code that follows,
    whatever [op.ch] has become in between.  Each method that waits has its
    code from the receive on below it, as [<Method>_from_receive c]. *)

(** The [onMessage] shared by the operations that wait for replies: the
    message is queued when it passes [verify] and has the interaction type
    of the pattern, and is dropped otherwise. *)
Definition onMessage_of (ityp : InteractionType) (msg : Message) : M (World O) unit :=
  ok ← verify msg;
  if ok && bool_decide (InteractionType_ msg = ityp)
  then c ← op_get ch; chan_send c msg
  else mret tt.

End WithPackage.
End OperationX.
Import OperationX.

(** *** What a caller can observe of an operation *)

Section Observations.
Context `{P : Package} {O : Type} `{IsOperation O}.

Definition status_of (w : World O) : Status := status (embedded (op w)).
Definition tid_of (w : World O) : ULong := tid (embedded (op w)).
Definition ch_of (w : World O) : option loc := ch (embedded (op w)).

(** The inbound queue: the channel that [op.ch] points to, if any. *)
Definition queue_of (w : World O) : option chan :=
  match ch_of w with
  | Some l => chans w !! l
  | None => None
  end.

(** The message that a call on the operation of [w] is to emit, field by
    field: it goes from the URI of the context to the remote URI of the
    operation, carries the service coordinates and the transaction id of
    the operation, is not an error message, and has the interaction type,
    the stage and the body given. *)
Definition request_of (ityp : InteractionType) (stage : InteractionStage)
    (body : list byte) (w : World O) : Message :=
  {| UriFrom := Uri (ictx w);
     UriTo := urito (embedded (op w));
     InteractionType_ := ityp;
     InteractionStage_ := stage;
     ServiceArea := area (embedded (op w));
     AreaVersion := areaVersion (embedded (op w));
     Service := service (embedded (op w));
     Operation := operation (embedded (op w));
     TransactionId_ := tid_of w;
     IsErrorMessage := false;
     Body := body |}.

(** The transport accepts that message. *)
Definition send_succeeds (ityp : InteractionType) (stage : InteractionStage)
    (body : list byte) (w : World O) : Prop :=
  (Context_Send (request_of ityp stage body w) (Ctx (ictx w))).1 = None.

(** The context after that message has been handed to it. *)
Definition sent (ityp : InteractionType) (stage : InteractionStage)
    (body : list byte) (w : World O) : Context :=
  (Context_Send (request_of ityp stage body w) (Ctx (ictx w))).2.

(** An initiating method gets as far as its wait: the operation is in
    CREATED, its transaction id is not in the table yet, and the transport
    accepts the message. *)
Definition initiation_succeeds (ityp : InteractionType) (stage : InteractionStage)
    (body : list byte) (w : World O) : Prop :=
  status_of w = _CREATED ∧
  handlers (ictx w) !! tid_of w = None ∧
  send_succeeds ityp stage body w.

(** The world in which a call that emits without registering reaches its
    receive: the status is [st] and the message has been handed to the
    context. *)
Definition emitted (st : Status) (ityp : InteractionType) (stage : InteractionStage)
    (body : list byte) (w : World O) : World O :=
  set_ictx (set_Ctx (sent ityp stage body w) (ictx w))
    (set_op (with_embedded (set_status st (embedded (op w))) (op w)) w).

(** The world in which an initiating call reaches its receive: moreover the
    operation is in the table under its transaction id. *)
Definition initiated (st : Status) (ityp : InteractionType) (stage : InteractionStage)
    (body : list byte) (w : World O) : World O :=
  set_ictx
    (set_handlers (<[tid_of w := op_addr w]> (handlers (ictx w)))
       (set_Ctx (sent ityp stage body w) (ictx w)))
    (set_op (with_embedded (set_status st (embedded (op w))) (op w)) w).

(** What a wait for a message of stage [expected] makes of the message [m]
    it receives: [m] itself, with the "Error message" error when [m] is an
    error message, or "Bad return message" when the stage is another. *)
Definition checked_reply (expected : InteractionStage) (m : Message) : reply :=
  if decide (InteractionStage_ m = expected)
  then (Some m, if IsErrorMessage m then Some ErrorMessage else None)
  else (None, Some BadStage).

(** The queue [q] after its oldest message has been received. *)
Definition tail_of (q : chan) : chan := mkChan (tl (buf q)) (cap q) (closed q).

(** The queue is closed and holds nothing any more. *)
Definition queue_ended (w : World O) : Prop :=
  ∃ q, queue_of w = Some q ∧ buf q = [] ∧ closed q = true.

(** The call returned "Operation ends" without a message, and left the
    operation in FINAL. *)
Definition ends_operation (o : outcome (World O) reply) : Prop :=
  ∃ w', o = Returns (None, Some OperationEnded) w' ∧ status_of w' = _FINAL.

End Observations.

(** Struct embedding is a lens: writing the embedded [OperationX] changes
    nothing else, and reading it back gives what was written. *)
Class IsOperationLaws (O : Type) `{IsOperation O} : Prop := {
  embedded_with_embedded : ∀ x o, embedded (with_embedded x o) = x;
  with_embedded_embedded : ∀ o, with_embedded (embedded o) o = o;
  with_embedded_twice : ∀ x y o, with_embedded x (with_embedded y o) = with_embedded x o
}.

(** *** SendOperation *)

Record SendOperationX : Type := mkSendOperationX { SendOperationX_base : OperationX }.

#[global] Instance SendOperationX_IsOperation : IsOperation SendOperationX :=
  {| embedded := SendOperationX_base; with_embedded := fun x _ => mkSendOperationX x |}.

Module SendOperationX.
Section WithPackage.
Context `{P : Package}.

Definition Send (body : list byte) : M (World SendOperationX) (option error) :=
  st ← op_get status;
  if decide (st ≠ _CREATED) then mret (Some BadStatus) else
  op_set (set_status _INITIATED);;
  msg ← outgoing MAL_INTERACTIONTYPE_SEND MAL_IP_STAGE_SEND body;
  (* This operation doesn't wait any reply, so we don't need to register it. *)
  err ← Ctx_Send msg;
  op_set (set_status _FINAL);;
  mret err.

Definition onMessage (msg : Message) : M (World SendOperationX) unit := mret tt.
Definition onClose : M (World SendOperationX) unit := mret tt.

End WithPackage.
End SendOperationX.

(** *** SubmitOperation *)

Record SubmitOperationX : Type := mkSubmitOperationX { SubmitOperationX_base : OperationX }.

#[global] Instance SubmitOperationX_IsOperation : IsOperation SubmitOperationX :=
  {| embedded := SubmitOperationX_base; with_embedded := fun x _ => mkSubmitOperationX x |}.

Module SubmitOperationX.
Section WithPackage.
Context `{P : Package}.

Definition Submit (body : list byte) : M (World SubmitOperationX) reply :=
  st ← op_get status;
  if decide (st ≠ _CREATED) then mret (None, Some BadStatus) else
  op_set (set_status _INITIATED);;
  msg ← outgoing MAL_INTERACTIONTYPE_SUBMIT MAL_IP_STAGE_SUBMIT body;
  (* Registers this Submit Operation in OperationContext *)
  err ← register_self;
  if err is Some e then finalize;; mret (None, Some e) else
  (* Send the SUBMIT MAL message *)
  err ← Ctx_Send msg;
  if err is Some e then finalize;; mret (None, Some e) else
  (* Waits for the SUBMIT_ACK MAL message *)
  r ← receive;
  match r with
  | None => finalize;; mret (None, Some OperationEnded)
  | Some msg =>
      if decide (InteractionStage_ msg ≠ MAL_IP_STAGE_SUBMIT_ACK)
      then finalize;; mret (None, Some BadStage)
      else
        finalize;;
        (* Verify that the message is ok (ack or error) *)
        if IsErrorMessage msg then mret (Some msg, Some ErrorMessage)
        else mret (Some msg, None)
  end.

(** [Submit] from its receive on (lines 277-294). *)
Definition Submit_from_receive (c : option loc) : M (World SubmitOperationX) reply :=
  r ← chan_recv c;
  match r with
  | None => finalize;; mret (None, Some OperationEnded)
  | Some msg =>
      if decide (InteractionStage_ msg ≠ MAL_IP_STAGE_SUBMIT_ACK)
      then finalize;; mret (None, Some BadStage)
      else
        finalize;;
        if IsErrorMessage msg then mret (Some msg, Some ErrorMessage)
        else mret (Some msg, None)
  end.

Definition onMessage (msg : Message) : M (World SubmitOperationX) unit :=
  onMessage_of MAL_INTERACTIONTYPE_SUBMIT msg.
Definition onClose : M (World SubmitOperationX) unit := mret tt.

End WithPackage.
End SubmitOperationX.

(** *** RequestOperation *)

Record RequestOperationX : Type := mkRequestOperationX { RequestOperationX_base : OperationX }.

#[global] Instance RequestOperationX_IsOperation : IsOperation RequestOperationX :=
  {| embedded := RequestOperationX_base; with_embedded := fun x _ => mkRequestOperationX x |}.

Module RequestOperationX.
Section WithPackage.
Context `{P : Package}.

Definition Request (body : list byte) : M (World RequestOperationX) reply :=
  st ← op_get status;
  if decide (st ≠ _CREATED) then mret (None, Some BadStatus) else
  op_set (set_status _INITIATED);;
  msg ← outgoing MAL_INTERACTIONTYPE_REQUEST MAL_IP_STAGE_REQUEST body;
  (* Registers this Request Operation in OperationContext *)
  err ← register_self;
  if err is Some e then finalize;; mret (None, Some e) else
  (* Send the REQUEST MAL message *)
  err ← Ctx_Send msg;
  if err is Some e then finalize;; mret (None, Some e) else
  (* Waits for the RESPONSE MAL message *)
  r ← receive;
  match r with
  | None => finalize;; mret (None, Some OperationEnded)
  | Some msg =>
      (* Verify the message stage *)
      if decide (InteractionStage_ msg ≠ MAL_IP_STAGE_REQUEST_RESPONSE)
      then finalize;; mret (None, Some BadStage)
      else
        finalize;;
        if IsErrorMessage msg then mret (Some msg, Some ErrorMessage)
        else mret (Some msg, None)
  end.

(** [Request] from its receive on (lines 363-381). *)
Definition Request_from_receive (c : option loc) : M (World RequestOperationX) reply :=
  r ← chan_recv c;
  match r with
  | None => finalize;; mret (None, Some OperationEnded)
  | Some msg =>
      (* Verify the message stage *)
      if decide (InteractionStage_ msg ≠ MAL_IP_STAGE_REQUEST_RESPONSE)
      then finalize;; mret (None, Some BadStage)
      else
        finalize;;
        if IsErrorMessage msg then mret (Some msg, Some ErrorMessage)
        else mret (Some msg, None)
  end.

Definition onMessage (msg : Message) : M (World RequestOperationX) unit :=
  onMessage_of MAL_INTERACTIONTYPE_REQUEST msg.
Definition onClose : M (World RequestOperationX) unit := mret tt.

End WithPackage.
End RequestOperationX.

(** *** Invoke Operation *)

Record InvokeOperationX : Type := mkInvokeOperationX {
  InvokeOperationX_base : OperationX;
  InvokeOperationX_response : option Message
}.

#[global] Instance InvokeOperationX_IsOperation : IsOperation InvokeOperationX :=
  {| embedded := InvokeOperationX_base;
     with_embedded := fun x o => mkInvokeOperationX x (InvokeOperationX_response o) |}.

Module InvokeOperationX.
Section WithPackage.
Context `{P : Package}.

Definition get_response : M (World InvokeOperationX) (option Message) :=
  gets (fun w => InvokeOperationX_response (op w)).
Definition set_response (msg : Message) : M (World InvokeOperationX) unit :=
  modify (fun w => set_op (mkInvokeOperationX (InvokeOperationX_base (op w)) (Some msg)) w).

Definition Invoke (body : list byte) : M (World InvokeOperationX) reply :=
  st ← op_get status;
  if decide (st ≠ _CREATED) then mret (None, Some BadStatus) else
  op_set (set_status _INITIATED);;
  msg ← outgoing MAL_INTERACTIONTYPE_INVOKE MAL_IP_STAGE_INVOKE body;
  (* Registers this Invoke Operation in OperationContext *)
  err ← register_self;
  if err is Some e then finalize;; mret (None, Some e) else
  (* Send the INVOKE MAL message *)
  err ← Ctx_Send msg;
  if err is Some e then finalize;; mret (None, Some e) else
  (* Waits for the INVOKE_ACK MAL message *)
  r ← receive;
  match r with
  | None => finalize;; mret (None, Some OperationEnded)
  | Some msg =>
      (* Verify the message stage *)
      if decide (InteractionStage_ msg ≠ MAL_IP_STAGE_INVOKE_ACK)
      then finalize;; mret (None, Some BadStage)
      else
        op_set (set_status _ACKNOWLEDGED);;
        (* Verify that the message is ok (ack or error) *)
        if IsErrorMessage msg then finalize;; mret (Some msg, Some ErrorMessage)
        else mret (Some msg, None)
  end.

(* Returns the response. *)
Definition GetResponse : M (World InvokeOperationX) reply :=
  st ← op_get status;
  response ← get_response;
  match (if decide (st = _FINAL) then response else None) with
  | Some response =>
      if IsErrorMessage response then mret (Some response, Some ErrorMessage)
      else mret (Some response, None)
  | None =>
      if decide (st ≠ _ACKNOWLEDGED) then mret (None, Some BadStatus) else
      (* Waits for next MAL message *)
      r ← receive;
      match r with
      | None => finalize;; mret (None, Some OperationEnded)
      | Some msg =>
          (* Verify the message stage *)
          if decide (InteractionStage_ msg ≠ MAL_IP_STAGE_INVOKE_RESPONSE)
          then finalize;; mret (None, Some BadStage)
          else
            finalize;;
            set_response msg;;
            if IsErrorMessage msg then mret (Some msg, Some ErrorMessage)
            else mret (Some msg, None)
      end
  end.

(** [Invoke] from its receive on (lines 453-472). *)
Definition Invoke_from_receive (c : option loc) : M (World InvokeOperationX) reply :=
  r ← chan_recv c;
  match r with
  | None => finalize;; mret (None, Some OperationEnded)
  | Some msg =>
      (* Verify the message stage *)
      if decide (InteractionStage_ msg ≠ MAL_IP_STAGE_INVOKE_ACK)
      then finalize;; mret (None, Some BadStage)
      else
        op_set (set_status _ACKNOWLEDGED);;
        (* Verify that the message is ok (ack or error) *)
        if IsErrorMessage msg then finalize;; mret (Some msg, Some ErrorMessage)
        else mret (Some msg, None)
  end.

(** [GetResponse] from its receive on (lines 489-508). *)
Definition GetResponse_from_receive (c : option loc) : M (World InvokeOperationX) reply :=
  r ← chan_recv c;
  match r with
  | None => finalize;; mret (None, Some OperationEnded)
  | Some msg =>
      (* Verify the message stage *)
      if decide (InteractionStage_ msg ≠ MAL_IP_STAGE_INVOKE_RESPONSE)
      then finalize;; mret (None, Some BadStage)
      else
        finalize;;
        set_response msg;;
        if IsErrorMessage msg then mret (Some msg, Some ErrorMessage)
        else mret (Some msg, None)
  end.

Definition onMessage (msg : Message) : M (World InvokeOperationX) unit :=
  onMessage_of MAL_INTERACTIONTYPE_INVOKE msg.
Definition onClose : M (World InvokeOperationX) unit := mret tt.

End WithPackage.
End InvokeOperationX.

(** *** Progress Operation *)

Record ProgressOperationX : Type := mkProgressOperationX {
  ProgressOperationX_base : OperationX;
  ProgressOperationX_response : option Message
}.

#[global] Instance ProgressOperationX_IsOperation : IsOperation ProgressOperationX :=
  {| embedded := ProgressOperationX_base;
     with_embedded := fun x o => mkProgressOperationX x (ProgressOperationX_response o) |}.

Module ProgressOperationX.
Section WithPackage.
Context `{P : Package}.

Definition get_response : M (World ProgressOperationX) (option Message) :=
  gets (fun w => ProgressOperationX_response (op w)).
Definition set_response (msg : Message) : M (World ProgressOperationX) unit :=
  modify (fun w => set_op (mkProgressOperationX (ProgressOperationX_base (op w)) (Some msg)) w).

Definition Progress (body : list byte) : M (World ProgressOperationX) reply :=
  st ← op_get status;
  if decide (st ≠ _CREATED) then mret (None, Some BadStatus) else
  op_set (set_status _INITIATED);;
  msg ← outgoing MAL_INTERACTIONTYPE_PROGRESS MAL_IP_STAGE_PROGRESS body;
  err ← register_self;
  if err is Some e then finalize;; mret (None, Some e) else
  err ← Ctx_Send msg;
  if err is Some e then finalize;; mret (None, Some e) else
  (* Waits for the PROGRESS_ACK MAL message *)
  r ← receive;
  match r with
  | None => finalize;; mret (None, Some OperationEnded)
  | Some msg =>
      (* Verify the message stage *)
      if decide (InteractionStage_ msg ≠ MAL_IP_STAGE_PROGRESS_ACK)
      then finalize;; mret (None, Some BadStage)
      else
        op_set (set_status _ACKNOWLEDGED);;
        (* Verify that the message is ok (ack or error) *)
        if IsErrorMessage msg then finalize;; mret (Some msg, Some ErrorMessage)
        else mret (Some msg, None)
  end.

(* Returns next update or nil if there is no more update. *)
Definition GetUpdate : M (World ProgressOperationX) reply :=
  st ← op_get status;
  if decide (st ≠ _ACKNOWLEDGED ∧ st ≠ _PROGRESSING) then mret (None, Some BadStatus) else
  (* Waits for next MAL message *)
  r ← receive;
  match r with
  | None => finalize;; mret (None, Some OperationEnded)
  | Some msg =>
      if decide (InteractionStage_ msg ≠ MAL_IP_STAGE_PROGRESS_UPDATE ∧
                 InteractionStage_ msg ≠ MAL_IP_STAGE_PROGRESS_RESPONSE)
      then finalize;; mret (None, Some BadStage)
      else
        if decide (InteractionStage_ msg = MAL_IP_STAGE_PROGRESS_UPDATE) then
          op_set (set_status _PROGRESSING);;
          (* Verify that the message is ok (ack or error) *)
          if IsErrorMessage msg then finalize;; mret (Some msg, Some ErrorMessage)
          else mret (Some msg, None)
        else
          (* msg.InteractionStage == MAL_IP_STAGE_PROGRESS_RESPONSE *)
          set_response msg;;
          finalize;;
          mret (None, None)
  end.

(* Returns the response. *)
Definition GetResponse : M (World ProgressOperationX) reply :=
  st ← op_get status;
  response ← get_response;
  match (if decide (st = _FINAL) then response else None) with
  | Some response =>
      if IsErrorMessage response then mret (Some response, Some ErrorMessage)
      else mret (Some response, None)
  | None =>
      if decide (st ≠ _ACKNOWLEDGED ∧ st ≠ _PROGRESSING) then mret (None, Some BadStatus) else
      (* Waits for next MAL message *)
      r ← receive;
      match r with
      | None => finalize;; mret (None, Some OperationEnded)
      | Some msg =>
          if decide (InteractionStage_ msg ≠ MAL_IP_STAGE_PROGRESS_RESPONSE)
          then finalize;; mret (None, Some BadStage)
          else
            finalize;;
            set_response msg;;
            if IsErrorMessage msg then mret (Some msg, Some ErrorMessage)
            else mret (Some msg, None)
      end
  end.

(** A caller that asks for [n] updates in a row: the results of the [n]
    calls of [GetUpdate], in the order of the calls. *)
Fixpoint GetUpdates (n : nat) : M (World ProgressOperationX) (list reply) :=
  match n with
  | O => mret []
  | S n => r ← GetUpdate; rs ← GetUpdates n; mret (r :: rs)
  end.

(** A PROGRESS_UPDATE that is not an error message. *)
Definition is_update (msg : Message) : Prop :=
  InteractionStage_ msg = MAL_IP_STAGE_PROGRESS_UPDATE ∧ IsErrorMessage msg = false.

(** [Progress] from its receive on (lines 580-599). *)
Definition Progress_from_receive (c : option loc) : M (World ProgressOperationX) reply :=
  r ← chan_recv c;
  match r with
  | None => finalize;; mret (None, Some OperationEnded)
  | Some msg =>
      (* Verify the message stage *)
      if decide (InteractionStage_ msg ≠ MAL_IP_STAGE_PROGRESS_ACK)
      then finalize;; mret (None, Some BadStage)
      else
        op_set (set_status _ACKNOWLEDGED);;
        (* Verify that the message is ok (ack or error) *)
        if IsErrorMessage msg then finalize;; mret (Some msg, Some ErrorMessage)
        else mret (Some msg, None)
  end.

(** [GetUpdate] from its receive on (lines 609-636). *)
Definition GetUpdate_from_receive (c : option loc) : M (World ProgressOperationX) reply :=
  r ← chan_recv c;
  match r with
  | None => finalize;; mret (None, Some OperationEnded)
  | Some msg =>
      if decide (InteractionStage_ msg ≠ MAL_IP_STAGE_PROGRESS_UPDATE ∧
                 InteractionStage_ msg ≠ MAL_IP_STAGE_PROGRESS_RESPONSE)
      then finalize;; mret (None, Some BadStage)
      else
        if decide (InteractionStage_ msg = MAL_IP_STAGE_PROGRESS_UPDATE) then
          op_set (set_status _PROGRESSING);;
          (* Verify that the message is ok (ack or error) *)
          if IsErrorMessage msg then finalize;; mret (Some msg, Some ErrorMessage)
          else mret (Some msg, None)
        else
          (* msg.InteractionStage == MAL_IP_STAGE_PROGRESS_RESPONSE *)
          set_response msg;;
          finalize;;
          mret (None, None)
  end.

(** [GetResponse] from its receive on (lines 653-672). *)
Definition GetResponse_from_receive (c : option loc) : M (World ProgressOperationX) reply :=
  r ← chan_recv c;
  match r with
  | None => finalize;; mret (None, Some OperationEnded)
  | Some msg =>
      if decide (InteractionStage_ msg ≠ MAL_IP_STAGE_PROGRESS_RESPONSE)
      then finalize;; mret (None, Some BadStage)
      else
        finalize;;
        set_response msg;;
        if IsErrorMessage msg then mret (Some msg, Some ErrorMessage)
        else mret (Some msg, None)
  end.

Definition onMessage (msg : Message) : M (World ProgressOperationX) unit :=
  onMessage_of MAL_INTERACTIONTYPE_PROGRESS msg.
Definition onClose : M (World ProgressOperationX) unit := mret tt.

End WithPackage.
End ProgressOperationX.

(** *** Subscriber Operation *)

Record SubscriberOperationX : Type :=
  mkSubscriberOperationX { SubscriberOperationX_base : OperationX }.

#[global] Instance SubscriberOperationX_IsOperation : IsOperation SubscriberOperationX :=
  {| embedded := SubscriberOperationX_base; with_embedded := fun x _ => mkSubscriberOperationX x |}.

Module SubscriberOperationX.
Section WithPackage.
Context `{P : Package}.

Definition Register (body : list byte) : M (World SubscriberOperationX) reply :=
  st ← op_get status;
  if decide (st ≠ _CREATED) then mret (None, Some BadStatus) else
  op_set (set_status _REGISTER_INITIATED);;
  msg ← outgoing MAL_INTERACTIONTYPE_PUBSUB MAL_IP_STAGE_PUBSUB_REGISTER body;
  (* Registers this Operation in OperationContext *)
  err ← register_self;
  if err is Some e then finalize;; mret (None, Some e) else
  (* Send the REGISTER MAL message *)
  err ← Ctx_Send msg;
  if err is Some e then finalize;; mret (None, Some e) else
  (* Waits for the REGISTER_ACK MAL message *)
  r ← receive;
  match r with
  | None => finalize;; mret (None, Some OperationEnded)
  | Some msg =>
      (* Verify the message stage *)
      if decide (InteractionStage_ msg ≠ MAL_IP_STAGE_PUBSUB_REGISTER_ACK)
      then finalize;; mret (None, Some BadStage)
      else
        (* Verify that the message is ok (ack or error) *)
        if IsErrorMessage msg then finalize;; mret (Some msg, Some ErrorMessage)
        else op_set (set_status _REGISTERED);; mret (Some msg, None)
  end.

(* Returns next notify. *)
Definition GetNotify : M (World SubscriberOperationX) reply :=
  st ← op_get status;
  if decide (st ≠ _REGISTERED ∧ st ≠ _REREGISTER_INITIATED ∧ st ≠ _DEREGISTER_INITIATED)
  then mret (None, Some BadStatus) else
  (* Waits for next MAL message *)
  r ← receive;
  match r with
  | None => finalize;; mret (None, Some OperationEnded)
  | Some msg =>
      (* Verify the message stage *)
      if decide (InteractionStage_ msg ≠ MAL_IP_STAGE_PUBSUB_NOTIFY)
      then finalize;; mret (None, Some BadStage)
      else
        (* Verify that the message is ok (ack or error) *)
        if IsErrorMessage msg then finalize;; mret (Some msg, Some ErrorMessage)
        else mret (Some msg, None)
  end.

(** The [for] loop of [Deregister].  An iteration that executes [continue]
    has taken one message out of the buffer, so the loop runs at most once
    more than there are buffered messages before it returns or waits; the
    bound [n] counts the iterations left and [Deregister] starts it above
    that number ([wait_deregister_ack_bound] below: a larger bound changes
    nothing). *)
Fixpoint wait_deregister_ack (n : nat) : M (World SubscriberOperationX) reply :=
  match n with
  | O => fun _ => Panics
  | S n =>
      r ← receive;
      match r with
      | None => finalize;; mret (None, Some OperationEnded)
      | Some msg =>
          if decide (InteractionStage_ msg = MAL_IP_STAGE_PUBSUB_NOTIFY)
          then wait_deregister_ack n
          else
            (* Verify the message stage *)
            if decide (InteractionStage_ msg ≠ MAL_IP_STAGE_PUBSUB_DEREGISTER_ACK)
            then finalize;; mret (None, Some BadStage)
            else
              finalize;;
              if IsErrorMessage msg then mret (Some msg, Some ErrorMessage)
              else mret (Some msg, None)
      end
  end.

(** Number of messages buffered in [op.ch]. *)
Definition pending (w : World SubscriberOperationX) : nat :=
  match queue_of w with
  | Some q => length (buf q)
  | None => 0
  end.

Definition Deregister (body : list byte) : M (World SubscriberOperationX) reply :=
  st ← op_get status;
  if decide (st ≠ _REGISTERED) then mret (None, Some BadStatus) else
  op_set (set_status _DEREGISTER_INITIATED);;
  msg ← outgoing MAL_INTERACTIONTYPE_PUBSUB MAL_IP_STAGE_PUBSUB_DEREGISTER body;
  (* Send the DEREGISTER MAL message *)
  err ← Ctx_Send msg;
  if err is Some e then finalize;; mret (None, Some e) else
  (* Waits for the DEREGISTER_ACK MAL message, removing useless notify waiting messages *)
  n ← gets pending;
  wait_deregister_ack (S n).

(** The world in which the loop of [Deregister] starts: the status is set
    and the DEREGISTER message has been handed to the context. *)
Definition deregistering (body : list byte) (w : World SubscriberOperationX)
    : World SubscriberOperationX :=
  set_ictx
    (set_Ctx (sent MAL_INTERACTIONTYPE_PUBSUB MAL_IP_STAGE_PUBSUB_DEREGISTER body w) (ictx w))
    (set_op (mkSubscriberOperationX (set_status _DEREGISTER_INITIATED (embedded (op w)))) w).

Definition is_notify (msg : Message) : Prop :=
  InteractionStage_ msg = MAL_IP_STAGE_PUBSUB_NOTIFY.

(** [Register] from its receive on (lines 744-763). *)
Definition Register_from_receive (c : option loc) : M (World SubscriberOperationX) reply :=
  r ← chan_recv c;
  match r with
  | None => finalize;; mret (None, Some OperationEnded)
  | Some msg =>
      (* Verify the message stage *)
      if decide (InteractionStage_ msg ≠ MAL_IP_STAGE_PUBSUB_REGISTER_ACK)
      then finalize;; mret (None, Some BadStage)
      else
        (* Verify that the message is ok (ack or error) *)
        if IsErrorMessage msg then finalize;; mret (Some msg, Some ErrorMessage)
        else op_set (set_status _REGISTERED);; mret (Some msg, None)
  end.

(** [GetNotify] from its receive on (lines 774-792). *)
Definition GetNotify_from_receive (c : option loc) : M (World SubscriberOperationX) reply :=
  r ← chan_recv c;
  match r with
  | None => finalize;; mret (None, Some OperationEnded)
  | Some msg =>
      (* Verify the message stage *)
      if decide (InteractionStage_ msg ≠ MAL_IP_STAGE_PUBSUB_NOTIFY)
      then finalize;; mret (None, Some BadStage)
      else
        (* Verify that the message is ok (ack or error) *)
        if IsErrorMessage msg then finalize;; mret (Some msg, Some ErrorMessage)
        else mret (Some msg, None)
  end.

(** [Deregister] from the receive of its loop on (lines 822-843): after a
    notify the loop starts over, and its next receive reads [op.ch] anew. *)
Definition Deregister_from_receive (c : option loc) : M (World SubscriberOperationX) reply :=
  r ← chan_recv c;
  match r with
  | None => finalize;; mret (None, Some OperationEnded)
  | Some msg =>
      if decide (InteractionStage_ msg = MAL_IP_STAGE_PUBSUB_NOTIFY)
      then n ← gets pending; wait_deregister_ack (S n)
      else
        (* Verify the message stage *)
        if decide (InteractionStage_ msg ≠ MAL_IP_STAGE_PUBSUB_DEREGISTER_ACK)
        then finalize;; mret (None, Some BadStage)
        else
          finalize;;
          if IsErrorMessage msg then mret (Some msg, Some ErrorMessage)
          else mret (Some msg, None)
  end.

Definition onMessage (msg : Message) : M (World SubscriberOperationX) unit :=
  onMessage_of MAL_INTERACTIONTYPE_PUBSUB msg.
Definition onClose : M (World SubscriberOperationX) unit := mret tt.

End WithPackage.
End SubscriberOperationX.

(** *** Publisher Operation *)

Record PublisherOperationX : Type :=
  mkPublisherOperationX { PublisherOperationX_base : OperationX }.

#[global] Instance PublisherOperationX_IsOperation : IsOperation PublisherOperationX :=
  {| embedded := PublisherOperationX_base; with_embedded := fun x _ => mkPublisherOperationX x |}.

Module PublisherOperationX.
Section WithPackage.
Context `{P : Package}.

Definition Register (body : list byte) : M (World PublisherOperationX) reply :=
  st ← op_get status;
  if decide (st ≠ _CREATED) then mret (None, Some BadStatus) else
  op_set (set_status _REGISTER_INITIATED);;
  msg ← outgoing MAL_INTERACTIONTYPE_PUBSUB MAL_IP_STAGE_PUBSUB_PUBLISH_REGISTER body;
  (* Registers this Operation in OperationContext *)
  err ← register_self;
  if err is Some e then finalize;; mret (None, Some e) else
  (* Send the PUBLISH_REGISTER MAL message *)
  err ← Ctx_Send msg;
  if err is Some e then finalize;; mret (None, Some e) else
  (* Waits for the PUBLISH_REGISTER_ACK MAL message *)
  r ← receive;
  match r with
  | None => finalize;; mret (None, Some OperationEnded)
  | Some msg =>
      (* Verify the message stage *)
      if decide (InteractionStage_ msg ≠ MAL_IP_STAGE_PUBSUB_PUBLISH_REGISTER_ACK)
      then finalize;; mret (None, Some BadStage)
      else
        (* Verify that the message is ok (ack or error) *)
        if IsErrorMessage msg then finalize;; mret (Some msg, Some ErrorMessage)
        else op_set (set_status _REGISTERED);; mret (Some msg, None)
  end.

Definition Publish (body : list byte) : M (World PublisherOperationX) (option error) :=
  st ← op_get status;
  if decide (st ≠ _REGISTERED) then mret (Some BadStatus) else
  msg ← outgoing MAL_INTERACTIONTYPE_PUBSUB MAL_IP_STAGE_PUBSUB_PUBLISH body;
  (* Send the MAL message *)
  err ← Ctx_Send msg;
  if err is Some e then finalize;; mret (Some e) else
  mret None.

Definition Deregister (body : list byte) : M (World PublisherOperationX) reply :=
  st ← op_get status;
  if decide (st ≠ _REGISTERED) then mret (None, Some BadStatus) else
  op_set (set_status _DEREGISTER_INITIATED);;
  msg ← outgoing MAL_INTERACTIONTYPE_PUBSUB MAL_IP_STAGE_PUBSUB_PUBLISH_DEREGISTER body;
  (* Send the PUBLISH_DEREGISTER MAL message *)
  err ← Ctx_Send msg;
  if err is Some e then finalize;; mret (None, Some e) else
  (* Waits for the PUBLISH_DEREGISTER_ACK MAL message *)
  r ← receive;
  match r with
  | None => finalize;; mret (None, Some OperationEnded)
  | Some msg =>
      (* Verify the message stage *)
      if decide (InteractionStage_ msg ≠ MAL_IP_STAGE_PUBSUB_PUBLISH_DEREGISTER_ACK)
      then finalize;; mret (None, Some BadStage)
      else
        finalize;;
        if IsErrorMessage msg then mret (Some msg, Some ErrorMessage)
        else mret (Some msg, None)
  end.

(** [Register] from its receive on (lines 915-934). *)
Definition Register_from_receive (c : option loc) : M (World PublisherOperationX) reply :=
  r ← chan_recv c;
  match r with
  | None => finalize;; mret (None, Some OperationEnded)
  | Some msg =>
      (* Verify the message stage *)
      if decide (InteractionStage_ msg ≠ MAL_IP_STAGE_PUBSUB_PUBLISH_REGISTER_ACK)
      then finalize;; mret (None, Some BadStage)
      else
        (* Verify that the message is ok (ack or error) *)
        if IsErrorMessage msg then finalize;; mret (Some msg, Some ErrorMessage)
        else op_set (set_status _REGISTERED);; mret (Some msg, None)
  end.

(** [Deregister] from its receive on (lines 990-1007). *)
Definition Deregister_from_receive (c : option loc) : M (World PublisherOperationX) reply :=
  r ← chan_recv c;
  match r with
  | None => finalize;; mret (None, Some OperationEnded)
  | Some msg =>
      (* Verify the message stage *)
      if decide (InteractionStage_ msg ≠ MAL_IP_STAGE_PUBSUB_PUBLISH_DEREGISTER_ACK)
      then finalize;; mret (None, Some BadStage)
      else
        finalize;;
        if IsErrorMessage msg then mret (Some msg, Some ErrorMessage)
        else mret (Some msg, None)
  end.

Definition onMessage (msg : Message) : M (World PublisherOperationX) unit :=
  onMessage_of MAL_INTERACTIONTYPE_PUBSUB msg.
Definition onClose : M (World PublisherOperationX) unit := mret tt.

End WithPackage.
End PublisherOperationX.

(** *** The constructors of [OperationContext]

    A constructor runs in a world whose receiver slot is still empty; the
    caller stores the new struct there with [set_op]. *)

Section Constructors.
Context `{P : Package}.
Variables (urito : URI) (area : UShort) (areaVersion : UOctet) (service operation : UShort).

Definition new_OperationX (tid : ULong) (ch : option loc) : OperationX :=
  mkOperationX tid ch urito area areaVersion service operation _CREATED.

Definition NewSendOperation : M (World unit) SendOperationX :=
  tid ← on_ictx TransactionId;
  mret (mkSendOperationX (new_OperationX tid None)).

Definition NewSubmitOperation : M (World unit) SubmitOperationX :=
  tid ← on_ictx TransactionId;
  ch ← chan_make 10;
  mret (mkSubmitOperationX (new_OperationX tid (Some ch))).

Definition NewRequestOperation : M (World unit) RequestOperationX :=
  tid ← on_ictx TransactionId;
  ch ← chan_make 10;
  mret (mkRequestOperationX (new_OperationX tid (Some ch))).

Definition NewInvokeOperation : M (World unit) InvokeOperationX :=
  tid ← on_ictx TransactionId;
  ch ← chan_make 10;
  mret (mkInvokeOperationX (new_OperationX tid (Some ch)) None).

Definition NewProgressOperation : M (World unit) ProgressOperationX :=
  tid ← on_ictx TransactionId;
  ch ← chan_make 10;
  mret (mkProgressOperationX (new_OperationX tid (Some ch)) None).

Definition NewSubscriberOperation : M (World unit) SubscriberOperationX :=
  tid ← on_ictx TransactionId;
  ch ← chan_make 10;
  mret (mkSubscriberOperationX (new_OperationX tid (Some ch))).

Definition NewPublisherOperation : M (World unit) PublisherOperationX :=
  tid ← on_ictx TransactionId;
  ch ← chan_make 10;
  mret (mkPublisherOperationX (new_OperationX tid (Some ch))).

End Constructors.

(** *** The [Operation] and [OperationHandler] interfaces

    Seven structs implement the two interfaces.  A value of interface type
    is a pointer together with the struct type found behind it; a method
    called through the interface runs the method of that struct. *)

Inductive Pattern : Set :=
  | SendPattern
  | SubmitPattern
  | RequestPattern
  | InvokePattern
  | ProgressPattern
  | SubscriberPattern
  | PublisherPattern.

#[global] Instance Pattern_eq_dec : EqDecision Pattern.
Proof. solve_decision. Defined.

Definition OperationOf (p : Pattern) : Type :=
  match p with
  | SendPattern => SendOperationX
  | SubmitPattern => SubmitOperationX
  | RequestPattern => RequestOperationX
  | InvokePattern => InvokeOperationX
  | ProgressPattern => ProgressOperationX
  | SubscriberPattern => SubscriberOperationX
  | PublisherPattern => PublisherOperationX
  end.

#[global] Instance OperationOf_IsOperation (p : Pattern) : IsOperation (OperationOf p) :=
  match p with
  | SendPattern => SendOperationX_IsOperation
  | SubmitPattern => SubmitOperationX_IsOperation
  | RequestPattern => RequestOperationX_IsOperation
  | InvokePattern => InvokeOperationX_IsOperation
  | ProgressPattern => ProgressOperationX_IsOperation
  | SubscriberPattern => SubscriberOperationX_IsOperation
  | PublisherPattern => PublisherOperationX_IsOperation
  end.

Section Interfaces.
Context `{P : Package}.

(** [to.onMessage(msg)] for [to] of type [OperationHandler] *)
Definition OperationHandler_onMessage (p : Pattern) (msg : Message)
    : M (World (OperationOf p)) unit :=
  match p with
  | SendPattern => SendOperationX.onMessage msg
  | SubmitPattern => SubmitOperationX.onMessage msg
  | RequestPattern => RequestOperationX.onMessage msg
  | InvokePattern => InvokeOperationX.onMessage msg
  | ProgressPattern => ProgressOperationX.onMessage msg
  | SubscriberPattern => SubscriberOperationX.onMessage msg
  | PublisherPattern => PublisherOperationX.onMessage msg
  end.

(** [handler.onClose()] for [handler] of type [OperationHandler] *)
Definition OperationHandler_onClose (p : Pattern) : M (World (OperationOf p)) unit :=
  match p with
  | SendPattern => SendOperationX.onClose
  | SubmitPattern => SubmitOperationX.onClose
  | RequestPattern => RequestOperationX.onClose
  | InvokePattern => InvokeOperationX.onClose
  | ProgressPattern => ProgressOperationX.onClose
  | SubscriberPattern => SubscriberOperationX.onClose
  | PublisherPattern => PublisherOperationX.onClose
  end.

(** The interaction type that the [onMessage] of a struct compares the
    message with; [SendOperationX.onMessage] takes no message at all. *)
Definition interaction_type_of (p : Pattern) : option InteractionType :=
  match p with
  | SendPattern => None
  | SubmitPattern => Some MAL_INTERACTIONTYPE_SUBMIT
  | RequestPattern => Some MAL_INTERACTIONTYPE_REQUEST
  | InvokePattern => Some MAL_INTERACTIONTYPE_INVOKE
  | ProgressPattern => Some MAL_INTERACTIONTYPE_PROGRESS
  | SubscriberPattern => Some MAL_INTERACTIONTYPE_PUBSUB
  | PublisherPattern => Some MAL_INTERACTIONTYPE_PUBSUB
  end.

(** The methods that a caller of the package, or the router of the
    context, invokes on an operation of pattern [p]: the exported methods
    of the struct itself, those promoted from [OperationX], and the two of
    [OperationHandler]. *)
Inductive Call : Pattern -> Type :=
  | CallSend (body : list byte) : Call SendPattern
  | CallSubmit (body : list byte) : Call SubmitPattern
  | CallRequest (body : list byte) : Call RequestPattern
  | CallInvoke (body : list byte) : Call InvokePattern
  | CallInvokeGetResponse : Call InvokePattern
  | CallProgress (body : list byte) : Call ProgressPattern
  | CallGetUpdate : Call ProgressPattern
  | CallProgressGetResponse : Call ProgressPattern
  | CallSubscriberRegister (body : list byte) : Call SubscriberPattern
  | CallGetNotify : Call SubscriberPattern
  | CallSubscriberDeregister (body : list byte) : Call SubscriberPattern
  | CallPublisherRegister (body : list byte) : Call PublisherPattern
  | CallPublish (body : list byte) : Call PublisherPattern
  | CallPublisherDeregister (body : list byte) : Call PublisherPattern
  | CallGetTid (p : Pattern) : Call p
  | CallClose (p : Pattern) : Call p
  | CallReset (p : Pattern) : Call p
  | CallOnMessage (p : Pattern) (msg : Message) : Call p
  | CallOnClose (p : Pattern) : Call p.

(** What a call hands back, by the result type of the method. *)
Inductive Result : Type :=
  | ResultError (err : option error)
  | ResultReply (r : reply)
  | ResultTid (t : ULong)
  | ResultNone.

Definition returning {S A B} (f : A -> B) (m : M S A) : M S B := fun s =>
  match m s with
  | Returns a s' => Returns (f a) s'
  | Blocks s' => Blocks s'
  | Panics => Panics
  end.

Definition perform {p : Pattern} (c : Call p) : M (World (OperationOf p)) Result :=
  match c in Call p return M (World (OperationOf p)) Result with
  | CallSend body => returning ResultError (SendOperationX.Send body)
  | CallSubmit body => returning ResultReply (SubmitOperationX.Submit body)
  | CallRequest body => returning ResultReply (RequestOperationX.Request body)
  | CallInvoke body => returning ResultReply (InvokeOperationX.Invoke body)
  | CallInvokeGetResponse => returning ResultReply InvokeOperationX.GetResponse
  | CallProgress body => returning ResultReply (ProgressOperationX.Progress body)
  | CallGetUpdate => returning ResultReply ProgressOperationX.GetUpdate
  | CallProgressGetResponse => returning ResultReply ProgressOperationX.GetResponse
  | CallSubscriberRegister body => returning ResultReply (SubscriberOperationX.Register body)
  | CallGetNotify => returning ResultReply SubscriberOperationX.GetNotify
  | CallSubscriberDeregister body => returning ResultReply (SubscriberOperationX.Deregister body)
  | CallPublisherRegister body => returning ResultReply (PublisherOperationX.Register body)
  | CallPublish body => returning ResultError (PublisherOperationX.Publish body)
  | CallPublisherDeregister body => returning ResultReply (PublisherOperationX.Deregister body)
  | CallGetTid p => returning ResultTid GetTid
  | CallClose p => returning ResultError Close
  | CallReset p => returning ResultError Reset
  | CallOnMessage p msg => returning (fun _ => ResultNone) (OperationHandler_onMessage p msg)
  | CallOnClose p => returning (fun _ => ResultNone) (OperationHandler_onClose p)
  end.

(** The six methods that open an interaction. *)
Definition initiates {p : Pattern} (c : Call p) : option (InteractionType * InteractionStage * list byte) :=
  match c with
  | CallSubmit body => Some (MAL_INTERACTIONTYPE_SUBMIT, MAL_IP_STAGE_SUBMIT, body)
  | CallRequest body => Some (MAL_INTERACTIONTYPE_REQUEST, MAL_IP_STAGE_REQUEST, body)
  | CallInvoke body => Some (MAL_INTERACTIONTYPE_INVOKE, MAL_IP_STAGE_INVOKE, body)
  | CallProgress body => Some (MAL_INTERACTIONTYPE_PROGRESS, MAL_IP_STAGE_PROGRESS, body)
  | CallSubscriberRegister body =>
      Some (MAL_INTERACTIONTYPE_PUBSUB, MAL_IP_STAGE_PUBSUB_REGISTER, body)
  | CallPublisherRegister body =>
      Some (MAL_INTERACTIONTYPE_PUBSUB, MAL_IP_STAGE_PUBSUB_PUBLISH_REGISTER, body)
  | _ => None
  end.

End Interfaces.

(** *** What the methods keep true of an operation *)

Section Consistency.
Context `{P : Package}.

(** The statuses in which the operation expects messages of its
    transaction. *)
Definition in_flight (s : Status) : bool :=
  match s with
  | _CREATED | _FINAL | _CLOSED => false
  | _ => true
  end.

(** The statuses in which a method of pattern [p] leaves the operation when
    it returns, and those that only a method which is waiting for its reply
    shows. *)
Definition resting (p : Pattern) (s : Status) : bool :=
  match s, p with
  | (_CREATED | _FINAL | _CLOSED), _ => true
  | _ACKNOWLEDGED, (InvokePattern | ProgressPattern) => true
  | _PROGRESSING, ProgressPattern => true
  | _REGISTERED, (SubscriberPattern | PublisherPattern) => true
  | _, _ => false
  end.

Definition waiting (p : Pattern) (s : Status) : bool :=
  match s, p with
  | _INITIATED, (SubmitPattern | RequestPattern | InvokePattern | ProgressPattern) => true
  | (_REGISTER_INITIATED | _DEREGISTER_INITIATED), (SubscriberPattern | PublisherPattern) => true
  | _, _ => false
  end.

(** [op.ch] points to an open channel; it is nil only in a send operation,
    which never has one, and after [Close]. *)
Definition queue_ok (p : Pattern) (w : World (OperationOf p)) : Prop :=
  match ch_of w with
  | Some l => ∃ q, chans w !! l = Some q ∧ closed q = false
  | None => p = SendPattern ∨ status_of w = _CLOSED
  end.

(** Every transaction id in the table has been issued by the counter. *)
Definition ids_issued (i : OperationContext) : Prop :=
  0 <= txcounter i ∧ map_Forall (fun k _ => k <= txcounter i) (handlers i).

Definition consistent (p : Pattern) (w : World (OperationOf p)) : Prop :=
  (resting p (status_of w) || waiting p (status_of w) = true) ∧
  handlers (ictx w) !! tid_of w = (if in_flight (status_of w) then Some (op_addr w) else None) ∧
  queue_ok p w ∧
  ids_issued (ictx w) ∧
  tid_of w <= txcounter (ictx w).

(** The calls that hand a message to the context. *)
Definition sends {p : Pattern} (c : Call p) : bool :=
  match c with
  | CallInvokeGetResponse | CallGetUpdate | CallProgressGetResponse | CallGetNotify
  | CallGetTid _ | CallClose _ | CallReset _ | CallOnMessage _ _ | CallOnClose _ => false
  | _ => true
  end.

(** What the call [c] leaves alone between the worlds [w] and [w']: the
    table entries of the other transactions, the other channels, the
    endpoint's URI, and, unless [c] emits or resets, the context and the
    transaction id and counter. *)
Definition untouched {p : Pattern} (c : Call p) (w w' : World (OperationOf p)) : Prop :=
  op_addr w' = op_addr w ∧
  Uri (ictx w') = Uri (ictx w) ∧
  (∀ k, k ≠ tid_of w → handlers (ictx w') !! k = handlers (ictx w) !! k) ∧
  (∀ l, ch_of w ≠ Some l → chans w' !! l = chans w !! l) ∧
  (sends c = false → Ctx (ictx w') = Ctx (ictx w)) ∧
  (match c with
   | CallReset _ => True
   | _ => tid_of w' = tid_of w ∧ txcounter (ictx w') = txcounter (ictx w)
   end).

(** The world [w1] is [w] with messages taken from the head of the
    operation's queue. *)
Definition drained (w w1 : World SubscriberOperationX) : Prop :=
  w1 = w ∨
  ∃ l q rest, ch_of w = Some l ∧ chans w !! l = Some q ∧
    w1 = set_chans (<[l := mkChan rest (cap q) (closed q)]> (chans w)) w.

(** [New<Pattern>Operation], by pattern. *)
Definition NewOperation (p : Pattern) (urito : URI) (area : UShort) (areaVersion : UOctet)
    (service operation : UShort) : M (World unit) (OperationOf p) :=
  match p with
  | SendPattern => NewSendOperation urito area areaVersion service operation
  | SubmitPattern => NewSubmitOperation urito area areaVersion service operation
  | RequestPattern => NewRequestOperation urito area areaVersion service operation
  | InvokePattern => NewInvokeOperation urito area areaVersion service operation
  | ProgressPattern => NewProgressOperation urito area areaVersion service operation
  | SubscriberPattern => NewSubscriberOperation urito area areaVersion service operation
  | PublisherPattern => NewPublisherOperation urito area areaVersion service operation
  end.

(** The stage of the reply that ends the wait of an initiating call, and
    the status in which the call leaves the operation when that reply
    arrives and is not an error message. *)
Definition awaited {p : Pattern} (c : Call p) : option (InteractionStage * Status) :=
  match c with
  | CallSubmit _ => Some (MAL_IP_STAGE_SUBMIT_ACK, _FINAL)
  | CallRequest _ => Some (MAL_IP_STAGE_REQUEST_RESPONSE, _FINAL)
  | CallInvoke _ => Some (MAL_IP_STAGE_INVOKE_ACK, _ACKNOWLEDGED)
  | CallProgress _ => Some (MAL_IP_STAGE_PROGRESS_ACK, _ACKNOWLEDGED)
  | CallSubscriberRegister _ => Some (MAL_IP_STAGE_PUBSUB_REGISTER_ACK, _REGISTERED)
  | CallPublisherRegister _ => Some (MAL_IP_STAGE_PUBSUB_PUBLISH_REGISTER_ACK, _REGISTERED)
  | _ => None
  end.

(** The message passes the test of [onMessage]: the four coordinates of
    [verify] and the interaction type of the pattern. *)
Definition accepted (p : Pattern) (x : OperationX) (msg : Message) : Prop :=
  (ServiceArea msg = area x ∧ AreaVersion msg = areaVersion x ∧
   Service msg = service x ∧ Operation msg = operation x) ∧
  interaction_type_of p = Some (InteractionType_ msg).

End Consistency.

(** *** Calls that wait on the inbound queue *)

Section Suspension.
Context `{P : Package}.

(** The twelve methods that wait on the inbound queue, with their code
    from the receive on. *)
Definition from_receive {p : Pattern} (c : Call p)
    : option (option loc -> M (World (OperationOf p)) reply) :=
  match c in Call p return option (option loc -> M (World (OperationOf p)) reply) with
  | CallSubmit _ => Some SubmitOperationX.Submit_from_receive
  | CallRequest _ => Some RequestOperationX.Request_from_receive
  | CallInvoke _ => Some InvokeOperationX.Invoke_from_receive
  | CallInvokeGetResponse => Some InvokeOperationX.GetResponse_from_receive
  | CallProgress _ => Some ProgressOperationX.Progress_from_receive
  | CallGetUpdate => Some ProgressOperationX.GetUpdate_from_receive
  | CallProgressGetResponse => Some ProgressOperationX.GetResponse_from_receive
  | CallSubscriberRegister _ => Some SubscriberOperationX.Register_from_receive
  | CallGetNotify => Some SubscriberOperationX.GetNotify_from_receive
  | CallSubscriberDeregister _ => Some SubscriberOperationX.Deregister_from_receive
  | CallPublisherRegister _ => Some PublisherOperationX.Register_from_receive
  | CallPublisherDeregister _ => Some PublisherOperationX.Deregister_from_receive
  | _ => None
  end.

(** The call gets as far as its receive: the status is one that the method
    accepts, nothing is cached that it would return at once, and, where it
    registers the operation and emits a message first, the transaction id
    is free and the transport accepts the message. *)
Definition reaches_receive {p : Pattern} (c : Call p) : World (OperationOf p) -> Prop :=
  match c in Call p return World (OperationOf p) -> Prop with
  | CallSubmit body =>
      initiation_succeeds MAL_INTERACTIONTYPE_SUBMIT MAL_IP_STAGE_SUBMIT body
  | CallRequest body =>
      initiation_succeeds MAL_INTERACTIONTYPE_REQUEST MAL_IP_STAGE_REQUEST body
  | CallInvoke body =>
      initiation_succeeds MAL_INTERACTIONTYPE_INVOKE MAL_IP_STAGE_INVOKE body
  | CallInvokeGetResponse => fun w => status_of w = _ACKNOWLEDGED
  | CallProgress body =>
      initiation_succeeds MAL_INTERACTIONTYPE_PROGRESS MAL_IP_STAGE_PROGRESS body
  | CallGetUpdate => fun w => status_of w = _ACKNOWLEDGED ∨ status_of w = _PROGRESSING
  | CallProgressGetResponse =>
      fun w => status_of w = _ACKNOWLEDGED ∨ status_of w = _PROGRESSING
  | CallSubscriberRegister body =>
      initiation_succeeds MAL_INTERACTIONTYPE_PUBSUB MAL_IP_STAGE_PUBSUB_REGISTER body
  | CallGetNotify =>
      fun w => status_of w = _REGISTERED ∨ status_of w = _REREGISTER_INITIATED ∨
               status_of w = _DEREGISTER_INITIATED
  | CallSubscriberDeregister body =>
      fun w => status_of w = _REGISTERED ∧
               send_succeeds MAL_INTERACTIONTYPE_PUBSUB MAL_IP_STAGE_PUBSUB_DEREGISTER body w
  | CallPublisherRegister body =>
      initiation_succeeds MAL_INTERACTIONTYPE_PUBSUB MAL_IP_STAGE_PUBSUB_PUBLISH_REGISTER body
  | CallPublisherDeregister body =>
      fun w => status_of w = _REGISTERED ∧
               send_succeeds MAL_INTERACTIONTYPE_PUBSUB
                 MAL_IP_STAGE_PUBSUB_PUBLISH_DEREGISTER body w
  | _ => fun _ => False
  end.

(** The world in which it executes the receive. *)
Definition at_receive {p : Pattern} (c : Call p)
    : World (OperationOf p) -> World (OperationOf p) :=
  match c in Call p return World (OperationOf p) -> World (OperationOf p) with
  | CallSubmit body =>
      initiated _INITIATED MAL_INTERACTIONTYPE_SUBMIT MAL_IP_STAGE_SUBMIT body
  | CallRequest body =>
      initiated _INITIATED MAL_INTERACTIONTYPE_REQUEST MAL_IP_STAGE_REQUEST body
  | CallInvoke body =>
      initiated _INITIATED MAL_INTERACTIONTYPE_INVOKE MAL_IP_STAGE_INVOKE body
  | CallProgress body =>
      initiated _INITIATED MAL_INTERACTIONTYPE_PROGRESS MAL_IP_STAGE_PROGRESS body
  | CallSubscriberRegister body =>
      initiated _REGISTER_INITIATED MAL_INTERACTIONTYPE_PUBSUB MAL_IP_STAGE_PUBSUB_REGISTER body
  | CallPublisherRegister body =>
      initiated _REGISTER_INITIATED MAL_INTERACTIONTYPE_PUBSUB
        MAL_IP_STAGE_PUBSUB_PUBLISH_REGISTER body
  | CallSubscriberDeregister body =>
      emitted _DEREGISTER_INITIATED MAL_INTERACTIONTYPE_PUBSUB MAL_IP_STAGE_PUBSUB_DEREGISTER body
  | CallPublisherDeregister body =>
      emitted _DEREGISTER_INITIATED MAL_INTERACTIONTYPE_PUBSUB
        MAL_IP_STAGE_PUBSUB_PUBLISH_DEREGISTER body
  | _ => fun w => w
  end.

End Suspension.

(** *** The listener side of [OperationContext]

    The context routes an inbound message to the operation that its table
    names; an [Endpoint] holds the context together with the operations
    that the pointers in the table lead to. *)

(** What a pointer of interface type leads to: one of the seven structs. *)
Inductive AnyOperation : Type :=
  | Any (p : Pattern) (o : OperationOf p).

Section EndpointState.
Context `{P : Package}.

Record Endpoint : Type := mkEndpoint {
  ep_ictx : OperationContext;
  ep_chans : gmap loc chan;
  ep_ops : gmap ptr AnyOperation
}.

End EndpointState.

Module OperationContext.
Section WithPackage.
Context `{P : Package}.

(** The world of the operation [o] that lives at [a]. *)
Definition world_at (e : Endpoint) (a : ptr) {p : Pattern} (o : OperationOf p)
    : World (OperationOf p) :=
  mkWorld (ep_ictx e) (ep_chans e) a o.

(** The endpoint after a method of the operation at [a] has run. *)
Definition back (e : Endpoint) (a : ptr) {p : Pattern} (w : World (OperationOf p)) : Endpoint :=
  mkEndpoint (ictx w) (chans w) (<[a := Any p (op w)]> (ep_ops e)).

(** A method called through the pointer [a]; a pointer that leads nowhere
    is a nil dereference. *)
Definition at_op {A} (a : ptr) (m : ∀ p, M (World (OperationOf p)) A) : M Endpoint A := fun e =>
  match ep_ops e !! a with
  | None => Panics
  | Some (Any p o) =>
      match m p (world_at e a o) with
      | Returns r w => Returns r (back e a w)
      | Blocks w => Blocks (back e a w)
      | Panics => Panics
      end
  end.

(** A method of pattern [p] called on a pointer of that struct type. *)
Definition call_at {p : Pattern} (a : ptr) (c : Call p) : M Endpoint Result :=
  at_op a (fun p' =>
    match decide (p = p') with
    | left E => eq_rect p (fun p' => M (World (OperationOf p')) Result) (perform c) p' E
    | right _ => fun _ => Panics
    end).

Definition OnMessage (msg : Message) : M Endpoint (option error) :=
  (* Note (AF): The generated TransactionId is unique for this requesting URI so we
     can use it as key to retrieve the Operation *)
  to ← gets (fun e => handlers (ep_ictx e) !! TransactionId_ msg);
  match to with
  | Some to => at_op to (fun p => OperationHandler_onMessage p msg);; mret None
  | None => mret None
  end.

(** The [for ... range ictx.handlers] of [OnClose], over the entries in the
    order in which the map yields them. *)
Fixpoint close_each (entries : list (ULong * OperationHandler)) : M Endpoint unit :=
  match entries with
  | [] => mret tt
  | (tid, handler) :: entries => at_op handler OperationHandler_onClose;; close_each entries
  end.

Definition OnClose : M Endpoint (option error) :=
  entries ← gets (fun e => map_to_list (handlers (ep_ictx e)));
  close_each entries;;
  mret None.

End WithPackage.
End OperationContext.

End Operations.


(** ** handlers.go *)

Module Handlers.

Inductive HandlerType : Set :=
  | _SEND_HANDLER
  | _SUBMIT_HANDLER
  | _REQUEST_HANDLER
  | _INVOKE_HANDLER
  | _PROGRESS_HANDLER
  | _BROKER_HANDLER.

#[global] Instance HandlerType_eq_dec : EqDecision HandlerType.
Proof. solve_decision. Defined.

Definition DuplicateHandler : error := "MAL handler already registered"%string.
Definition BadHandlerType : error := "Bad handler type"%string.
Definition HandlerNotRegistered : error := "MAL handler not registered"%string.
Definition BadStage : error := "Bad interaction stage for PubSub"%string.

Section WithPackage.
Context `{P : Package}.

(** The positional literal [TransactionX{hctx.Ctx, hctx.Uri, msg.UriFrom,
    msg.TransactionId, msg.ServiceArea, msg.AreaVersion, msg.Service,
    msg.Operation}]. *)
Record TransactionX : Type := mkTransactionX {
  tx_ctx : Context;
  tx_uri : URI;
  tx_urifrom : URI;
  tx_tid : ULong;
  tx_area : UShort;
  tx_areaVersion : UOctet;
  tx_service : UShort;
  tx_operation : UShort
}.

(** The transaction structs that [OnMessage] builds, as one tagged type. *)
Inductive Transaction : Type :=
  | SendTransactionX (t : TransactionX)
  | SubmitTransactionX (t : TransactionX)
  | RequestTransactionX (t : TransactionX)
  | InvokeTransactionX (t : TransactionX)
  | ProgressTransactionX (t : TransactionX)
  | PublisherTransactionX (t : TransactionX)
  | SubscriberTransactionX (t : TransactionX).

(* Defines a generic root handler interface *)
(** A handler is taken to be a function that returns.  A nil handler, which
    [register] accepts and whose call panics, and a handler that panics or
    does not return are not represented; nor is a message whose [UriTo] is
    nil, which the logging of the [default] case of [OnMessage]
    dereferences.  What is proved of [OnMessage] below is about the calls
    that return. *)
Definition Handler : Type := Message -> Transaction -> option error.

Record handlerDesc : Type := mkhandlerDesc {
  handlerType : HandlerType;
  area : UShort;
  areaVersion : UOctet;
  service : UShort;
  operation : UShort;
  handler : Handler
}.

(** [HandlerContext]; its channel [ch] is allocated by [NewHandlerContext]
    and used by nothing in the file, and is left out. *)
Record HandlerContext : Type := mkHandlerContext {
  Ctx : Context;
  Uri : URI;
  handlers : gmap Z handlerDesc
}.

Definition set_handlers (h : gmap Z handlerDesc) (hctx : HandlerContext) : HandlerContext :=
  mkHandlerContext (Ctx hctx) (Uri hctx) h.

Definition NewHandlerContext_literal (ctx : Context) (uri : URI) : HandlerContext :=
  mkHandlerContext ctx uri ∅.

Definition register (hdltype : HandlerType) (area : UShort) (areaVersion : UOctet)
    (service operation : UShort) (handler : Handler) : M HandlerContext (option error) :=
  let key := key area areaVersion service operation in
  old ← gets (fun hctx => handlers hctx !! key);
  if old is Some _ then mret (Some DuplicateHandler)
  else
    let desc := mkhandlerDesc hdltype area areaVersion service operation handler in
    modify (fun hctx => set_handlers (<[key := desc]> (handlers hctx)) hctx);;
    mret None.

Definition RegisterSendHandler := register _SEND_HANDLER.
Definition RegisterSubmitHandler := register _SUBMIT_HANDLER.
Definition RegisterRequestHandler := register _REQUEST_HANDLER.
Definition RegisterInvokeHandler := register _INVOKE_HANDLER.
Definition RegisterProgressHandler := register _PROGRESS_HANDLER.
Definition RegisterBrokerHandler := register _BROKER_HANDLER.

Definition getHandler (hdltype : HandlerType) (area : UShort) (areaVersion : UOctet)
    (service operation : UShort) : M HandlerContext (Handler + error) :=
  let key := key area areaVersion service operation in
  to ← gets (fun hctx => handlers hctx !! key);
  match to with
  | Some to =>
      if decide (handlerType to = hdltype) then mret (inl (handler to))
      else mret (inr BadHandlerType)
  | None => mret (inr HandlerNotRegistered)
  end.

(** A handler is a callback of the application.  The endpoint's state
    records each call made to one, in order, next to the table. *)
Record World : Type := mkWorld {
  hctx : HandlerContext;
  invoked : list (Handler * Message * Transaction)
}.

Definition on_hctx {A} (m : M HandlerContext A) : M World A := fun w =>
  match m (hctx w) with
  | Returns a h => Returns a (mkWorld h (invoked w))
  | Blocks h => Blocks (mkWorld h (invoked w))
  | Panics => Panics
  end.

(** [handler(msg, transaction)] *)
Definition call (handler : Handler) (msg : Message) (transaction : Transaction)
    : M World (option error) := fun w =>
  Returns (handler msg transaction)
          (mkWorld (hctx w) (invoked w ++ [(handler, msg, transaction)])).

(** The [TransactionX] that every case of [OnMessage] builds. *)
Definition transaction_of (msg : Message) : M World TransactionX :=
  h ← gets hctx;
  mret (mkTransactionX (Ctx h) (Uri h) (UriFrom msg) (TransactionId_ msg)
          (ServiceArea msg) (AreaVersion msg) (Service msg) (Operation msg)).

Definition getHandler_for (hdltype : HandlerType) (msg : Message) : M World (Handler + error) :=
  on_hctx (getHandler hdltype (ServiceArea msg) (AreaVersion msg) (Service msg) (Operation msg)).

Definition OnMessage (msg : Message) : M World (option error) :=
  let ityp := InteractionType_ msg in
  let stage := InteractionStage_ msg in
  if decide (ityp = MAL_INTERACTIONTYPE_SEND) then
    r ← getHandler_for _SEND_HANDLER msg;
    match r with
    | inr err => mret (Some err)
    | inl handler => t ← transaction_of msg; call handler msg (SendTransactionX t)
    end
  else if decide (ityp = MAL_INTERACTIONTYPE_SUBMIT) then
    r ← getHandler_for _SUBMIT_HANDLER msg;
    match r with
    | inr err => mret (Some err)
    | inl handler => t ← transaction_of msg; call handler msg (SubmitTransactionX t)
    end
  else if decide (ityp = MAL_INTERACTIONTYPE_REQUEST) then
    r ← getHandler_for _REQUEST_HANDLER msg;
    match r with
    | inr err => mret (Some err)
    | inl handler => t ← transaction_of msg; call handler msg (RequestTransactionX t)
    end
  else if decide (ityp = MAL_INTERACTIONTYPE_INVOKE) then
    r ← getHandler_for _INVOKE_HANDLER msg;
    match r with
    | inr err => mret (Some err)
    | inl handler => t ← transaction_of msg; call handler msg (InvokeTransactionX t)
    end
  else if decide (ityp = MAL_INTERACTIONTYPE_PROGRESS) then
    r ← getHandler_for _PROGRESS_HANDLER msg;
    match r with
    | inr err => mret (Some err)
    | inl handler => t ← transaction_of msg; call handler msg (ProgressTransactionX t)
    end
  else if decide (ityp = MAL_INTERACTIONTYPE_PUBSUB) then
    r ← getHandler_for _BROKER_HANDLER msg;
    match r with
    | inr err => mret (Some err)
    | inl handler =>
        t ← transaction_of msg;
        if decide (stage = MAL_IP_STAGE_PUBSUB_PUBLISH_REGISTER ∨
                   stage = MAL_IP_STAGE_PUBSUB_PUBLISH ∨
                   stage = MAL_IP_STAGE_PUBSUB_PUBLISH_DEREGISTER)
        then call handler msg (PublisherTransactionX t)
        else if decide (stage = MAL_IP_STAGE_PUBSUB_REGISTER ∨
                        stage = MAL_IP_STAGE_PUBSUB_DEREGISTER)
        then call handler msg (SubscriberTransactionX t)
        else mret (Some BadStage)
    end
  else
    (* default: the message is logged and dropped *)
    mret None.

Definition OnClose : M World (option error) := mret None.

(** *** Notions used to state the dispatch property *)

(** The cases of the [switch] of [OnMessage] other than PUBSUB: the
    interaction type, the handler type that [getHandler] is asked for, and
    the transaction struct that is built. *)
Definition switch_cases : list (InteractionType * HandlerType * (TransactionX -> Transaction)) :=
  [ (MAL_INTERACTIONTYPE_SEND, _SEND_HANDLER, SendTransactionX);
    (MAL_INTERACTIONTYPE_SUBMIT, _SUBMIT_HANDLER, SubmitTransactionX);
    (MAL_INTERACTIONTYPE_REQUEST, _REQUEST_HANDLER, RequestTransactionX);
    (MAL_INTERACTIONTYPE_INVOKE, _INVOKE_HANDLER, InvokeTransactionX);
    (MAL_INTERACTIONTYPE_PROGRESS, _PROGRESS_HANDLER, ProgressTransactionX) ].

(** The six [case] constants of the [switch]; Go rejects a [switch] with a
    repeated constant, so they are pairwise distinct. *)
Definition interaction_types : list InteractionType :=
  [ MAL_INTERACTIONTYPE_SEND; MAL_INTERACTIONTYPE_SUBMIT; MAL_INTERACTIONTYPE_REQUEST;
    MAL_INTERACTIONTYPE_INVOKE; MAL_INTERACTIONTYPE_PROGRESS; MAL_INTERACTIONTYPE_PUBSUB ].

Definition publisher_stages : list InteractionStage :=
  [ MAL_IP_STAGE_PUBSUB_PUBLISH_REGISTER; MAL_IP_STAGE_PUBSUB_PUBLISH;
    MAL_IP_STAGE_PUBSUB_PUBLISH_DEREGISTER ].

Definition subscriber_stages : list InteractionStage :=
  [ MAL_IP_STAGE_PUBSUB_REGISTER; MAL_IP_STAGE_PUBSUB_DEREGISTER ].

(** The key under which [OnMessage] looks a message up, and the
    transaction data it builds for it. *)
Definition key_of (msg : Message) : Z :=
  key (ServiceArea msg) (AreaVersion msg) (Service msg) (Operation msg).

Definition TransactionX_of (w : World) (msg : Message) : TransactionX :=
  mkTransactionX (Ctx (hctx w)) (Uri (hctx w)) (UriFrom msg) (TransactionId_ msg)
    (ServiceArea msg) (AreaVersion msg) (Service msg) (Operation msg).

(** The world after one more call, of [handler] on [msg] and [t]. *)
Definition after_call (w : World) (handler : Handler) (msg : Message) (t : Transaction) : World :=
  mkWorld (hctx w) (invoked w ++ [(handler, msg, t)]).

(** The values of Go's [UShort] and [UOctet]. *)
Definition in_range (area : UShort) (areaVersion : UOctet) (service operation : UShort) : Prop :=
  (0 <= area < 2 ^ 16) ∧ (0 <= areaVersion < 2 ^ 8) ∧
  (0 <= service < 2 ^ 16) ∧ (0 <= operation < 2 ^ 16).

(** [key] tells any two quadruples of coordinates apart. *)
Definition key_injective : Prop :=
  ∀ a v s o a' v' s' o',
    in_range a v s o → in_range a' v' s' o' →
    key a v s o = key a' v' s' o' →
    a = a' ∧ v = v' ∧ s = s' ∧ o = o'.

(** Every descriptor of the table sits under the key of the coordinates it
    records: what [register], the only writer of the table, establishes. *)
Definition table_ok (h : HandlerContext) : Prop :=
  ∀ k d, handlers h !! k = Some d →
    k = key (area d) (areaVersion d) (service d) (operation d) ∧
    in_range (area d) (areaVersion d) (service d) (operation d).

(** *** A provider that registers its handlers one after the other *)

(** The arguments of one call of a [Register...Handler] method. *)
Record registration : Type := mkRegistration {
  reg_type : HandlerType;
  reg_area : UShort;
  reg_areaVersion : UOctet;
  reg_service : UShort;
  reg_operation : UShort;
  reg_handler : Handler
}.

Definition register_one (r : registration) : M HandlerContext (option error) :=
  register (reg_type r) (reg_area r) (reg_areaVersion r) (reg_service r) (reg_operation r)
    (reg_handler r).

(** The calls in the order of the list, with the errors they return. *)
Fixpoint register_all (rs : list registration) : M HandlerContext (list (option error)) :=
  match rs with
  | [] => mret []
  | r :: rs => err ← register_one r; errs ← register_all rs; mret (err :: errs)
  end.

Definition reg_key (r : registration) : Z :=
  key (reg_area r) (reg_areaVersion r) (reg_service r) (reg_operation r).

(** The descriptor that [register] builds for the call. *)
Definition reg_desc (r : registration) : handlerDesc :=
  mkhandlerDesc (reg_type r) (reg_area r) (reg_areaVersion r) (reg_service r)
    (reg_operation r) (reg_handler r).

(** The first registration of the list made under the key [k]. *)
Definition first_under (k : Z) (rs : list registration) : option registration :=
  head (filter (fun r => reg_key r = k) rs).

(** What [getHandler] answers for the handler type [hdltype] when [found]
    is the registration that the table holds under the key. *)
Definition answer (hdltype : HandlerType) (found : option registration) : Handler + error :=
  match found with
  | Some r =>
      if decide (reg_type r = hdltype) then inl (reg_handler r) else inr BadHandlerType
  | None => inr HandlerNotRegistered
  end.

End WithPackage.

End Handlers.

(** ** The length field of the MALTCP frame (package [tcp])

    [Context.Send] hands a message to the transport, which writes it with
    [writeMessage]; [readMessage] on the other side feeds [OnMessage].  The
    encoding of the header is not part of the sources; what is embedded
    here is the length field: [write32], the stamping of the body length by
    [writeMessage] into the encoded bytes, and the length that
    [readMessage] computes from the header it has read.  A byte is an
    integer below 2^8, a [uint32] one below 2^32. *)

Module Tcp.

Definition VARIABLE_LENGTH_OFFSET : Z := 19.
Definition FIXED_HEADER_LENGTH : Z := 23.

(** The conversions [byte(x)] and the arithmetic of [uint32]. *)
Definition byte_of (x : Z) : Z := x mod 2 ^ 8.
Definition uint32 (x : Z) : Z := x mod 2 ^ 32.

(** [buf[i] = v]; an index out of range panics ([None]). *)
Definition store (i : nat) (v : Z) (buf : list Z) : option (list Z) :=
  if (i <? length buf)%nat then Some (<[i := v]> buf) else None.

Definition write32 (value : Z) (buf : list Z) : option (list Z) :=
  buf ← store 0 (byte_of (Z.shiftr value 24)) buf;
  buf ← store 1 (byte_of (Z.shiftr value 16)) buf;
  buf ← store 2 (byte_of (Z.shiftr value 8)) buf;
  store 3 (byte_of (Z.shiftr value 0)) buf.

(** The statement of [writeMessage] between [encode] and [cnx.Write]:
    [write32(uint32(len(buf))-FIXED_HEADER_LENGTH,
    buf[VARIABLE_LENGTH_OFFSET:VARIABLE_LENGTH_OFFSET+4])], on the slice
    [buf] of the encoded bytes; [spare] is what the backing array holds
    beyond the length of [buf], up to its capacity.  Go checks the slice
    expression against the capacity, not the length: it panics ([None])
    when the capacity is below 23.  The slice shares the bytes 19 to 22
    with the array, so the four bytes written are those of [buf], or of
    [spare] where [buf] is shorter than the fixed header.  The result is
    [buf] and the spare part after the write. *)
Definition stamp_length (buf spare : list Z) : option (list Z * list Z) :=
  let array := buf ++ spare in
  if (length array <? 23)%nat then None
  else
    field ← write32 (uint32 (Z.of_nat (length buf) - FIXED_HEADER_LENGTH))
                    (take 4 (drop 19 array));
    let array' := take 19 array ++ field ++ drop 23 array in
    Some (take (length buf) array', drop (length buf) array').


(** The big-endian value of four bytes. *)
Definition big_endian (b0 b1 b2 b3 : Z) : Z :=
  b0 * 2 ^ 24 + b1 * 2 ^ 16 + b2 * 2 ^ 8 + b3.

End Tcp.


(** ** A concrete package

    The parameters of [Package] instantiated, to run the model on examples:
    interaction types and stages numbered as in the MAL standard (stage
    numbers restart in every pattern), a context that logs what it is asked
    to send, and a key that packs the coordinates into 16+8+16+16 bits. *)

Module Loopback.

Definition pack (area areaVersion service operation : Z) : Z :=
  ((area * 2 ^ 8 + areaVersion) * 2 ^ 16 + service) * 2 ^ 16 + operation.

#[export] Instance package : Package := {|
  MAL_INTERACTIONTYPE_SEND := 1;
  MAL_INTERACTIONTYPE_SUBMIT := 2;
  MAL_INTERACTIONTYPE_REQUEST := 3;
  MAL_INTERACTIONTYPE_INVOKE := 4;
  MAL_INTERACTIONTYPE_PROGRESS := 5;
  MAL_INTERACTIONTYPE_PUBSUB := 6;
  MAL_IP_STAGE_SEND := 1;
  MAL_IP_STAGE_SUBMIT := 1;
  MAL_IP_STAGE_SUBMIT_ACK := 2;
  MAL_IP_STAGE_REQUEST := 1;
  MAL_IP_STAGE_REQUEST_RESPONSE := 2;
  MAL_IP_STAGE_INVOKE := 1;
  MAL_IP_STAGE_INVOKE_ACK := 2;
  MAL_IP_STAGE_INVOKE_RESPONSE := 3;
  MAL_IP_STAGE_PROGRESS := 1;
  MAL_IP_STAGE_PROGRESS_ACK := 2;
  MAL_IP_STAGE_PROGRESS_UPDATE := 3;
  MAL_IP_STAGE_PROGRESS_RESPONSE := 4;
  MAL_IP_STAGE_PUBSUB_REGISTER := 1;
  MAL_IP_STAGE_PUBSUB_REGISTER_ACK := 2;
  MAL_IP_STAGE_PUBSUB_PUBLISH_REGISTER := 3;
  MAL_IP_STAGE_PUBSUB_PUBLISH_REGISTER_ACK := 4;
  MAL_IP_STAGE_PUBSUB_PUBLISH := 5;
  MAL_IP_STAGE_PUBSUB_NOTIFY := 6;
  MAL_IP_STAGE_PUBSUB_DEREGISTER := 7;
  MAL_IP_STAGE_PUBSUB_DEREGISTER_ACK := 8;
  MAL_IP_STAGE_PUBSUB_PUBLISH_DEREGISTER := 9;
  MAL_IP_STAGE_PUBSUB_PUBLISH_DEREGISTER_ACK := 10;
  Context := list Message;
  Context_Send := fun msg sent => (None, sent ++ [msg]);
  key := pack
|}.

Import Operations.

Definition consumer : URI := "maltcp://127.0.0.1:16001/consumer"%string.
Definition provider : URI := "maltcp://127.0.0.1:16002/provider"%string.

(** A reply of the provider to transaction [tid] of [consumer], for the
    service coordinates (1, 1, 1, 1) of the spec's scenarios. *)
Definition inbound (ityp : InteractionType) (stage : InteractionStage) (tid : ULong)
    (is_error : bool) (body : list byte) : Message :=
  mkMessage provider consumer ityp stage 1 1 1 1 tid is_error body.

(** A fresh context, with no channel allocated and the receiver at address 1. *)
Definition world0 : World unit :=
  mkWorld (NewOperationContext_literal [] consumer) ∅ 1%positive tt.

(** The world after a constructor has run in [w]. *)
Definition construct {O} (new : M (World unit) O) (w : World unit) : option (World O) :=
  match new w with
  | Returns o w' => Some (set_op o w')
  | _ => None
  end.

(** The world of one operation [o] of [consumer]: the counter has issued
    one id, the table is [table], and the only channel, at location 1,
    holds [queue]. *)
Definition world_of {O} (o : O) (table : gmap Z OperationHandler) (queue : list Message)
    (closed : bool) : World O :=
  mkWorld (mkOperationContext [] consumer table 1)
          {[ 1%positive := mkChan queue 10 closed ]} 1%positive o.

(** Operation 1 of [consumer] towards [provider], in status [st]. *)
Definition operation_in (st : Status) : OperationX :=
  mkOperationX 1 (Some 1%positive) provider 1 1 1 1 st.

(** Scenario messages. *)
Definition submit_ack : Message := inbound 2 2 1 false [].
Definition invoke_response_error : Message := inbound 4 3 1 true [xee].
Definition progress_update (b : byte) : Message := inbound 5 3 1 false [b].
Definition progress_update_error : Message := inbound 5 3 1 true [xee].
Definition progress_response : Message := inbound 5 4 1 false [xff].
Definition notify (b : byte) : Message := inbound 6 6 1 false [b].
Definition deregister_ack : Message := inbound 6 8 1 false [].
Definition deregister_ack_error : Message := inbound 6 8 1 true [xee].

(** A submit operation as [NewSubmitOperation] returns it, with the given
    queue contents. *)
Definition submit_world (queue : list Message) (closed : bool) : World SubmitOperationX :=
  world_of (mkSubmitOperationX (operation_in _CREATED)) ∅ queue closed.

(** Operations that have been acknowledged or registered are in the table. *)
Definition invoke_world (queue : list Message) : World InvokeOperationX :=
  world_of (mkInvokeOperationX (operation_in _ACKNOWLEDGED) None) {[ 1 := 1%positive ]}
           queue false.

Definition progress_world (queue : list Message) : World ProgressOperationX :=
  world_of (mkProgressOperationX (operation_in _ACKNOWLEDGED) None) {[ 1 := 1%positive ]}
           queue false.

Definition subscriber_world (queue : list Message) : World SubscriberOperationX :=
  world_of (mkSubscriberOperationX (operation_in _REGISTERED)) {[ 1 := 1%positive ]}
           queue false.

(** A submit operation that has ended, with a reply that came too late
    still in its queue. *)
Definition finished_submit_world : World SubmitOperationX :=
  world_of (mkSubmitOperationX (operation_in _FINAL)) ∅ [submit_ack] false.

(** The same operation in a context whose counter has reached the largest
    [uint64] and has wrapped before: the id 0 is held by the operation at
    address 2, which is waiting for its reply. *)
Definition wrapped_submit_world : World SubmitOperationX :=
  mkWorld (mkOperationContext [] consumer {[ 0 := 2%positive ]} (2 ^ 64 - 1))
          {[ 1%positive := mkChan [submit_ack] 10 false ]} 1%positive
          (mkSubmitOperationX (operation_in _FINAL)).

(** The context as [NewOperationContext] builds it. *)
Definition new_context : OperationContext := NewOperationContext_literal [] consumer.

(** A context whose counter has reached the largest [uint64]. *)
Definition exhausted_context : OperationContext :=
  mkOperationContext [] consumer ∅ (2 ^ 64 - 1).

(** The responder side: a handler that accepts everything, registered as
    submit handler for the coordinates (1, 1, 1, 1). *)
Definition accept : Handlers.Handler := fun _ _ => None.

Definition submit_endpoint : Handlers.World :=
  Handlers.mkWorld
    (Handlers.mkHandlerContext [] provider
       {[ pack 1 1 1 1 := Handlers.mkhandlerDesc Handlers._SUBMIT_HANDLER 1 1 1 1 accept ]})
    [].

Definition empty_endpoint : Handlers.World :=
  Handlers.mkWorld (Handlers.NewHandlerContext_literal [] provider) [].

(** A submit of [consumer], and a message whose interaction type is none
    of the six. *)
Definition submit_request : Message := mkMessage consumer provider 2 1 1 1 1 1 1 false [x01].
Definition unknown_request : Message := mkMessage consumer provider 7 1 1 1 1 1 1 false [x01].

(** More scenario states. *)
Definition invoke_ack : Message := inbound 4 2 1 false [].
Definition invoke_response : Message := inbound 4 3 1 false [xff].
Definition publish_deregister_ack : Message := inbound 6 10 1 false [].

(** A send operation as [NewSendOperation] returns it: no channel. *)
Definition send_world : World SendOperationX :=
  mkWorld (mkOperationContext [] consumer ∅ 1) ∅ 1%positive
    (mkSendOperationX (mkOperationX 1 None provider 1 1 1 1 _CREATED)).

Definition created_invoke_world (queue : list Message) : World InvokeOperationX :=
  world_of (mkInvokeOperationX (operation_in _CREATED) None) ∅ queue false.

Definition publisher_world (queue : list Message) : World PublisherOperationX :=
  world_of (mkPublisherOperationX (operation_in _REGISTERED)) {[ 1 := 1%positive ]}
           queue false.

(** A submit operation whose transaction id is held by the operation at
    address 2. *)
Definition taken_submit_world : World SubmitOperationX :=
  world_of (mkSubmitOperationX (operation_in _CREATED)) {[ 1 := 2%positive ]} [] false.

(** The endpoint of [consumer] with one invoke operation, acknowledged and
    waiting for its response. *)
Definition invoke_endpoint : Endpoint :=
  mkEndpoint (mkOperationContext [] consumer {[ 1 := 1%positive ]} 1)
    {[ 1%positive := mkChan [] 10 false ]}
    {[ 1%positive := Any InvokePattern (mkInvokeOperationX (operation_in _ACKNOWLEDGED) None) ]}.

(** A transport that has no route to the provider: every [Send] fails. *)
Definition NoRoute : error := "no route to host"%string.

Definition offline : Package := {|
  MAL_INTERACTIONTYPE_SEND := 1;
  MAL_INTERACTIONTYPE_SUBMIT := 2;
  MAL_INTERACTIONTYPE_REQUEST := 3;
  MAL_INTERACTIONTYPE_INVOKE := 4;
  MAL_INTERACTIONTYPE_PROGRESS := 5;
  MAL_INTERACTIONTYPE_PUBSUB := 6;
  MAL_IP_STAGE_SEND := 1;
  MAL_IP_STAGE_SUBMIT := 1;
  MAL_IP_STAGE_SUBMIT_ACK := 2;
  MAL_IP_STAGE_REQUEST := 1;
  MAL_IP_STAGE_REQUEST_RESPONSE := 2;
  MAL_IP_STAGE_INVOKE := 1;
  MAL_IP_STAGE_INVOKE_ACK := 2;
  MAL_IP_STAGE_INVOKE_RESPONSE := 3;
  MAL_IP_STAGE_PROGRESS := 1;
  MAL_IP_STAGE_PROGRESS_ACK := 2;
  MAL_IP_STAGE_PROGRESS_UPDATE := 3;
  MAL_IP_STAGE_PROGRESS_RESPONSE := 4;
  MAL_IP_STAGE_PUBSUB_REGISTER := 1;
  MAL_IP_STAGE_PUBSUB_REGISTER_ACK := 2;
  MAL_IP_STAGE_PUBSUB_PUBLISH_REGISTER := 3;
  MAL_IP_STAGE_PUBSUB_PUBLISH_REGISTER_ACK := 4;
  MAL_IP_STAGE_PUBSUB_PUBLISH := 5;
  MAL_IP_STAGE_PUBSUB_NOTIFY := 6;
  MAL_IP_STAGE_PUBSUB_DEREGISTER := 7;
  MAL_IP_STAGE_PUBSUB_DEREGISTER_ACK := 8;
  MAL_IP_STAGE_PUBSUB_PUBLISH_DEREGISTER := 9;
  MAL_IP_STAGE_PUBSUB_PUBLISH_DEREGISTER_ACK := 10;
  Context := list Message;
  Context_Send := fun msg sent => (Some NoRoute, sent);
  key := pack
|}.

(** The submit operation of [submit_world] on the offline transport. *)
Definition offline_submit_world : @World offline SubmitOperationX :=
  @mkWorld offline _ (@mkOperationContext offline [] consumer ∅ 1)
    {[ 1%positive := mkChan [] 10 false ]} 1%positive
    (mkSubmitOperationX (operation_in _CREATED)).


End Loopback.


(** * Properties of operations.go *)

Module OperationsFacts.
Import Operations Operations.OperationX.

#[global] Instance OperationX_laws : IsOperationLaws OperationX.
Proof. split; reflexivity. Qed.
#[global] Instance SendOperationX_laws : IsOperationLaws SendOperationX.
Proof. split; try reflexivity. by intros []. Qed.
#[global] Instance SubmitOperationX_laws : IsOperationLaws SubmitOperationX.
Proof. split; try reflexivity. by intros []. Qed.
#[global] Instance RequestOperationX_laws : IsOperationLaws RequestOperationX.
Proof. split; try reflexivity. by intros []. Qed.
#[global] Instance InvokeOperationX_laws : IsOperationLaws InvokeOperationX.
Proof. split; try reflexivity. by intros []. Qed.
#[global] Instance ProgressOperationX_laws : IsOperationLaws ProgressOperationX.
Proof. split; try reflexivity. by intros []. Qed.
#[global] Instance SubscriberOperationX_laws : IsOperationLaws SubscriberOperationX.
Proof. split; try reflexivity. by intros []. Qed.
#[global] Instance PublisherOperationX_laws : IsOperationLaws PublisherOperationX.
Proof. split; try reflexivity. by intros []. Qed.

(** Symbolic execution of a method: unfold the monad and the primitives,
    compute, and settle each test from the hypotheses. *)
Ltac decide_step :=
  match goal with
  | |- context [decide ?Q] =>
      first [ rewrite (decide_True (P:=Q)) by (clear; intuition congruence)
            | rewrite (decide_False (P:=Q)) by (clear; intuition congruence)
            | rewrite (decide_True (P:=Q)) by (intuition congruence)
            | rewrite (decide_False (P:=Q)) by (intuition congruence) ]
  end.

Ltac lookup_step :=
  match goal with
  | |- context [<[?k := _]> _ !! ?k] => rewrite lookup_insert_eq
  | H : ?m !! ?k = _ |- context [?m !! ?k] => rewrite H
  | H : buf ?q = _ |- context [buf ?q] => rewrite H
  | H : closed ?q = _ |- context [closed ?q] => rewrite H
  | H : IsErrorMessage ?m = _ |- context [IsErrorMessage ?m] => rewrite H
  | H : Context_Send ?m ?c = _ |- context [Context_Send ?m ?c] => rewrite H
  end.

Ltac api_unfold :=
  cbv [mbind M_bind mret M_ret op_get op_set gets modify outgoing register_self
       on_ictx register deregister TransactionId Ctx_Send finalize receive
       chan_recv chan_close set_op set_ictx set_chans set_handlers set_Ctx
       set_txcounter set_status set_tid set_ch message_literal request_of
       status_of tid_of ch_of queue_of send_succeeds sent initiation_succeeds
       InvokeOperationX.get_response InvokeOperationX.set_response
       ProgressOperationX.get_response ProgressOperationX.set_response
       embedded with_embedded OperationX_IsOperation SendOperationX_IsOperation
       SubmitOperationX_IsOperation RequestOperationX_IsOperation
       InvokeOperationX_IsOperation ProgressOperationX_IsOperation
       SubscriberOperationX_IsOperation PublisherOperationX_IsOperation].

Ltac run := repeat (api_unfold; cbn; try decide_step; try lookup_step).

(** Name the outcome of the transport call that the hypotheses speak of. *)
Ltac name_send :=
  match goal with
  | H : context [Context_Send ?m ?c] |- _ =>
      let e := fresh "e" in let c' := fresh "c'" in let E := fresh "E" in
      destruct (Context_Send m c) as [e c'] eqn:E; cbn in *; subst
  end.

Section TransactionIds.
Context `{P : Package}.

Lemma TransactionId_run (ictx : OperationContext) :
  TransactionId ictx =
  Returns (wrap64 (txcounter ictx + 1)) (set_txcounter (wrap64 (txcounter ictx + 1)) ictx).
Proof. reflexivity. Qed.

Lemma wrap64_small (z : Z) : 0 <= z < 2 ^ 64 -> wrap64 z = z.
Proof. intros Hz. unfold wrap64. by apply Z.mod_small. Qed.

(** [n] calls return the counter plus 1, ..., plus [n], each modulo 2^64. *)
Lemma TransactionIds_run (n : nat) (ictx : OperationContext) :
  ∃ ictx',
    TransactionIds n ictx =
    Returns (map (fun k => wrap64 (txcounter ictx + Z.of_nat k)) (seq 1 n)) ictx' ∧
    handlers ictx' = handlers ictx.
Proof.
  revert ictx. induction n as [|n IH]; intros ictx.
  - eexists. split; reflexivity.
  - cbn [TransactionIds]. unfold mbind at 1, M_bind at 1.
    rewrite TransactionId_run.
    destruct (IH (set_txcounter (wrap64 (txcounter ictx + 1)) ictx)) as (ictx' & Hrun & Hh).
    unfold mbind at 1, M_bind at 1. rewrite Hrun.
    exists ictx'. split; [|exact Hh].
    unfold mret, M_ret. f_equal.
    cbn [seq map set_txcounter txcounter]. apply (f_equal2 cons); [reflexivity|].
    rewrite <- (seq_shift n 1), map_map. apply map_ext. intros k.
    unfold wrap64. rewrite Z.add_mod_idemp_l by lia. f_equal. lia.
Qed.

(** Fewer than 2^64 steps from the counter never come back to the same
    value modulo 2^64. *)
Lemma wrapped_ids_NoDup (c : Z) (n : nat) :
  Z.of_nat n <= 2 ^ 64 →
  NoDup (map (fun k => wrap64 (c + Z.of_nat k)) (seq 1 n)).
Proof.
  intros Hn. apply (NoDup_fmap_2_strong (fun k => wrap64 (c + Z.of_nat k))).
  - intros k k' Hk Hk'. rewrite !elem_of_seq in *. unfold wrap64. intros Heq.
    pose proof (Z.div_mod (c + Z.of_nat k) (2 ^ 64) ltac:(lia)).
    pose proof (Z.div_mod (c + Z.of_nat k') (2 ^ 64) ltac:(lia)).
    lia.
  - apply NoDup_seq.
Qed.

Lemma counting_up_sorted (c : Z) (n : nat) (b : nat) :
  StronglySorted Z.lt (map (fun k => c + Z.of_nat k) (seq b n)).
Proof.
  revert b. induction n as [|n IH]; intros b; cbn; constructor; [apply IH|].
  apply List.Forall_forall. intros z Hz. apply List.in_map_iff in Hz as (k & <- & Hk).
  apply List.in_seq in Hk. lia.
Qed.

(** Below the wrap-around the ids are the counter plus 1, ..., plus [n]. *)
Lemma unwrapped_ids (c : Z) (n : nat) :
  0 <= c → c + Z.of_nat n < 2 ^ 64 →
  map (fun k => wrap64 (c + Z.of_nat k)) (seq 1 n) =
  map (fun k => c + Z.of_nat k) (seq 1 n).
Proof.
  intros H0 Hn. apply map_ext_in. intros k Hk. apply List.in_seq in Hk.
  apply wrap64_small. lia.
Qed.

(** C4 (amended): [TransactionId] stores and returns the counter plus one
    modulo 2^64.  On a new context the first call returns 1.  Any [n]
    successive calls, [n] at most 2^64, return [n] pairwise distinct values;
    and as long as the counter does not pass 2^64 - 1 these are counter+1,
    ..., counter+n, strictly increasing in the order of the calls. *)
Theorem TransactionId_counts_up :
  (∀ ictx : OperationContext,
     TransactionId ictx =
     Returns (wrap64 (txcounter ictx + 1))
             (set_txcounter (wrap64 (txcounter ictx + 1)) ictx)) ∧
  (∀ ctx uri, ∃ ictx',
     TransactionId (NewOperationContext_literal ctx uri) = Returns 1 ictx') ∧
  (∀ (ictx : OperationContext) (n : nat),
     ∃ ts ictx',
       TransactionIds n ictx = Returns ts ictx' ∧
       length ts = n ∧
       (Z.of_nat n <= 2 ^ 64 → NoDup ts) ∧
       (0 <= txcounter ictx → txcounter ictx + Z.of_nat n < 2 ^ 64 →
        ts = map (fun k => txcounter ictx + Z.of_nat k) (seq 1 n) ∧
        StronglySorted Z.lt ts)).
Proof.
  split; [|split].
  - apply TransactionId_run.
  - intros ctx uri. eexists. reflexivity.
  - intros ictx n. destruct (TransactionIds_run n ictx) as (ictx' & Hrun & _).
    do 2 eexists. split; [exact Hrun|].
    split; [by rewrite length_map, length_seq|].
    split; [apply wrapped_ids_NoDup|].
    intros H0 Hn. rewrite unwrapped_ids by done.
    split; [done|apply counting_up_sorted].
Qed.

End TransactionIds.

Section AnyOperation.
Context `{P : Package} {O : Type} `{L : IsOperationLaws O}.

Ltac unfold_generic :=
  cbv [mbind M_bind mret M_ret op_get op_set gets modify register_self on_ictx
       register deregister TransactionId finalize receive chan_recv chan_close
       set_op set_ictx set_chans set_handlers set_txcounter
       status_of tid_of ch_of queue_of].

Ltac run_generic E :=
  repeat (unfold_generic; cbn;
          rewrite ?embedded_with_embedded, ?with_embedded_twice, ?E; cbn;
          try decide_step; try lookup_step).

(** [finalize] always returns; it sets FINAL and keeps every other field of
    the operation, and the channels. *)
Lemma finalize_returns (w : World O) :
  ∃ w', finalize w = Returns tt w' ∧
    op w' = with_embedded (set_status _FINAL (embedded (op w))) (op w) ∧
    chans w' = chans w ∧
    op_addr w' = op_addr w.
Proof.
  unfold finalize.
  destruct w as [i cs a o]; cbn in *.
  destruct (embedded o) as [t [l|] ur ar av sv opn st] eqn:E; run_generic E.
  - destruct (handlers i !! t) eqn:Hh; run_generic E; eauto.
  - eauto.
Qed.

(** A second [Close] does nothing and succeeds. *)
Lemma Close_closed (w : World O) :
  status_of w = _CLOSED → Close w = Returns None w.
Proof.
  intros Hst. unfold Close, status_of in *.
  destruct w as [i cs a o]; cbn in *.
  destruct (embedded o) as [t c ur ar av sv opn st] eqn:E; cbn in *; subst.
  by run_generic E.
Qed.

(** The first [Close] of an operation that has a channel.  The test that
    guards [deregister] reads the status after it has been overwritten with
    CLOSED, so whatever the status was before the call, [deregister] runs
    and its result is what [Close] returns. *)
Lemma Close_run (w : World O) (l : loc) (q : chan) :
  status_of w ≠ _CLOSED →
  ch_of w = Some l →
  chans w !! l = Some q →
  closed q = false →
  ∃ err ictx',
    deregister (tid_of w) (ictx w) = Returns err ictx' ∧
    Close w =
    Returns err
      (mkWorld ictx' (<[l := mkChan (buf q) (cap q) true]> (chans w)) (op_addr w)
         (with_embedded (set_ch None (set_status _CLOSED (embedded (op w)))) (op w))).
Proof.
  intros Hst Hch Hq Hc. unfold Close.
  unfold status_of, tid_of, ch_of in *.
  destruct w as [i cs a o]; cbn in *.
  destruct (embedded o) as [t c ur ar av sv opn st] eqn:E; cbn in *; subst.
  run_generic E.
  destruct (handlers i !! t) eqn:Hh; run_generic E;
    do 2 eexists; (split; [reflexivity|]); reflexivity.
Qed.

(** C3: at an operation that owns an open queue and is in CREATED or FINAL
    (where its transaction id is not in the table), [Close] closes the
    queue, sets CLOSED and drops the channel, but it also calls [deregister]
    and returns its "No handler registered for this transaction" error: the
    status test meant to skip [deregister] runs after the status has been
    overwritten. *)
Theorem Close_in_CREATED_or_FINAL_returns_error (w : World O) (l : loc) (q : chan) :
  status_of w = _CREATED ∨ status_of w = _FINAL →
  ch_of w = Some l →
  chans w !! l = Some q →
  closed q = false →
  handlers (ictx w) !! tid_of w = None →
  ∃ w', Close w = Returns (Some UnknownTransaction) w' ∧
    status_of w' = _CLOSED ∧
    ch_of w' = None ∧
    chans w' !! l = Some (mkChan (buf q) (cap q) true) ∧
    ictx w' = ictx w ∧
    Close w' = Returns None w'.
Proof.
  intros Hst Hch Hq Hc Hh.
  destruct (Close_run w l q) as (err & i' & Hd & ->); try done.
  { destruct Hst as [-> | ->]; discriminate. }
  unfold deregister in Hd. revert Hd. unfold tid_of in *. run_generic Hh.
  intros [= <- <-]. eexists. split; [reflexivity|].
  assert (Hcl : status_of (mkWorld (ictx w)
             (<[l := mkChan (buf q) (cap q) true]> (chans w)) (op_addr w)
             (with_embedded (set_ch None (set_status _CLOSED (embedded (op w)))) (op w)))
           = _CLOSED).
  { unfold status_of. cbn. by rewrite embedded_with_embedded. }
  repeat split.
  - done.
  - unfold ch_of. cbn. by rewrite embedded_with_embedded.
  - cbn. apply lookup_insert_eq.
  - by apply Close_closed.
Qed.

(** Once CLOSED, [Reset] is refused too: the operation stays closed. *)
Lemma Reset_refused (w : World O) :
  status_of w ≠ _FINAL → Reset w = Returns (Some BadStatus) w.
Proof.
  intros Hst. unfold Reset, status_of in *.
  destruct w as [i cs a o]; cbn in *.
  destruct (embedded o) as [t c ur ar av sv opn st] eqn:E; cbn in *.
  by run_generic E.
Qed.

(** [Reset] in FINAL: a new transaction id, status CREATED, and nothing
    else of the operation, of the channels or of the table changes. *)
Lemma Reset_run (w : World O) :
  status_of w = _FINAL →
  let t := wrap64 (txcounter (ictx w) + 1) in
  Reset w =
  Returns None
    (mkWorld (set_txcounter t (ictx w)) (chans w) (op_addr w)
       (with_embedded (set_status _CREATED (set_tid t (embedded (op w)))) (op w))).
Proof.
  intros Hst. unfold Reset, status_of in *.
  destruct w as [i cs a o]; cbn in *.
  destruct (embedded o) as [t c ur ar av sv opn st] eqn:E; cbn in *; subst.
  by run_generic E.
Qed.

End AnyOperation.

(** Destructure a world down to the fields of the operation. *)
Ltac expose w :=
  unfold initiation_succeeds, send_succeeds, sent, queue_ended, ends_operation,
         queue_of, status_of, tid_of, ch_of, tail_of, checked_reply in *;
  destruct w as [[? ? ? ?] ? ? ?];
  repeat match goal with
         | o : SendOperationX |- _ => destruct o
         | o : SubmitOperationX |- _ => destruct o
         | o : RequestOperationX |- _ => destruct o
         | o : InvokeOperationX |- _ => destruct o
         | o : ProgressOperationX |- _ => destruct o
         | o : SubscriberOperationX |- _ => destruct o
         | o : PublisherOperationX |- _ => destruct o
         | x : OperationX |- _ => destruct x
         end;
  cbn in *;
  repeat match goal with
         | H : _ ∧ _ |- _ => destruct H
         | H : ∃ _, _ |- _ => destruct H
         | H : match ?c with Some _ => _ | None => None end = Some _ |- _ =>
             destruct c; [|discriminate]
         end;
  unfold message_literal, request_of, tid_of in *; cbn in *;
  try name_send; subst.

(** [finalize] consults the table; when nothing is known about the
    transaction id, both answers are followed. *)
Ltac split_lookup :=
  match goal with
  | |- context [match ?m !! ?k with Some _ => _ | None => _ end] =>
      let Hl := fresh "Hl" in destruct (m !! k) eqn:Hl
  end.

(** [finalize] tests [op.ch]; when nothing is known about it, both cases
    are followed. *)
Ltac split_channel :=
  match goal with
  | |- context [match ?c with Some _ => _ | None => _ end] => is_var c; destruct c
  end.

(** Close a goal about the world reached: give the world and check each
    component. *)
Ltac reached :=
  eexists; split; [reflexivity|]; cbn;
  rewrite ?lookup_insert_eq, ?delete_insert_id by done;
  repeat split; try done.

Section Submit.
Context `{P : Package}.
Import SubmitOperationX.

Lemma Submit_refused (w : World SubmitOperationX) body :
  status_of w ≠ _CREATED → Submit body w = Returns (None, Some BadStatus) w.
Proof. intros Hst. expose w. unfold Submit. by run. Qed.

(** The two ways in which [Submit] ends before its wait: the id is taken,
    or the transport refuses the message.  The error is passed on and the
    operation is FINAL. *)
Lemma Submit_not_registered (w : World SubmitOperationX) body old :
  status_of w = _CREATED →
  handlers (ictx w) !! tid_of w = Some old →
  ∃ w', Submit body w = Returns (None, Some DuplicateTransaction) w' ∧
    status_of w' = _FINAL ∧ chans w' = chans w ∧ Ctx (ictx w') = Ctx (ictx w).
Proof.
  intros Hst Hh. expose w. unfold Submit. run.
  split_channel; run; reached.
Qed.

Lemma Submit_not_sent (w : World SubmitOperationX) body e :
  status_of w = _CREATED →
  handlers (ictx w) !! tid_of w = None →
  (Context_Send (message_literal MAL_INTERACTIONTYPE_SUBMIT MAL_IP_STAGE_SUBMIT body w)
     (Ctx (ictx w))).1 = Some e →
  ∃ w', Submit body w = Returns (None, Some e) w' ∧
    status_of w' = _FINAL ∧ chans w' = chans w.
Proof.
  intros Hst Hh Hs. expose w. unfold Submit. run.
  split_channel; run; reached.
Qed.

Lemma Submit_waits (w : World SubmitOperationX) body q :
  initiation_succeeds MAL_INTERACTIONTYPE_SUBMIT MAL_IP_STAGE_SUBMIT body w →
  queue_of w = Some q → buf q = [] → closed q = false →
  ∃ w', Submit body w = Blocks w' ∧ status_of w' = _INITIATED.
Proof. intros Hi Hq Hb Hc. expose w. unfold Submit. run. reached. Qed.

Lemma Submit_takes_reply (w : World SubmitOperationX) body q m rest :
  initiation_succeeds MAL_INTERACTIONTYPE_SUBMIT MAL_IP_STAGE_SUBMIT body w →
  queue_of w = Some q → buf q = m :: rest →
  ∃ w', Submit body w = Returns (checked_reply MAL_IP_STAGE_SUBMIT_ACK m) w' ∧
    status_of w' = _FINAL ∧
    queue_of w' = Some (tail_of q) ∧
    Ctx (ictx w') = sent MAL_INTERACTIONTYPE_SUBMIT MAL_IP_STAGE_SUBMIT body w ∧
    handlers (ictx w') = handlers (ictx w) ∧
    txcounter (ictx w') = txcounter (ictx w).
Proof.
  intros Hi Hq Hb. expose w. unfold Submit. run.
  destruct (decide (InteractionStage_ m = MAL_IP_STAGE_SUBMIT_ACK)); run;
    [destruct (IsErrorMessage m)|]; reached.
Qed.

Lemma Submit_ended (w : World SubmitOperationX) body :
  initiation_succeeds MAL_INTERACTIONTYPE_SUBMIT MAL_IP_STAGE_SUBMIT body w →
  queue_ended w → ends_operation (Submit body w).
Proof. intros Hi He. expose w. unfold Submit. run. reached. Qed.

End Submit.

Section Request.
Context `{P : Package}.
Import RequestOperationX.

Lemma Request_refused (w : World RequestOperationX) body :
  status_of w ≠ _CREATED → Request body w = Returns (None, Some BadStatus) w.
Proof. intros Hst. expose w. unfold Request. by run. Qed.

Lemma Request_waits (w : World RequestOperationX) body q :
  initiation_succeeds MAL_INTERACTIONTYPE_REQUEST MAL_IP_STAGE_REQUEST body w →
  queue_of w = Some q → buf q = [] → closed q = false →
  ∃ w', Request body w = Blocks w' ∧ status_of w' = _INITIATED.
Proof. intros Hi Hq Hb Hc. expose w. unfold Request. run. reached. Qed.

Lemma Request_takes_reply (w : World RequestOperationX) body q m rest :
  initiation_succeeds MAL_INTERACTIONTYPE_REQUEST MAL_IP_STAGE_REQUEST body w →
  queue_of w = Some q → buf q = m :: rest →
  ∃ w', Request body w = Returns (checked_reply MAL_IP_STAGE_REQUEST_RESPONSE m) w' ∧
    status_of w' = _FINAL ∧
    queue_of w' = Some (tail_of q) ∧
    Ctx (ictx w') = sent MAL_INTERACTIONTYPE_REQUEST MAL_IP_STAGE_REQUEST body w ∧
    txcounter (ictx w') = txcounter (ictx w).
Proof.
  intros Hi Hq Hb. expose w. unfold Request. run.
  destruct (decide (InteractionStage_ m = MAL_IP_STAGE_REQUEST_RESPONSE)); run;
    [destruct (IsErrorMessage m)|]; reached.
Qed.

Lemma Request_ended (w : World RequestOperationX) body :
  initiation_succeeds MAL_INTERACTIONTYPE_REQUEST MAL_IP_STAGE_REQUEST body w →
  queue_ended w → ends_operation (Request body w).
Proof. intros Hi He. expose w. unfold Request. run. reached. Qed.

End Request.

Section Invoke.
Context `{P : Package}.
Import InvokeOperationX.

Lemma Invoke_refused (w : World InvokeOperationX) body :
  status_of w ≠ _CREATED → Invoke body w = Returns (None, Some BadStatus) w.
Proof. intros Hst. expose w. unfold Invoke. by run. Qed.

Lemma Invoke_waits (w : World InvokeOperationX) body q :
  initiation_succeeds MAL_INTERACTIONTYPE_INVOKE MAL_IP_STAGE_INVOKE body w →
  queue_of w = Some q → buf q = [] → closed q = false →
  ∃ w', Invoke body w = Blocks w' ∧ status_of w' = _INITIATED.
Proof. intros Hi Hq Hb Hc. expose w. unfold Invoke. run. reached. Qed.

Lemma Invoke_takes_reply (w : World InvokeOperationX) body q m rest :
  initiation_succeeds MAL_INTERACTIONTYPE_INVOKE MAL_IP_STAGE_INVOKE body w →
  queue_of w = Some q → buf q = m :: rest →
  ∃ w', Invoke body w = Returns (checked_reply MAL_IP_STAGE_INVOKE_ACK m) w' ∧
    status_of w' =
      (if decide (InteractionStage_ m = MAL_IP_STAGE_INVOKE_ACK)
       then if IsErrorMessage m then _FINAL else _ACKNOWLEDGED
       else _FINAL) ∧
    queue_of w' = Some (tail_of q) ∧
    Ctx (ictx w') = sent MAL_INTERACTIONTYPE_INVOKE MAL_IP_STAGE_INVOKE body w ∧
    txcounter (ictx w') = txcounter (ictx w).
Proof.
  intros Hi Hq Hb. expose w. unfold Invoke. run.
  destruct (decide (InteractionStage_ m = MAL_IP_STAGE_INVOKE_ACK)); run;
    [destruct (IsErrorMessage m)|]; run; reached.
Qed.

Lemma Invoke_ended (w : World InvokeOperationX) body :
  initiation_succeeds MAL_INTERACTIONTYPE_INVOKE MAL_IP_STAGE_INVOKE body w →
  queue_ended w → ends_operation (Invoke body w).
Proof. intros Hi He. expose w. unfold Invoke. run. reached. Qed.

End Invoke.

Section Progress.
Context `{P : Package}.
Import ProgressOperationX.

Lemma Progress_refused (w : World ProgressOperationX) body :
  status_of w ≠ _CREATED → Progress body w = Returns (None, Some BadStatus) w.
Proof. intros Hst. expose w. unfold Progress. by run. Qed.

Lemma Progress_waits (w : World ProgressOperationX) body q :
  initiation_succeeds MAL_INTERACTIONTYPE_PROGRESS MAL_IP_STAGE_PROGRESS body w →
  queue_of w = Some q → buf q = [] → closed q = false →
  ∃ w', Progress body w = Blocks w' ∧ status_of w' = _INITIATED.
Proof. intros Hi Hq Hb Hc. expose w. unfold Progress. run. reached. Qed.

Lemma Progress_takes_reply (w : World ProgressOperationX) body q m rest :
  initiation_succeeds MAL_INTERACTIONTYPE_PROGRESS MAL_IP_STAGE_PROGRESS body w →
  queue_of w = Some q → buf q = m :: rest →
  ∃ w', Progress body w = Returns (checked_reply MAL_IP_STAGE_PROGRESS_ACK m) w' ∧
    status_of w' =
      (if decide (InteractionStage_ m = MAL_IP_STAGE_PROGRESS_ACK)
       then if IsErrorMessage m then _FINAL else _ACKNOWLEDGED
       else _FINAL) ∧
    queue_of w' = Some (tail_of q) ∧
    Ctx (ictx w') = sent MAL_INTERACTIONTYPE_PROGRESS MAL_IP_STAGE_PROGRESS body w ∧
    txcounter (ictx w') = txcounter (ictx w).
Proof.
  intros Hi Hq Hb. expose w. unfold Progress. run.
  destruct (decide (InteractionStage_ m = MAL_IP_STAGE_PROGRESS_ACK)); run;
    [destruct (IsErrorMessage m)|]; run; reached.
Qed.

Lemma Progress_ended (w : World ProgressOperationX) body :
  initiation_succeeds MAL_INTERACTIONTYPE_PROGRESS MAL_IP_STAGE_PROGRESS body w →
  queue_ended w → ends_operation (Progress body w).
Proof. intros Hi He. expose w. unfold Progress. run. reached. Qed.

End Progress.

Section SubscriberRegister.
Context `{P : Package}.
Import SubscriberOperationX.

Lemma SubscriberRegister_refused (w : World SubscriberOperationX) body :
  status_of w ≠ _CREATED → Register body w = Returns (None, Some BadStatus) w.
Proof. intros Hst. expose w. unfold Register. by run. Qed.

Lemma SubscriberRegister_waits (w : World SubscriberOperationX) body q :
  initiation_succeeds MAL_INTERACTIONTYPE_PUBSUB MAL_IP_STAGE_PUBSUB_REGISTER body w →
  queue_of w = Some q → buf q = [] → closed q = false →
  ∃ w', Register body w = Blocks w' ∧ status_of w' = _REGISTER_INITIATED.
Proof. intros Hi Hq Hb Hc. expose w. unfold Register. run. reached. Qed.

Lemma SubscriberRegister_takes_reply (w : World SubscriberOperationX) body q m rest :
  initiation_succeeds MAL_INTERACTIONTYPE_PUBSUB MAL_IP_STAGE_PUBSUB_REGISTER body w →
  queue_of w = Some q → buf q = m :: rest →
  ∃ w', Register body w = Returns (checked_reply MAL_IP_STAGE_PUBSUB_REGISTER_ACK m) w' ∧
    status_of w' =
      (if decide (InteractionStage_ m = MAL_IP_STAGE_PUBSUB_REGISTER_ACK)
       then if IsErrorMessage m then _FINAL else _REGISTERED
       else _FINAL) ∧
    queue_of w' = Some (tail_of q) ∧
    Ctx (ictx w') = sent MAL_INTERACTIONTYPE_PUBSUB MAL_IP_STAGE_PUBSUB_REGISTER body w ∧
    txcounter (ictx w') = txcounter (ictx w).
Proof.
  intros Hi Hq Hb. expose w. unfold Register. run.
  destruct (decide (InteractionStage_ m = MAL_IP_STAGE_PUBSUB_REGISTER_ACK)); run;
    [destruct (IsErrorMessage m)|]; run; reached.
Qed.

Lemma SubscriberRegister_ended (w : World SubscriberOperationX) body :
  initiation_succeeds MAL_INTERACTIONTYPE_PUBSUB MAL_IP_STAGE_PUBSUB_REGISTER body w →
  queue_ended w → ends_operation (Register body w).
Proof. intros Hi He. expose w. unfold Register. run. reached. Qed.

End SubscriberRegister.

Section PublisherRegister.
Context `{P : Package}.
Import PublisherOperationX.

Lemma PublisherRegister_refused (w : World PublisherOperationX) body :
  status_of w ≠ _CREATED → Register body w = Returns (None, Some BadStatus) w.
Proof. intros Hst. expose w. unfold Register. by run. Qed.

Lemma PublisherRegister_waits (w : World PublisherOperationX) body q :
  initiation_succeeds MAL_INTERACTIONTYPE_PUBSUB MAL_IP_STAGE_PUBSUB_PUBLISH_REGISTER body w →
  queue_of w = Some q → buf q = [] → closed q = false →
  ∃ w', Register body w = Blocks w' ∧ status_of w' = _REGISTER_INITIATED.
Proof. intros Hi Hq Hb Hc. expose w. unfold Register. run. reached. Qed.

Lemma PublisherRegister_takes_reply (w : World PublisherOperationX) body q m rest :
  initiation_succeeds MAL_INTERACTIONTYPE_PUBSUB MAL_IP_STAGE_PUBSUB_PUBLISH_REGISTER body w →
  queue_of w = Some q → buf q = m :: rest →
  ∃ w', Register body w = Returns (checked_reply MAL_IP_STAGE_PUBSUB_PUBLISH_REGISTER_ACK m) w' ∧
    status_of w' =
      (if decide (InteractionStage_ m = MAL_IP_STAGE_PUBSUB_PUBLISH_REGISTER_ACK)
       then if IsErrorMessage m then _FINAL else _REGISTERED
       else _FINAL) ∧
    queue_of w' = Some (tail_of q) ∧
    Ctx (ictx w') = sent MAL_INTERACTIONTYPE_PUBSUB MAL_IP_STAGE_PUBSUB_PUBLISH_REGISTER body w ∧
    txcounter (ictx w') = txcounter (ictx w).
Proof.
  intros Hi Hq Hb. expose w. unfold Register. run.
  destruct (decide (InteractionStage_ m = MAL_IP_STAGE_PUBSUB_PUBLISH_REGISTER_ACK)); run;
    [destruct (IsErrorMessage m)|]; run; reached.
Qed.

Lemma PublisherRegister_ended (w : World PublisherOperationX) body :
  initiation_succeeds MAL_INTERACTIONTYPE_PUBSUB MAL_IP_STAGE_PUBSUB_PUBLISH_REGISTER body w →
  queue_ended w → ends_operation (Register body w).
Proof. intros Hi He. expose w. unfold Register. run. reached. Qed.

End PublisherRegister.

(** The two cases of [checked_reply], spelled out. *)
Lemma checked_reply_cases `{P : Package} (expected : InteractionStage) (m : Message) :
  (InteractionStage_ m = expected →
   checked_reply expected m = (Some m, if IsErrorMessage m then Some ErrorMessage else None)) ∧
  (InteractionStage_ m ≠ expected →
   checked_reply expected m = (None, Some BadStage)).
Proof. unfold checked_reply. split; intros; by decide_step. Qed.

Section InvokeGetResponse.
Context `{P : Package}.
Import InvokeOperationX.

Lemma Invoke_GetResponse_waits (w : World InvokeOperationX) q :
  status_of w = _ACKNOWLEDGED →
  queue_of w = Some q → buf q = [] → closed q = false →
  GetResponse w = Blocks w.
Proof. intros Hst Hq Hb Hc. expose w. unfold GetResponse. by run. Qed.

Lemma Invoke_GetResponse_takes_reply (w : World InvokeOperationX) q m rest :
  status_of w = _ACKNOWLEDGED →
  queue_of w = Some q → buf q = m :: rest →
  ∃ w', GetResponse w = Returns (checked_reply MAL_IP_STAGE_INVOKE_RESPONSE m) w' ∧
    status_of w' = _FINAL ∧
    queue_of w' = Some (tail_of q) ∧
    (InteractionStage_ m = MAL_IP_STAGE_INVOKE_RESPONSE →
     InvokeOperationX_response (op w') = Some m).
Proof.
  intros Hst Hq Hb. expose w. unfold GetResponse. run.
  destruct (decide (InteractionStage_ m = MAL_IP_STAGE_INVOKE_RESPONSE)); run;
    split_lookup; run; try destruct (IsErrorMessage m); reached.
Qed.

Lemma Invoke_GetResponse_cached (w : World InvokeOperationX) m :
  status_of w = _FINAL →
  InvokeOperationX_response (op w) = Some m →
  GetResponse w =
  Returns (Some m, if IsErrorMessage m then Some ErrorMessage else None) w.
Proof.
  intros Hst Hr. expose w. unfold GetResponse. run.
  by destruct (IsErrorMessage m).
Qed.

Lemma Invoke_GetResponse_refused (w : World InvokeOperationX) :
  status_of w ≠ _ACKNOWLEDGED →
  (status_of w = _FINAL → InvokeOperationX_response (op w) = None) →
  GetResponse w = Returns (None, Some BadStatus) w.
Proof.
  intros Hst Hr. destruct (decide (status_of w = _FINAL)) as [Hf|Hf].
  - specialize (Hr Hf). expose w. unfold GetResponse. by run.
  - clear Hr. expose w. unfold GetResponse. by run.
Qed.

Lemma Invoke_GetResponse_ended (w : World InvokeOperationX) :
  status_of w = _ACKNOWLEDGED →
  queue_ended w → ends_operation (GetResponse w).
Proof. intros Hst He. expose w. unfold GetResponse. run. split_lookup; run; reached. Qed.

(** C6: [GetResponse] of an InvokeOperation, status by status.  In
    ACKNOWLEDGED it waits for the next message and returns it, with the
    error exactly when the message is an error message, or "Bad return
    message" when its stage is not INVOKE_RESPONSE, and the operation is
    FINAL afterwards; in FINAL with a cached response it returns that
    response; in every other case it returns "Bad operation status" and the
    world, queue included, is unchanged. *)
Theorem Invoke_GetResponse_by_status (w : World InvokeOperationX) :
  (status_of w = _ACKNOWLEDGED →
   ∀ q, queue_of w = Some q →
     (buf q = [] → closed q = false → GetResponse w = Blocks w) ∧
     (∀ m rest, buf q = m :: rest →
        ∃ r w', GetResponse w = Returns r w' ∧
          (InteractionStage_ m = MAL_IP_STAGE_INVOKE_RESPONSE →
           r = (Some m, if IsErrorMessage m then Some ErrorMessage else None) ∧
           InvokeOperationX_response (op w') = Some m) ∧
          (InteractionStage_ m ≠ MAL_IP_STAGE_INVOKE_RESPONSE →
           r = (None, Some BadStage)) ∧
          status_of w' = _FINAL ∧
          queue_of w' = Some (mkChan rest (cap q) (closed q)))) ∧
  (status_of w = _FINAL →
   ∀ m, InvokeOperationX_response (op w) = Some m →
     GetResponse w =
     Returns (Some m, if IsErrorMessage m then Some ErrorMessage else None) w) ∧
  (status_of w ≠ _ACKNOWLEDGED →
   (status_of w = _FINAL → InvokeOperationX_response (op w) = None) →
   GetResponse w = Returns (None, Some BadStatus) w).
Proof.
  split; [|split].
  - intros Hst q Hq. split.
    + intros. by eapply Invoke_GetResponse_waits.
    + intros m rest Hb.
      destruct (Invoke_GetResponse_takes_reply w q m rest) as (w' & -> & ? & Hq' & ?);
        try done.
      destruct (checked_reply_cases MAL_IP_STAGE_INVOKE_RESPONSE m) as [Hok Hbad].
      do 2 eexists. split; [reflexivity|].
      unfold tail_of in Hq'. rewrite Hb in Hq'. cbn in Hq'. naive_solver.
  - intros. by apply Invoke_GetResponse_cached.
  - apply Invoke_GetResponse_refused.
Qed.

End InvokeGetResponse.

Section ProgressUpdates.
Context `{P : Package}.
Import ProgressOperationX.

Lemma GetUpdate_refused (w : World ProgressOperationX) :
  status_of w ≠ _ACKNOWLEDGED → status_of w ≠ _PROGRESSING →
  GetUpdate w = Returns (None, Some BadStatus) w.
Proof. intros H1 H2. expose w. unfold GetUpdate. by run. Qed.

Lemma GetUpdate_waits (w : World ProgressOperationX) q :
  status_of w = _ACKNOWLEDGED ∨ status_of w = _PROGRESSING →
  queue_of w = Some q → buf q = [] → closed q = false →
  GetUpdate w = Blocks w.
Proof. intros [Hst|Hst] Hq Hb Hc; expose w; unfold GetUpdate; by run. Qed.

Lemma GetUpdate_ended (w : World ProgressOperationX) :
  status_of w = _ACKNOWLEDGED ∨ status_of w = _PROGRESSING →
  queue_ended w → ends_operation (GetUpdate w).
Proof.
  intros [Hst|Hst] He; expose w; unfold GetUpdate; run; split_lookup; run; reached.
Qed.

(** An update: returned to the caller; the operation goes on in PROGRESSING
    unless the update is an error message, which finalizes it. *)
Lemma GetUpdate_update (w : World ProgressOperationX) q m rest :
  status_of w = _ACKNOWLEDGED ∨ status_of w = _PROGRESSING →
  queue_of w = Some q → buf q = m :: rest →
  InteractionStage_ m = MAL_IP_STAGE_PROGRESS_UPDATE →
  ∃ w', GetUpdate w =
        Returns (Some m, if IsErrorMessage m then Some ErrorMessage else None) w' ∧
    status_of w' = (if IsErrorMessage m then _FINAL else _PROGRESSING) ∧
    queue_of w' = Some (tail_of q) ∧
    ProgressOperationX_response (op w') = ProgressOperationX_response (op w).
Proof.
  intros [Hst|Hst] Hq Hb Hm; expose w; unfold GetUpdate; run;
    destruct (IsErrorMessage m); run; try split_lookup; run; reached.
Qed.

(** The response: cached, and reported to the caller of [GetUpdate] as the
    end of the updates. *)
Lemma GetUpdate_response (w : World ProgressOperationX) q m rest :
  status_of w = _ACKNOWLEDGED ∨ status_of w = _PROGRESSING →
  queue_of w = Some q → buf q = m :: rest →
  InteractionStage_ m = MAL_IP_STAGE_PROGRESS_RESPONSE →
  InteractionStage_ m ≠ MAL_IP_STAGE_PROGRESS_UPDATE →
  ∃ w', GetUpdate w = Returns (None, None) w' ∧
    status_of w' = _FINAL ∧
    queue_of w' = Some (tail_of q) ∧
    ProgressOperationX_response (op w') = Some m.
Proof.
  intros [Hst|Hst] Hq Hb Hm Hu; expose w; unfold GetUpdate; run;
    split_lookup; run; reached.
Qed.

Lemma GetUpdate_bad_stage (w : World ProgressOperationX) q m rest :
  status_of w = _ACKNOWLEDGED ∨ status_of w = _PROGRESSING →
  queue_of w = Some q → buf q = m :: rest →
  InteractionStage_ m ≠ MAL_IP_STAGE_PROGRESS_UPDATE →
  InteractionStage_ m ≠ MAL_IP_STAGE_PROGRESS_RESPONSE →
  ∃ w', GetUpdate w = Returns (None, Some BadStage) w' ∧
    status_of w' = _FINAL ∧
    queue_of w' = Some (tail_of q).
Proof.
  intros [Hst|Hst] Hq Hb Hu Hr; expose w; unfold GetUpdate; run;
    split_lookup; run; reached.
Qed.

Lemma Progress_GetResponse_cached (w : World ProgressOperationX) m :
  status_of w = _FINAL →
  ProgressOperationX_response (op w) = Some m →
  GetResponse w =
  Returns (Some m, if IsErrorMessage m then Some ErrorMessage else None) w.
Proof.
  intros Hst Hr. expose w. unfold GetResponse. run.
  by destruct (IsErrorMessage m).
Qed.

Lemma Progress_GetResponse_ended (w : World ProgressOperationX) :
  status_of w = _ACKNOWLEDGED ∨ status_of w = _PROGRESSING →
  queue_ended w → ends_operation (GetResponse w).
Proof.
  intros [Hst|Hst] He; expose w; unfold GetResponse; run; split_lookup; run; reached.
Qed.

(** X27: the stream of scenario 3, for any number of updates: the calls of
    [GetUpdate] hand out the updates in the order of their arrival, the
    next call reports the end, and [GetResponse] has the response. *)
Lemma GetUpdate_stream (updates : list Message) :
  ∀ (w : World ProgressOperationX) q resp rest,
    MAL_IP_STAGE_PROGRESS_UPDATE ≠ MAL_IP_STAGE_PROGRESS_RESPONSE →
    status_of w = _ACKNOWLEDGED ∨ status_of w = _PROGRESSING →
    queue_of w = Some q →
    buf q = updates ++ resp :: rest →
    Forall is_update updates →
    InteractionStage_ resp = MAL_IP_STAGE_PROGRESS_RESPONSE →
    ∃ w1 w2,
      GetUpdates (length updates) w =
      Returns (map (fun u => (Some u, None)) updates) w1 ∧
      GetUpdate w1 = Returns (None, None) w2 ∧
      GetResponse w2 =
      Returns (Some resp, if IsErrorMessage resp then Some ErrorMessage else None) w2 ∧
      queue_of w2 = Some (mkChan rest (cap q) (closed q)).
Proof.
  induction updates as [|u updates IH]; intros w q resp rest Hne Hst Hq Hb Hall Hresp.
  - cbn in Hb. exists w.
    destruct (GetUpdate_response w q resp rest) as (w2 & Hrun & Hf & Hq2 & Hc); try done.
    { congruence. }
    exists w2. split; [reflexivity|]. split; [exact Hrun|].
    split; [by apply Progress_GetResponse_cached|].
    rewrite Hq2. unfold tail_of. by rewrite Hb.
  - cbn in Hb. apply Forall_cons in Hall as [[Hu He] Hall].
    destruct (GetUpdate_update w q u (updates ++ resp :: rest)) as (w' & Hrun & Hst' & Hq' & _);
      try done.
    rewrite He in Hrun, Hst'.
    destruct (IH w' (tail_of q) resp rest) as (w1 & w2 & Hruns & Hend & Hresp' & Hq2);
      try done.
    { by right. }
    { unfold tail_of. cbn. by rewrite Hb. }
    exists w1, w2. split; [|done].
    cbn [length GetUpdates map]. unfold mbind at 1, M_bind at 1. rewrite Hrun.
    unfold mbind at 1, M_bind at 1. by rewrite Hruns.
Qed.

(** C5 (amended): in ACKNOWLEDGED or PROGRESSING, [GetUpdate] takes the next
    message of the queue.  A PROGRESS_UPDATE is returned: with no error and
    status PROGRESSING when it is not an error message, together with the
    "Error message" error and status FINAL when it is one.  A
    PROGRESS_RESPONSE makes it return nil and nil, caches the response and
    ends in FINAL, so that [GetResponse] then returns the cached response.
    Any other stage gives "Bad return message" and FINAL. *)
Theorem GetUpdate_lazy_sequence (w : World ProgressOperationX) q m rest :
  MAL_IP_STAGE_PROGRESS_UPDATE ≠ MAL_IP_STAGE_PROGRESS_RESPONSE →
  status_of w = _ACKNOWLEDGED ∨ status_of w = _PROGRESSING →
  queue_of w = Some q →
  buf q = m :: rest →
  ∃ r w', GetUpdate w = Returns r w' ∧
    queue_of w' = Some (mkChan rest (cap q) (closed q)) ∧
    (InteractionStage_ m = MAL_IP_STAGE_PROGRESS_UPDATE →
     IsErrorMessage m = false →
     r = (Some m, None) ∧ status_of w' = _PROGRESSING) ∧
    (InteractionStage_ m = MAL_IP_STAGE_PROGRESS_UPDATE →
     IsErrorMessage m = true →
     r = (Some m, Some ErrorMessage) ∧ status_of w' = _FINAL) ∧
    (InteractionStage_ m = MAL_IP_STAGE_PROGRESS_RESPONSE →
     r = (None, None) ∧ status_of w' = _FINAL ∧
     ProgressOperationX_response (op w') = Some m ∧
     GetResponse w' =
     Returns (Some m, if IsErrorMessage m then Some ErrorMessage else None) w') ∧
    (InteractionStage_ m ≠ MAL_IP_STAGE_PROGRESS_UPDATE →
     InteractionStage_ m ≠ MAL_IP_STAGE_PROGRESS_RESPONSE →
     r = (None, Some BadStage) ∧ status_of w' = _FINAL).
Proof.
  intros Hne Hst Hq Hb.
  assert (Ht : tail_of q = mkChan rest (cap q) (closed q)).
  { unfold tail_of. by rewrite Hb. }
  destruct (decide (InteractionStage_ m = MAL_IP_STAGE_PROGRESS_UPDATE)) as [Hu|Hu].
  - destruct (GetUpdate_update w q m rest) as (w' & -> & Hs' & Hq' & _); try done.
    do 2 eexists. split; [reflexivity|]. rewrite <- Ht.
    destruct (IsErrorMessage m); repeat split; try done; congruence.
  - destruct (decide (InteractionStage_ m = MAL_IP_STAGE_PROGRESS_RESPONSE)) as [Hr|Hr].
    + destruct (GetUpdate_response w q m rest) as (w' & -> & Hs' & Hq' & Hc'); try done.
      do 2 eexists. split; [reflexivity|]. rewrite <- Ht.
      repeat split; try done. by apply Progress_GetResponse_cached.
    + destruct (GetUpdate_bad_stage w q m rest) as (w' & -> & Hs' & Hq'); try done.
      do 2 eexists. split; [reflexivity|]. rewrite <- Ht.
      repeat split; done.
Qed.

End ProgressUpdates.

Section SubscriberWaits.
Context `{P : Package}.
Import SubscriberOperationX.

#[local] Arguments wait_deregister_ack : simpl never.

Lemma GetNotify_ended (w : World SubscriberOperationX) :
  status_of w = _REGISTERED ∨ status_of w = _REREGISTER_INITIATED ∨
    status_of w = _DEREGISTER_INITIATED →
  queue_ended w → ends_operation (GetNotify w).
Proof.
  intros [Hst|[Hst|Hst]] He; expose w; unfold GetNotify; run; split_lookup; run; reached.
Qed.

Lemma Deregister_enters_loop (w : World SubscriberOperationX) body :
  status_of w = _REGISTERED →
  send_succeeds MAL_INTERACTIONTYPE_PUBSUB MAL_IP_STAGE_PUBSUB_DEREGISTER body w →
  Deregister body w = wait_deregister_ack (S (pending w)) (deregistering body w).
Proof.
  intros Hst Hs. unfold deregistering, pending. expose w. unfold Deregister. run.
  reflexivity.
Qed.

(** One turn of the loop on a notify: the message is dropped. *)
Lemma wait_drops_notify (n : nat) (w : World SubscriberOperationX) l q m rest :
  ch_of w = Some l → chans w !! l = Some q → buf q = m :: rest →
  is_notify m →
  wait_deregister_ack (S n) w =
  wait_deregister_ack n (set_chans (<[l := mkChan rest (cap q) (closed q)]> (chans w)) w).
Proof.
  unfold is_notify. intros Hch Hq Hb Hm.
  expose w. unfold wait_deregister_ack at 1. run.
  reflexivity.
Qed.

(** The loop drops the notifies in front of the first other message [m],
    and answers with [m]. *)
Lemma wait_finds_reply (notifies : list Message) :
  ∀ (n : nat) (w : World SubscriberOperationX) l q m rest,
    ch_of w = Some l → chans w !! l = Some q →
    buf q = notifies ++ m :: rest →
    Forall is_notify notifies →
    ¬ is_notify m →
    (length notifies < n)%nat →
    ∃ w', wait_deregister_ack n w =
          Returns (checked_reply MAL_IP_STAGE_PUBSUB_DEREGISTER_ACK m) w' ∧
      status_of w' = _FINAL ∧
      ch_of w' = Some l ∧
      chans w' !! l = Some (mkChan rest (cap q) (closed q)) ∧
      Ctx (ictx w') = Ctx (ictx w).
Proof.
  induction notifies as [|x notifies IH]; intros n w l q m rest Hch Hq Hb Hall Hm Hn.
  - destruct n as [|n]; [cbn in Hn; lia|]. cbn in Hb. unfold is_notify in Hm.
    expose w. unfold wait_deregister_ack. run.
    destruct (decide (InteractionStage_ m = MAL_IP_STAGE_PUBSUB_DEREGISTER_ACK)); run;
      split_lookup; run; try destruct (IsErrorMessage m); reached.
  - destruct n as [|n]; [cbn in Hn; lia|]. cbn in Hb, Hn.
    apply Forall_cons in Hall as [Hx Hall].
    rewrite (wait_drops_notify n w l q x (notifies ++ m :: rest)) by done.
    destruct (IH n (set_chans (<[l := mkChan (notifies ++ m :: rest) (cap q) (closed q)]>
                                 (chans w)) w)
                 l (mkChan (notifies ++ m :: rest) (cap q) (closed q)) m rest)
      as (w' & -> & ? & ? & ? & ?); try done.
    + cbn. apply lookup_insert_eq.
    + lia.
    + by exists w'.
Qed.

(** With nothing but notifies buffered, the loop drops them all and then
    waits, or ends with the queue. *)
Lemma wait_drains (notifies : list Message) :
  ∀ (n : nat) (w : World SubscriberOperationX) l q,
    ch_of w = Some l → chans w !! l = Some q →
    buf q = notifies →
    Forall is_notify notifies →
    (length notifies < n)%nat →
    (closed q = false →
     wait_deregister_ack n w =
     Blocks (set_chans (<[l := mkChan [] (cap q) false]> (chans w)) w)) ∧
    (closed q = true → ends_operation (wait_deregister_ack n w)).
Proof.
  induction notifies as [|x notifies IH]; intros n w l q Hch Hq Hb Hall Hn.
  - destruct n as [|n]; [cbn in Hn; lia|].
    split; intros Hc.
    + assert (Hid : <[l := mkChan [] (cap q) false]> (chans w) = chans w).
      { apply insert_id. rewrite Hq. destruct q; cbn in *; by subst. }
      rewrite Hid. expose w. unfold wait_deregister_ack. by run.
    + expose w. unfold wait_deregister_ack. run. split_lookup; run; reached.
  - destruct n as [|n]; [cbn in Hn; lia|]. cbn in Hn.
    apply Forall_cons in Hall as [Hx Hall].
    rewrite (wait_drops_notify n w l q x notifies) by done.
    destruct (IH n (set_chans (<[l := mkChan notifies (cap q) (closed q)]> (chans w)) w)
                 l (mkChan notifies (cap q) (closed q))) as [Hopen Hclosed]; try done.
    + cbn. apply lookup_insert_eq.
    + lia.
    + split; intros Hc.
      * rewrite Hopen by done. cbn. by rewrite insert_insert_eq.
      * by apply Hclosed.
Qed.

Lemma pending_set_chans (w : World SubscriberOperationX) l q' :
  ch_of w = Some l →
  pending (set_chans (<[l := q']> (chans w)) w) = length (buf q').
Proof.
  unfold pending, queue_of, ch_of. cbn. intros ->. by rewrite lookup_insert_eq.
Qed.

(** The bound of the loop is immaterial above the number of buffered
    messages. *)
Lemma wait_deregister_ack_bound (n : nat) :
  ∀ (n' : nat) (w : World SubscriberOperationX),
    (pending w < n)%nat → (pending w < n')%nat →
    wait_deregister_ack n w = wait_deregister_ack n' w.
Proof.
  induction n as [|n IH]; intros n' w Hn Hn'; [lia|].
  destruct n' as [|n']; [lia|].
  destruct (ch_of w) as [l|] eqn:Hch.
  2: { expose w. unfold wait_deregister_ack. by run. }
  destruct (chans w !! l) as [q|] eqn:Hq.
  2: { expose w. unfold wait_deregister_ack. by run. }
  assert (Hp : pending w = length (buf q)).
  { unfold pending, queue_of. by rewrite Hch, Hq. }
  destruct (buf q) as [|m rest] eqn:Hb.
  { destruct (closed q) eqn:Hc; expose w; unfold wait_deregister_ack; by run. }
  destruct (decide (InteractionStage_ m = MAL_IP_STAGE_PUBSUB_NOTIFY)) as [Hm|Hm].
  - rewrite !(wait_drops_notify _ w l q m rest) by done.
    apply IH; rewrite pending_set_chans by done; cbn; cbn in Hp; lia.
  - expose w. unfold wait_deregister_ack. run.
    destruct (decide (InteractionStage_ m = MAL_IP_STAGE_PUBSUB_DEREGISTER_ACK)); run;
      split_lookup; by run.
Qed.

Lemma Subscriber_Deregister_ended (w : World SubscriberOperationX) body q :
  status_of w = _REGISTERED →
  send_succeeds MAL_INTERACTIONTYPE_PUBSUB MAL_IP_STAGE_PUBSUB_DEREGISTER body w →
  queue_of w = Some q → Forall is_notify (buf q) → closed q = true →
  ends_operation (Deregister body w).
Proof.
  intros Hst Hs Hq Hall Hc. rewrite Deregister_enters_loop by done.
  unfold queue_of in Hq. destruct (ch_of w) as [l|] eqn:Hch; [|done].
  assert (Hp : pending w = length (buf q)).
  { unfold pending, queue_of. by rewrite Hch, Hq. }
  by apply (wait_drains (buf q) (S (pending w)) (deregistering body w) l q); try lia.
Qed.

(** C7 (amended): [Deregister] in REGISTERED hands the PUBSUB_DEREGISTER
    message to the context, the message [request_of] spells out field by
    field, and then drops every PUBSUB_NOTIFY it finds in the queue, however many there are: while nothing else has arrived it
    waits, in DEREGISTER_INITIATED; the first message of another stage ends
    the call in FINAL.  A PUBSUB_DEREGISTER_ACK is returned, with no error
    when it is not an error message and with the "Error message" error when
    it is one; any other stage gives "Bad return message". *)
Theorem Deregister_drains_notifies (w : World SubscriberOperationX) body q notifies :
  status_of w = _REGISTERED →
  send_succeeds MAL_INTERACTIONTYPE_PUBSUB MAL_IP_STAGE_PUBSUB_DEREGISTER body w →
  queue_of w = Some q →
  Forall is_notify notifies →
  (buf q = notifies → closed q = false →
   ∃ w', Deregister body w = Blocks w' ∧
     status_of w' = _DEREGISTER_INITIATED ∧
     queue_of w' = Some (mkChan [] (cap q) false) ∧
     Ctx (ictx w') = sent MAL_INTERACTIONTYPE_PUBSUB MAL_IP_STAGE_PUBSUB_DEREGISTER body w) ∧
  (∀ m rest, buf q = notifies ++ m :: rest → ¬ is_notify m →
   ∃ r w', Deregister body w = Returns r w' ∧
     (InteractionStage_ m = MAL_IP_STAGE_PUBSUB_DEREGISTER_ACK →
      r = (Some m, if IsErrorMessage m then Some ErrorMessage else None)) ∧
     (InteractionStage_ m ≠ MAL_IP_STAGE_PUBSUB_DEREGISTER_ACK →
      r = (None, Some BadStage)) ∧
     status_of w' = _FINAL ∧
     queue_of w' = Some (mkChan rest (cap q) (closed q)) ∧
     Ctx (ictx w') = sent MAL_INTERACTIONTYPE_PUBSUB MAL_IP_STAGE_PUBSUB_DEREGISTER body w).
Proof.
  intros Hst Hs Hq Hall. rewrite Deregister_enters_loop by done.
  unfold queue_of in Hq. destruct (ch_of w) as [l|] eqn:Hch; [|done].
  assert (Hp : pending w = length (buf q)).
  { unfold pending, queue_of. by rewrite Hch, Hq. }
  split.
  - intros Hb Hc.
    destruct (wait_drains notifies (S (pending w)) (deregistering body w) l q)
      as [-> _]; try done.
    { rewrite Hp, Hb. lia. }
    eexists. split; [reflexivity|]. split; [by expose w|].
    split; [|reflexivity].
    unfold queue_of, ch_of in *. cbn in *. rewrite Hch. apply lookup_insert_eq.
  - intros m rest Hb Hm.
    destruct (wait_finds_reply notifies (S (pending w)) (deregistering body w) l q m rest)
      as (w' & -> & Hf & Hch' & Hq' & Hc'); try done.
    { rewrite Hp, Hb, length_app. lia. }
    destruct (checked_reply_cases MAL_IP_STAGE_PUBSUB_DEREGISTER_ACK m) as [Hok Hbad].
    do 2 eexists. split; [reflexivity|].
    repeat split; try done.
    + unfold queue_of. by rewrite Hch'.
Qed.

End SubscriberWaits.

Section PublisherDeregister.
Context `{P : Package}.
Import PublisherOperationX.

Lemma Publisher_Deregister_ended (w : World PublisherOperationX) body :
  status_of w = _REGISTERED →
  send_succeeds MAL_INTERACTIONTYPE_PUBSUB MAL_IP_STAGE_PUBSUB_PUBLISH_DEREGISTER body w →
  queue_ended w → ends_operation (Deregister body w).
Proof.
  intros Hst Hs He. expose w. unfold Deregister. run. split_lookup; run; reached.
Qed.

End PublisherDeregister.

Section Lifecycle.
Context `{P : Package}.

(** C1: [Submit] in CREATED (with the transaction id free and the transport
    accepting the message) hands the SUBMIT message to the context, the
    message [request_of] spells out field by field, and waits while the
    queue is empty, in INITIATED.  It takes exactly one message from the
    queue:
    a SUBMIT_ACK is returned, with the "Error message" error exactly when it
    is an error message; any other stage gives "Bad return message".  Either
    way the operation is FINAL, and from then on [Submit] returns "Bad
    operation status" and changes nothing, until [Reset] puts the operation
    back in CREATED. *)
Theorem Submit_one_reply (w : World SubmitOperationX) body q :
  initiation_succeeds MAL_INTERACTIONTYPE_SUBMIT MAL_IP_STAGE_SUBMIT body w →
  queue_of w = Some q →
  (buf q = [] → closed q = false →
   ∃ w', SubmitOperationX.Submit body w = Blocks w' ∧
     status_of w' = _INITIATED ∧
     Ctx (ictx w') = sent MAL_INTERACTIONTYPE_SUBMIT MAL_IP_STAGE_SUBMIT body w) ∧
  (∀ m rest, buf q = m :: rest →
   ∃ r w', SubmitOperationX.Submit body w = Returns r w' ∧
     Ctx (ictx w') = sent MAL_INTERACTIONTYPE_SUBMIT MAL_IP_STAGE_SUBMIT body w ∧
     (InteractionStage_ m = MAL_IP_STAGE_SUBMIT_ACK →
      r = (Some m, if IsErrorMessage m then Some ErrorMessage else None)) ∧
     (InteractionStage_ m ≠ MAL_IP_STAGE_SUBMIT_ACK →
      r = (None, Some BadStage)) ∧
     status_of w' = _FINAL ∧
     queue_of w' = Some (mkChan rest (cap q) (closed q)) ∧
     (∀ body', SubmitOperationX.Submit body' w' = Returns (None, Some BadStatus) w') ∧
     (∃ w'', Reset w' = Returns None w'' ∧ status_of w'' = _CREATED)).
Proof.
  intros Hi Hq. split.
  - intros Hb Hc. clear -Hi Hq Hb Hc. expose w. unfold SubmitOperationX.Submit. run.
    reached.
  - intros m rest Hb.
    destruct (Submit_takes_reply w body q m rest) as (w' & -> & Hf & Hq' & Hs & _);
      try done.
    destruct (checked_reply_cases MAL_IP_STAGE_SUBMIT_ACK m) as [Hok Hbad].
    unfold tail_of in Hq'. rewrite Hb in Hq'.
    do 2 eexists. split; [reflexivity|]. repeat split; try done.
    + intros body'. apply Submit_refused. by rewrite Hf.
    + eexists. split; [by apply Reset_run|]. reflexivity.
Qed.

(** After [Close] every method refuses to run: it returns "Bad operation
    status" and changes nothing ([Close] itself returns nil, [Close_closed]). *)
Lemma CLOSED_refuses_every_call :
  (∀ (w : World SendOperationX) body, status_of w = _CLOSED →
     SendOperationX.Send body w = Returns (Some BadStatus) w) ∧
  (∀ (w : World SubmitOperationX) body, status_of w = _CLOSED →
     SubmitOperationX.Submit body w = Returns (None, Some BadStatus) w) ∧
  (∀ (w : World RequestOperationX) body, status_of w = _CLOSED →
     RequestOperationX.Request body w = Returns (None, Some BadStatus) w) ∧
  (∀ (w : World InvokeOperationX) body, status_of w = _CLOSED →
     InvokeOperationX.Invoke body w = Returns (None, Some BadStatus) w ∧
     InvokeOperationX.GetResponse w = Returns (None, Some BadStatus) w) ∧
  (∀ (w : World ProgressOperationX) body, status_of w = _CLOSED →
     ProgressOperationX.Progress body w = Returns (None, Some BadStatus) w ∧
     ProgressOperationX.GetUpdate w = Returns (None, Some BadStatus) w ∧
     ProgressOperationX.GetResponse w = Returns (None, Some BadStatus) w) ∧
  (∀ (w : World SubscriberOperationX) body, status_of w = _CLOSED →
     SubscriberOperationX.Register body w = Returns (None, Some BadStatus) w ∧
     SubscriberOperationX.GetNotify w = Returns (None, Some BadStatus) w ∧
     SubscriberOperationX.Deregister body w = Returns (None, Some BadStatus) w) ∧
  (∀ (w : World PublisherOperationX) body, status_of w = _CLOSED →
     PublisherOperationX.Register body w = Returns (None, Some BadStatus) w ∧
     PublisherOperationX.Publish body w = Returns (Some BadStatus) w ∧
     PublisherOperationX.Deregister body w = Returns (None, Some BadStatus) w) ∧
  (∀ (O : Type) `{IsOperationLaws O} (w : World O), status_of w = _CLOSED →
     Reset w = Returns (Some BadStatus) w).
Proof.
  repeat split; intros; try (apply Reset_refused; congruence); expose w;
    unfold SendOperationX.Send, SubmitOperationX.Submit, RequestOperationX.Request,
      InvokeOperationX.Invoke, InvokeOperationX.GetResponse,
      ProgressOperationX.Progress, ProgressOperationX.GetUpdate,
      ProgressOperationX.GetResponse, SubscriberOperationX.Register,
      SubscriberOperationX.GetNotify, SubscriberOperationX.Deregister,
      PublisherOperationX.Register, PublisherOperationX.Publish,
      PublisherOperationX.Deregister; by run.
Qed.

(** What [Reset] leaves alone. *)
Lemma Reset_frame {O : Type} `{IsOperationLaws O} (w : World O) :
  status_of w = _FINAL →
  ∃ w', Reset w = Returns None w' ∧
    tid_of w' = wrap64 (txcounter (ictx w) + 1) ∧
    status_of w' = _CREATED ∧
    op w' = with_embedded
              (set_status _CREATED (set_tid (wrap64 (txcounter (ictx w) + 1))
                                      (embedded (op w)))) (op w) ∧
    urito (embedded (op w')) = urito (embedded (op w)) ∧
    area (embedded (op w')) = area (embedded (op w)) ∧
    areaVersion (embedded (op w')) = areaVersion (embedded (op w)) ∧
    service (embedded (op w')) = service (embedded (op w)) ∧
    operation (embedded (op w')) = operation (embedded (op w)) ∧
    ch_of w' = ch_of w ∧
    chans w' = chans w ∧
    queue_of w' = queue_of w ∧
    handlers (ictx w') = handlers (ictx w) ∧
    Ctx (ictx w') = Ctx (ictx w) ∧
    Uri (ictx w') = Uri (ictx w) ∧
    txcounter (ictx w') = wrap64 (txcounter (ictx w) + 1).
Proof.
  intros Hst. eexists. split; [by apply Reset_run|].
  unfold tid_of, status_of, ch_of, queue_of, ch_of. cbn.
  rewrite !embedded_with_embedded. by destruct (embedded (op w)).
Qed.

(** The id that [Reset] takes from the counter is new while the counter has
    not wrapped: it is above the id that the operation had and above every
    id of the table. *)
Lemma Reset_takes_a_new_id {O : Type} `{IsOperationLaws O} (w w' : World O) :
  status_of w = _FINAL → ids_issued (ictx w) → txcounter (ictx w) + 1 < 2 ^ 64 →
  Reset w = Returns None w' →
  tid_of w' = txcounter (ictx w) + 1 ∧
  txcounter (ictx w') = tid_of w' ∧
  (∀ k h, handlers (ictx w) !! k = Some h → k < tid_of w') ∧
  handlers (ictx w') !! tid_of w' = None ∧
  ids_issued (ictx w').
Proof.
  intros Hst [Hc Hall] Hnw Hr.
  destruct (Reset_frame w Hst) as (w1 & Hr1 & F). rewrite Hr1 in Hr. injection Hr as <-.
  destruct F as (Ht & _ & _ & _ & _ & _ & _ & _ & _ & _ & _ & Hh & _ & _ & Hcnt).
  rewrite wrap64_small in Ht, Hcnt by lia.
  assert (Hbelow : ∀ k h, handlers (ictx w) !! k = Some h → k < tid_of w1).
  { intros k h Hk. specialize (Hall k h Hk). cbn in Hall. lia. }
  repeat split.
  - exact Ht.
  - congruence.
  - exact Hbelow.
  - rewrite Hh. destruct (handlers (ictx w) !! tid_of w1) as [h|] eqn:Hl; [|done].
    specialize (Hbelow _ _ Hl). lia.
  - lia.
  - rewrite Hh, Hcnt. intros k h Hk. specialize (Hall k h Hk). cbn in *. lia.
Qed.

(** C10 (amended): [Reset] in FINAL gives the operation the next id of the
    context's counter, the counter plus one modulo 2^64, which the counter
    then holds, and status CREATED; the remote URI, the service coordinates,
    the channel pointer and every channel, queue contents and closed flag
    included, are what they were, and so are the table, the context and its
    URI.  While the counter has not reached 2^64-1 (and no id of the table
    or of the operation is above the counter) the id is new: it is above the
    id that the operation had and above every id of the table, and so it is
    not in the table.  A message left in the queue is therefore what the
    next initiating call, whichever the pattern, takes as its reply, once
    the transport has accepted its message. *)
Theorem Reset_keeps_queue :
  (∀ (O : Type) `{IsOperationLaws O} (w : World O),
     status_of w = _FINAL →
     ∃ w', Reset w = Returns None w' ∧
       tid_of w' = wrap64 (txcounter (ictx w) + 1) ∧
       txcounter (ictx w') = tid_of w' ∧
       status_of w' = _CREATED ∧
       op w' = with_embedded
                 (set_status _CREATED (set_tid (wrap64 (txcounter (ictx w) + 1))
                                         (embedded (op w)))) (op w) ∧
       urito (embedded (op w')) = urito (embedded (op w)) ∧
       area (embedded (op w')) = area (embedded (op w)) ∧
       areaVersion (embedded (op w')) = areaVersion (embedded (op w)) ∧
       service (embedded (op w')) = service (embedded (op w)) ∧
       operation (embedded (op w')) = operation (embedded (op w)) ∧
       ch_of w' = ch_of w ∧
       chans w' = chans w ∧
       queue_of w' = queue_of w ∧
       handlers (ictx w') = handlers (ictx w) ∧
       Ctx (ictx w') = Ctx (ictx w) ∧
       Uri (ictx w') = Uri (ictx w) ∧
       (ids_issued (ictx w) → tid_of w <= txcounter (ictx w) →
        txcounter (ictx w) + 1 < 2 ^ 64 →
        tid_of w' = txcounter (ictx w) + 1 ∧
        tid_of w < tid_of w' ∧
        (∀ k h, handlers (ictx w) !! k = Some h → k < tid_of w') ∧
        handlers (ictx w') !! tid_of w' = None ∧
        ids_issued (ictx w'))) ∧
  (∀ (w w' : World SubmitOperationX) body q m rest,
     status_of w = _FINAL → ids_issued (ictx w) → txcounter (ictx w) + 1 < 2 ^ 64 →
     queue_of w = Some q → buf q = m :: rest →
     Reset w = Returns None w' →
     send_succeeds MAL_INTERACTIONTYPE_SUBMIT MAL_IP_STAGE_SUBMIT body w' →
     ∃ w'', SubmitOperationX.Submit body w' =
            Returns (checked_reply MAL_IP_STAGE_SUBMIT_ACK m) w'' ∧
       queue_of w'' = Some (mkChan rest (cap q) (closed q))) ∧
  (∀ (w w' : World RequestOperationX) body q m rest,
     status_of w = _FINAL → ids_issued (ictx w) → txcounter (ictx w) + 1 < 2 ^ 64 →
     queue_of w = Some q → buf q = m :: rest →
     Reset w = Returns None w' →
     send_succeeds MAL_INTERACTIONTYPE_REQUEST MAL_IP_STAGE_REQUEST body w' →
     ∃ w'', RequestOperationX.Request body w' =
            Returns (checked_reply MAL_IP_STAGE_REQUEST_RESPONSE m) w'' ∧
       queue_of w'' = Some (mkChan rest (cap q) (closed q))) ∧
  (∀ (w w' : World InvokeOperationX) body q m rest,
     status_of w = _FINAL → ids_issued (ictx w) → txcounter (ictx w) + 1 < 2 ^ 64 →
     queue_of w = Some q → buf q = m :: rest →
     Reset w = Returns None w' →
     send_succeeds MAL_INTERACTIONTYPE_INVOKE MAL_IP_STAGE_INVOKE body w' →
     ∃ w'', InvokeOperationX.Invoke body w' =
            Returns (checked_reply MAL_IP_STAGE_INVOKE_ACK m) w'' ∧
       queue_of w'' = Some (mkChan rest (cap q) (closed q))) ∧
  (∀ (w w' : World ProgressOperationX) body q m rest,
     status_of w = _FINAL → ids_issued (ictx w) → txcounter (ictx w) + 1 < 2 ^ 64 →
     queue_of w = Some q → buf q = m :: rest →
     Reset w = Returns None w' →
     send_succeeds MAL_INTERACTIONTYPE_PROGRESS MAL_IP_STAGE_PROGRESS body w' →
     ∃ w'', ProgressOperationX.Progress body w' =
            Returns (checked_reply MAL_IP_STAGE_PROGRESS_ACK m) w'' ∧
       queue_of w'' = Some (mkChan rest (cap q) (closed q))) ∧
  (∀ (w w' : World SubscriberOperationX) body q m rest,
     status_of w = _FINAL → ids_issued (ictx w) → txcounter (ictx w) + 1 < 2 ^ 64 →
     queue_of w = Some q → buf q = m :: rest →
     Reset w = Returns None w' →
     send_succeeds MAL_INTERACTIONTYPE_PUBSUB MAL_IP_STAGE_PUBSUB_REGISTER body w' →
     ∃ w'', SubscriberOperationX.Register body w' =
            Returns (checked_reply MAL_IP_STAGE_PUBSUB_REGISTER_ACK m) w'' ∧
       queue_of w'' = Some (mkChan rest (cap q) (closed q))) ∧
  (∀ (w w' : World PublisherOperationX) body q m rest,
     status_of w = _FINAL → ids_issued (ictx w) → txcounter (ictx w) + 1 < 2 ^ 64 →
     queue_of w = Some q → buf q = m :: rest →
     Reset w = Returns None w' →
     send_succeeds MAL_INTERACTIONTYPE_PUBSUB MAL_IP_STAGE_PUBSUB_PUBLISH_REGISTER body w' →
     ∃ w'', PublisherOperationX.Register body w' =
            Returns (checked_reply MAL_IP_STAGE_PUBSUB_PUBLISH_REGISTER_ACK m) w'' ∧
       queue_of w'' = Some (mkChan rest (cap q) (closed q))).
Proof.
  assert (Hnext : ∀ (O : Type) `{IsOperationLaws O} (w w' : World O) q,
            status_of w = _FINAL → ids_issued (ictx w) → txcounter (ictx w) + 1 < 2 ^ 64 →
            queue_of w = Some q → Reset w = Returns None w' →
            status_of w' = _CREATED ∧ handlers (ictx w') !! tid_of w' = None ∧
            queue_of w' = Some q).
  { intros O ? ? w w' q Hst Hids Hnw Hq Hr.
    destruct (Reset_takes_a_new_id w w' Hst Hids Hnw Hr) as (_ & _ & _ & Hfree & _).
    destruct (Reset_frame w Hst) as (w1 & Hr1 & F). rewrite Hr1 in Hr.
    injection Hr as <-. destruct F as (_&?&_&_&_&_&_&_&_&_&Hq'&_).
    repeat split; try done. by rewrite Hq'. }
  assert (Htl : ∀ q m rest, buf q = m :: rest →
            tail_of q = mkChan rest (cap q) (closed q)).
  { intros q m rest Hb. unfold tail_of. by rewrite Hb. }
  split; [|repeat split].
  - intros O ? ? w Hst. destruct (Reset_frame w Hst) as (w' & Hr & F).
    exists w'. split; [done|].
    destruct F as (Ht&?&?&?&?&?&?&?&?&?&?&?&?&?&Hcnt).
    repeat match goal with |- _ ∧ _ => split; [first [done|congruence]|] end.
    intros Hids Hle Hnw.
    destruct (Reset_takes_a_new_id w w' Hst Hids Hnw Hr) as (Hn & _ & Hb & Hf & Hi).
    repeat match goal with |- _ ∧ _ => split; [first [done|lia]|] end. exact Hi.
  - intros w w' body q m rest Hst Hids Hnw Hq Hb Hr Hs.
    destruct (Hnext _ _ _ w w' q Hst Hids Hnw Hq Hr) as (Hst' & Hfree & Hq').
    destruct (Submit_takes_reply w' body q m rest (conj Hst' (conj Hfree Hs)) Hq' Hb)
      as (w'' & ? & _ & ? & _).
    exists w''. by rewrite <- (Htl q m rest Hb).
  - intros w w' body q m rest Hst Hids Hnw Hq Hb Hr Hs.
    destruct (Hnext _ _ _ w w' q Hst Hids Hnw Hq Hr) as (Hst' & Hfree & Hq').
    destruct (Request_takes_reply w' body q m rest (conj Hst' (conj Hfree Hs)) Hq' Hb)
      as (w'' & ? & _ & ? & _).
    exists w''. by rewrite <- (Htl q m rest Hb).
  - intros w w' body q m rest Hst Hids Hnw Hq Hb Hr Hs.
    destruct (Hnext _ _ _ w w' q Hst Hids Hnw Hq Hr) as (Hst' & Hfree & Hq').
    destruct (Invoke_takes_reply w' body q m rest (conj Hst' (conj Hfree Hs)) Hq' Hb)
      as (w'' & ? & _ & ? & _).
    exists w''. by rewrite <- (Htl q m rest Hb).
  - intros w w' body q m rest Hst Hids Hnw Hq Hb Hr Hs.
    destruct (Hnext _ _ _ w w' q Hst Hids Hnw Hq Hr) as (Hst' & Hfree & Hq').
    destruct (Progress_takes_reply w' body q m rest (conj Hst' (conj Hfree Hs)) Hq' Hb)
      as (w'' & ? & _ & ? & _).
    exists w''. by rewrite <- (Htl q m rest Hb).
  - intros w w' body q m rest Hst Hids Hnw Hq Hb Hr Hs.
    destruct (Hnext _ _ _ w w' q Hst Hids Hnw Hq Hr) as (Hst' & Hfree & Hq').
    destruct (SubscriberRegister_takes_reply w' body q m rest (conj Hst' (conj Hfree Hs)) Hq' Hb)
      as (w'' & ? & _ & ? & _).
    exists w''. by rewrite <- (Htl q m rest Hb).
  - intros w w' body q m rest Hst Hids Hnw Hq Hb Hr Hs.
    destruct (Hnext _ _ _ w w' q Hst Hids Hnw Hq Hr) as (Hst' & Hfree & Hq').
    destruct (PublisherRegister_takes_reply w' body q m rest (conj Hst' (conj Hfree Hs)) Hq' Hb)
      as (w'' & ? & _ & ? & _).
    exists w''. by rewrite <- (Htl q m rest Hb).
Qed.

End Lifecycle.

End OperationsFacts.


(** * Properties of handlers.go *)

Module HandlersFacts.
Import Handlers.
Import OperationsFacts.

Ltac api_unfold :=
  cbv [mbind M_bind mret M_ret gets modify register getHandler getHandler_for on_hctx
       call transaction_of set_handlers key_of TransactionX_of after_call
       RegisterSendHandler RegisterSubmitHandler RegisterRequestHandler
       RegisterInvokeHandler RegisterProgressHandler RegisterBrokerHandler].

Ltac run := repeat (api_unfold; cbn; try decide_step; try lookup_step).

(** The pairwise inequalities that a duplicate-free list of constants
    stands for. *)
Ltac distinct H :=
  cbv [interaction_types publisher_stages subscriber_stages app] in H;
  repeat (rewrite NoDup_cons in H; destruct H as [? H]);
  clear H;
  repeat match goal with
         | Hn : _ ∉ _ :: _ |- _ => rewrite not_elem_of_cons in Hn; destruct Hn
         | Hn : _ ∉ [] |- _ => clear Hn
         end.

(** Membership in a list of constants, as the alternatives it stands for. *)
Ltac members :=
  cbv [switch_cases interaction_types publisher_stages subscriber_stages] in *;
  rewrite ?not_elem_of_cons, ?elem_of_cons, ?elem_of_nil in *.

Section WithPackage.
Context `{P : Package}.

Lemma register_taken (h : HandlerContext) hdltype a v s o handler old :
  handlers h !! key a v s o = Some old →
  register hdltype a v s o handler h = Returns (Some DuplicateHandler) h.
Proof. intros Hk. unfold register. by run. Qed.

Lemma register_free (h : HandlerContext) hdltype a v s o handler :
  handlers h !! key a v s o = None →
  register hdltype a v s o handler h =
  Returns None
    (set_handlers (<[key a v s o := mkhandlerDesc hdltype a v s o handler]> (handlers h)) h).
Proof. intros Hk. unfold register. by run. Qed.

(** [register] keeps the table well-formed. *)
Lemma table_ok_new (ctx : Context) (uri : URI) :
  table_ok (NewHandlerContext_literal ctx uri).
Proof. intros k d Hk. cbn in Hk. by rewrite lookup_empty in Hk. Qed.

Lemma table_ok_register (h h' : HandlerContext) hdltype a v s o handler err :
  table_ok h → in_range a v s o →
  register hdltype a v s o handler h = Returns err h' →
  table_ok h'.
Proof.
  intros Hok Hr Hreg.
  destruct (handlers h !! key a v s o) as [old|] eqn:Hk.
  - rewrite (register_taken _ _ _ _ _ _ _ old) in Hreg by done. by injection Hreg as <- <-.
  - rewrite register_free in Hreg by done. injection Hreg as <- <-.
    intros k d. cbn. rewrite lookup_insert. case_decide as Hd.
    + intros [= <-]. by subst k.
    + apply Hok.
Qed.

(** Under an injective key, the descriptor found for a message records the
    coordinates of the message. *)
Lemma found_under_own_coordinates (h : HandlerContext) (msg : Message) d :
  key_injective → table_ok h →
  in_range (ServiceArea msg) (AreaVersion msg) (Service msg) (Operation msg) →
  handlers h !! key_of msg = Some d →
  area d = ServiceArea msg ∧ areaVersion d = AreaVersion msg ∧
  service d = Service msg ∧ operation d = Operation msg.
Proof.
  intros Hinj Hok Hm Hk. destruct (Hok _ _ Hk) as [Hkey Hd].
  by apply Hinj.
Qed.

Lemma OnMessage_calls (w : World) (msg : Message) ityp ht mk d :
  NoDup interaction_types →
  (ityp, ht, mk) ∈ switch_cases →
  InteractionType_ msg = ityp →
  handlers (hctx w) !! key_of msg = Some d →
  handlerType d = ht →
  OnMessage msg w =
  Returns (handler d msg (mk (TransactionX_of w msg)))
          (after_call w (handler d) msg (mk (TransactionX_of w msg))).
Proof.
  intros Hnd Hin Hty Hk Hht. distinct Hnd. members.
  destruct w as [[c u h] inv]. unfold key_of in *. cbn in *.
  destruct Hin as [Hc|[Hc|[Hc|[Hc|[Hc|[]]]]]]; simplify_eq;
    unfold OnMessage; run; reflexivity.
Qed.

Lemma OnMessage_pubsub (w : World) (msg : Message) d :
  NoDup interaction_types →
  NoDup (publisher_stages ++ subscriber_stages) →
  InteractionType_ msg = MAL_INTERACTIONTYPE_PUBSUB →
  handlers (hctx w) !! key_of msg = Some d →
  handlerType d = _BROKER_HANDLER →
  (InteractionStage_ msg ∈ publisher_stages →
   OnMessage msg w =
   Returns (handler d msg (PublisherTransactionX (TransactionX_of w msg)))
           (after_call w (handler d) msg (PublisherTransactionX (TransactionX_of w msg)))) ∧
  (InteractionStage_ msg ∈ subscriber_stages →
   OnMessage msg w =
   Returns (handler d msg (SubscriberTransactionX (TransactionX_of w msg)))
           (after_call w (handler d) msg (SubscriberTransactionX (TransactionX_of w msg)))) ∧
  (InteractionStage_ msg ∉ publisher_stages →
   InteractionStage_ msg ∉ subscriber_stages →
   OnMessage msg w = Returns (Some BadStage) w).
Proof.
  intros Hnd Hst Hty Hk Hht. distinct Hnd. distinct Hst.
  destruct w as [[c u h] inv]. unfold key_of in *. cbn in *.
  repeat split; intros; members; unfold OnMessage; run; reflexivity.
Qed.

Lemma OnMessage_no_handler (w : World) (msg : Message) ityp ht :
  NoDup interaction_types →
  (∃ mk, (ityp, ht, mk) ∈ switch_cases) ∨
    (ityp = MAL_INTERACTIONTYPE_PUBSUB ∧ ht = _BROKER_HANDLER) →
  InteractionType_ msg = ityp →
  (handlers (hctx w) !! key_of msg = None →
   OnMessage msg w = Returns (Some HandlerNotRegistered) w) ∧
  (∀ d, handlers (hctx w) !! key_of msg = Some d → handlerType d ≠ ht →
   OnMessage msg w = Returns (Some BadHandlerType) w).
Proof.
  intros Hnd Hin Hty. distinct Hnd.
  destruct w as [[c u h] inv]. unfold key_of in *. cbn in *.
  destruct Hin as [[mk Hin]|[-> ->]].
  - members.
    destruct Hin as [Hc|[Hc|[Hc|[Hc|[Hc|[]]]]]]; simplify_eq;
      (split; [intros Hk|intros d Hk Hd]); unfold OnMessage; by run.
  - split; [intros Hk|intros d Hk Hd]; unfold OnMessage; by run.
Qed.

Lemma OnMessage_other_type (w : World) (msg : Message) :
  InteractionType_ msg ∉ interaction_types →
  OnMessage msg w = Returns None w.
Proof.
  intros Hty. members. destruct w as [[c u h] inv].
  unfold OnMessage. by run.
Qed.

(** C2 (amended): for a message whose interaction type is one of the six
    of the [switch], [OnMessage] looks up the key of the message's four
    coordinates.  A descriptor found there with the handler type of the
    message's interaction type has its handler called, once, with the
    message and the transaction struct of the pattern; for PUBSUB the struct
    is a publisher transaction for the stages PUBLISH_REGISTER, PUBLISH and
    PUBLISH_DEREGISTER, a subscriber transaction for REGISTER and
    DEREGISTER, and any other stage gives "Bad interaction stage for PubSub"
    with no call.  With no descriptor under the key, or one of another
    handler type, an error is returned and nothing is called.  The
    descriptor found records the coordinates of the message.  A message of
    any other interaction type is dropped: nothing is called and no error is
    returned. *)
Theorem OnMessage_dispatch (w : World) (msg : Message) :
  NoDup interaction_types →
  NoDup (publisher_stages ++ subscriber_stages) →
  (∀ ityp ht mk d,
     (ityp, ht, mk) ∈ switch_cases →
     InteractionType_ msg = ityp →
     handlers (hctx w) !! key_of msg = Some d →
     handlerType d = ht →
     OnMessage msg w =
     Returns (handler d msg (mk (TransactionX_of w msg)))
             (after_call w (handler d) msg (mk (TransactionX_of w msg)))) ∧
  (∀ d,
     InteractionType_ msg = MAL_INTERACTIONTYPE_PUBSUB →
     handlers (hctx w) !! key_of msg = Some d →
     handlerType d = _BROKER_HANDLER →
     (InteractionStage_ msg ∈ publisher_stages →
      OnMessage msg w =
      Returns (handler d msg (PublisherTransactionX (TransactionX_of w msg)))
              (after_call w (handler d) msg (PublisherTransactionX (TransactionX_of w msg)))) ∧
     (InteractionStage_ msg ∈ subscriber_stages →
      OnMessage msg w =
      Returns (handler d msg (SubscriberTransactionX (TransactionX_of w msg)))
              (after_call w (handler d) msg (SubscriberTransactionX (TransactionX_of w msg)))) ∧
     (InteractionStage_ msg ∉ publisher_stages →
      InteractionStage_ msg ∉ subscriber_stages →
      OnMessage msg w = Returns (Some BadStage) w)) ∧
  (∀ ityp ht,
     (∃ mk, (ityp, ht, mk) ∈ switch_cases) ∨
       (ityp = MAL_INTERACTIONTYPE_PUBSUB ∧ ht = _BROKER_HANDLER) →
     InteractionType_ msg = ityp →
     (handlers (hctx w) !! key_of msg = None →
      OnMessage msg w = Returns (Some HandlerNotRegistered) w) ∧
     (∀ d, handlers (hctx w) !! key_of msg = Some d → handlerType d ≠ ht →
      OnMessage msg w = Returns (Some BadHandlerType) w)) ∧
  (key_injective → table_ok (hctx w) →
   in_range (ServiceArea msg) (AreaVersion msg) (Service msg) (Operation msg) →
   ∀ d, handlers (hctx w) !! key_of msg = Some d →
     area d = ServiceArea msg ∧ areaVersion d = AreaVersion msg ∧
     service d = Service msg ∧ operation d = Operation msg) ∧
  (InteractionType_ msg ∉ interaction_types →
   OnMessage msg w = Returns None w).
Proof.
  intros Hnd Hst. split; [|split; [|split; [|split]]].
  - intros ityp ht mk d. by apply OnMessage_calls.
  - intros d. by apply OnMessage_pubsub.
  - intros ityp ht. by apply OnMessage_no_handler.
  - intros Hinj Hok Hm d. by apply found_under_own_coordinates.
  - apply OnMessage_other_type.
Qed.

End WithPackage.

End HandlersFacts.

(** C8: a registration that finds its key taken changes nothing.
    [OperationContext.register] of a transaction id that is in the table
    returns "Handler already registered for this transaction" and the
    context as it was; [deregister] of an id that is not in the table
    returns "No handler registered for this transaction" and the context as
    it was; [HandlerContext.register] under a key that is in the table
    returns "MAL handler already registered" and the context as it was, the
    earlier descriptor still under the key. *)
Theorem duplicate_registration_changes_nothing `{P : Package} :
  (∀ (ictx : Operations.OperationContext) tid handler old,
     Operations.handlers ictx !! tid = Some old →
     Operations.register tid handler ictx =
     Returns (Some Operations.DuplicateTransaction) ictx) ∧
  (∀ (ictx : Operations.OperationContext) tid,
     Operations.handlers ictx !! tid = None →
     Operations.deregister tid ictx =
     Returns (Some Operations.UnknownTransaction) ictx) ∧
  (∀ (hctx : Handlers.HandlerContext) hdltype area areaVersion service operation handler old,
     Handlers.handlers hctx !! key area areaVersion service operation = Some old →
     ∃ hctx',
       Handlers.register hdltype area areaVersion service operation handler hctx =
       Returns (Some Handlers.DuplicateHandler) hctx' ∧
       hctx' = hctx ∧
       Handlers.handlers hctx' !! key area areaVersion service operation = Some old).
Proof.
  split; [|split].
  - intros ictx tid handler old Hk. unfold Operations.register. by OperationsFacts.run.
  - intros ictx tid Hk. unfold Operations.deregister. by OperationsFacts.run.
  - intros hctx ? ? ? ? ? ? old Hk. exists hctx.
    split; [by eapply HandlersFacts.register_taken|done].
Qed.


(** * The scenarios of the specification, run on the concrete package *)

Module Examples.
Import Operations Operations.OperationX Loopback OperationsFacts.

Example NewSubmitOperation_gives_submit_world :
  construct (NewSubmitOperation provider 1 1 1 1) world0 = Some (submit_world [] false).
Proof. vm_compute. reflexivity. Qed.

(** Scenario 1 from the router's side: the ack passes [onMessage], is
    queued, and is what [Submit] returns. *)
Example submit_happy_path :
  ∃ w1 w2,
    SubmitOperationX.onMessage submit_ack (submit_world [] false) = Returns tt w1 ∧
    w1 = submit_world [submit_ack] false ∧
    SubmitOperationX.Submit [x01] w1 = Returns (Some submit_ack, None) w2 ∧
    status_of w2 = _FINAL.
Proof. do 2 eexists. repeat split; vm_compute; reflexivity. Qed.

Lemma interaction_types_distinct : NoDup Handlers.interaction_types.
Proof.
  cbv [Handlers.interaction_types]. cbn.
  repeat (apply NoDup_cons; split; [rewrite ?not_elem_of_cons, elem_of_nil; intuition lia|]).
  apply NoDup_nil_2.
Qed.

Lemma pubsub_stages_distinct :
  NoDup (Handlers.publisher_stages ++ Handlers.subscriber_stages).
Proof.
  cbv [Handlers.publisher_stages Handlers.subscriber_stages app]. cbn.
  repeat (apply NoDup_cons; split; [rewrite ?not_elem_of_cons, elem_of_nil; intuition lia|]).
  apply NoDup_nil_2.
Qed.

(** Packing the coordinates into disjoint bit fields is injective on the
    values of [UShort] and [UOctet]. *)
Lemma pack_injective : Handlers.key_injective.
Proof.
  intros a v s o a' v' s' o' (?&?&?&?) (?&?&?&?). cbn. unfold pack. lia.
Qed.

Lemma submit_endpoint_ok : Handlers.table_ok (Handlers.hctx submit_endpoint).
Proof.
  intros k d. cbn. rewrite lookup_singleton.
  case_decide; [|done]. intros [= <-]. subst. cbn.
  unfold Handlers.in_range. repeat split; lia.
Qed.

(** Scenario 1, initiator side: the ack is returned and the operation is
    FINAL; a second [Submit] is refused. *)
Lemma Submit_one_reply_witness :
  initiation_succeeds MAL_INTERACTIONTYPE_SUBMIT MAL_IP_STAGE_SUBMIT [x01]
    (submit_world [submit_ack] false) ∧
  ∃ w', SubmitOperationX.Submit [x01] (submit_world [submit_ack] false) =
        Returns (Some submit_ack, None) w' ∧
    Ctx (ictx w') = [mkMessage consumer provider 2 1 1 1 1 1 1 false [x01]] ∧
    status_of w' = _FINAL ∧
    SubmitOperationX.Submit [x01] w' = Returns (None, Some BadStatus) w'.
Proof.
  assert (Hi : initiation_succeeds MAL_INTERACTIONTYPE_SUBMIT MAL_IP_STAGE_SUBMIT [x01]
                 (submit_world [submit_ack] false)).
  { repeat split. }
  split; [exact Hi|].
  destruct (Submit_one_reply (submit_world [submit_ack] false) [x01]
              (mkChan [submit_ack] 10 false) Hi eq_refl) as [_ H].
  destruct (H submit_ack [] eq_refl) as (r & w' & Hrun & Hsent & Hok & _ & Hst & _ & Hbad & _).
  exists w'. rewrite Hrun, (Hok eq_refl). repeat split; [exact Hsent|exact Hst|apply Hbad].
Defined.

(** Scenario 1, responder side: the submit handler registered for
    (1, 1, 1, 1) is called with a submit transaction. *)
Lemma OnMessage_dispatch_witness :
  NoDup Handlers.interaction_types ∧
  NoDup (Handlers.publisher_stages ++ Handlers.subscriber_stages) ∧
  Handlers.OnMessage submit_request submit_endpoint =
  Returns None
    (Handlers.after_call submit_endpoint accept submit_request
       (Handlers.SubmitTransactionX (Handlers.TransactionX_of submit_endpoint submit_request))) ∧
  Handlers.OnMessage unknown_request submit_endpoint = Returns None submit_endpoint.
Proof.
  split; [exact interaction_types_distinct|].
  split; [exact pubsub_stages_distinct|].
  split.
  - destruct (HandlersFacts.OnMessage_dispatch submit_endpoint submit_request
                interaction_types_distinct pubsub_stages_distinct) as (H & _).
    apply (H 2 Handlers._SUBMIT_HANDLER Handlers.SubmitTransactionX
             (Handlers.mkhandlerDesc Handlers._SUBMIT_HANDLER 1 1 1 1 accept)).
    + cbv [Handlers.switch_cases]. cbn. rewrite !elem_of_cons. right. left. reflexivity.
    + reflexivity.
    + reflexivity.
    + reflexivity.
  - destruct (HandlersFacts.OnMessage_dispatch submit_endpoint unknown_request
                interaction_types_distinct pubsub_stages_distinct) as (_ & _ & _ & _ & H).
    apply H. cbv [Handlers.interaction_types]. cbn.
    rewrite !not_elem_of_cons, elem_of_nil. intuition lia.
Defined.

(** A message of interaction type 7 reaches an endpoint with no handler at
    all: no handler of a matching type exists, and [OnMessage] returns nil,
    not an error. *)
Lemma OnMessage_drops_unknown_type :
  (InteractionType_ unknown_request ∉ Handlers.interaction_types) ∧
  (Handlers.handlers (Handlers.hctx empty_endpoint) !! (Handlers.key_of unknown_request)) = None ∧
  Handlers.OnMessage unknown_request empty_endpoint = Returns None empty_endpoint ∧
  ¬ (∃ e w', Handlers.OnMessage unknown_request empty_endpoint = Returns (Some e) w').
Proof.
  assert (He : Handlers.OnMessage unknown_request empty_endpoint = Returns None empty_endpoint)
    by reflexivity.
  split; [|split; [reflexivity|split; [exact He|]]].
  - cbv [Handlers.interaction_types]. cbn. rewrite !not_elem_of_cons, elem_of_nil. intuition lia.
  - intros (e & w' & H). rewrite He in H. discriminate.
Qed.

(** [Close] of a submit operation that was just created. *)
Lemma Close_in_CREATED_or_FINAL_returns_error_witness :
  status_of (submit_world [] false) = _CREATED ∧
  ∃ w', Close (submit_world [] false) = Returns (Some UnknownTransaction) w' ∧
    status_of w' = _CLOSED.
Proof.
  split; [reflexivity|].
  destruct (Close_in_CREATED_or_FINAL_returns_error (submit_world [] false) 1%positive
              (mkChan [] 10 false))
    as (w' & Hrun & Hst & _); try reflexivity.
  - left. reflexivity.
  - exists w'. split; [exact Hrun|exact Hst].
Defined.

(** Three ids from a new context. *)
Lemma TransactionId_counts_up_witness :
  0 <= txcounter new_context ∧
  txcounter new_context + Z.of_nat 3 < 2 ^ 64 ∧
  ∃ ictx', TransactionIds 3 new_context = Returns [1; 2; 3] ictx'.
Proof.
  split; [cbn; lia|]. split; [cbn; lia|].
  destruct (TransactionId_counts_up (P:=package)) as (_ & _ & H).
  destruct (H new_context 3%nat) as (ts & ictx' & Hrun & _ & _ & Hts).
  destruct Hts as [-> _]; [cbn; lia|cbn; lia|].
  exists ictx'. exact Hrun.
Defined.

(** The call made when the counter is 2^64 - 1 returns 0: not the counter
    plus one, and smaller than the id issued before it. *)
Lemma TransactionId_wraps :
  txcounter exhausted_context = 2 ^ 64 - 1 ∧
  (∃ ictx', TransactionId exhausted_context = Returns 0 ictx') ∧
  ¬ (∃ ictx', TransactionId exhausted_context =
              Returns (txcounter exhausted_context + 1) ictx') ∧
  ¬ (txcounter exhausted_context < 0).
Proof.
  split; [reflexivity|]. split; [eexists; reflexivity|]. split.
  - intros (ictx' & H). vm_compute in H. discriminate.
  - cbn. lia.
Qed.

(** Scenario 3: the first update of a progress stream. *)
Lemma GetUpdate_lazy_sequence_witness :
  MAL_IP_STAGE_PROGRESS_UPDATE ≠ MAL_IP_STAGE_PROGRESS_RESPONSE ∧
  status_of (progress_world [progress_update x10; progress_response]) = _ACKNOWLEDGED ∧
  ∃ w', ProgressOperationX.GetUpdate (progress_world [progress_update x10; progress_response]) =
        Returns (Some (progress_update x10), None) w' ∧
    status_of w' = _PROGRESSING ∧
    queue_of w' = Some (mkChan [progress_response] 10 false).
Proof.
  assert (Hne : MAL_IP_STAGE_PROGRESS_UPDATE ≠ MAL_IP_STAGE_PROGRESS_RESPONSE)
    by (cbn; lia).
  split; [exact Hne|]. split; [reflexivity|].
  destruct (GetUpdate_lazy_sequence (progress_world [progress_update x10; progress_response])
              (mkChan [progress_update x10; progress_response] 10 false)
              (progress_update x10) [progress_response] Hne (or_introl eq_refl) eq_refl eq_refl)
    as (r & w' & Hrun & Hq & Hok & _).
  destruct (Hok eq_refl eq_refl) as [-> Hst].
  exists w'. repeat split; [exact Hrun|exact Hst|exact Hq].
Defined.

(** An update that is an error message: it is returned with the error, and
    the operation is FINAL, not PROGRESSING. *)
Lemma GetUpdate_error_update_finalizes :
  status_of (progress_world [progress_update_error]) = _ACKNOWLEDGED ∧
  InteractionStage_ progress_update_error = MAL_IP_STAGE_PROGRESS_UPDATE ∧
  (∃ w', ProgressOperationX.GetUpdate (progress_world [progress_update_error]) =
         Returns (Some progress_update_error, Some ErrorMessage) w' ∧
     status_of w' = _FINAL) ∧
  ¬ (∃ r w', ProgressOperationX.GetUpdate (progress_world [progress_update_error]) =
             Returns r w' ∧ status_of w' = _PROGRESSING).
Proof.
  split; [reflexivity|]. split; [reflexivity|]. split.
  - eexists. split; reflexivity.
  - intros (r & w' & H & Hst). vm_compute in H. injection H as <- <-. discriminate.
Qed.

(** Scenario 3 in full: three updates, the end of the updates, and the
    response. *)
Example progress_stream :
  ∃ w', ProgressOperationX.GetUpdates 4
          (progress_world [progress_update x10; progress_update x11; progress_update x12;
                           progress_response]) =
        Returns [ (Some (progress_update x10), None); (Some (progress_update x11), None);
                  (Some (progress_update x12), None); (None, None) ] w' ∧
    ProgressOperationX.GetResponse w' = Returns (Some progress_response, None) w'.
Proof. eexists. split; vm_compute; reflexivity. Qed.

(** Scenario 2: the response of an invoke is an application error. *)
Lemma Invoke_GetResponse_by_status_witness :
  status_of (invoke_world [invoke_response_error]) = _ACKNOWLEDGED ∧
  ∃ w', InvokeOperationX.GetResponse (invoke_world [invoke_response_error]) =
        Returns (Some invoke_response_error, Some ErrorMessage) w' ∧
    status_of w' = _FINAL ∧
    InvokeOperationX.GetResponse w' =
    Returns (Some invoke_response_error, Some ErrorMessage) w'.
Proof.
  split; [reflexivity|].
  destruct (Invoke_GetResponse_by_status (invoke_world [invoke_response_error]))
    as (Hack & _ & _).
  destruct (Hack eq_refl (mkChan [invoke_response_error] 10 false) eq_refl) as [_ H].
  destruct (H invoke_response_error [] eq_refl) as (r & w' & Hrun & Hok & _ & Hst & _).
  destruct (Hok eq_refl) as [-> Hc].
  exists w'. repeat split; [exact Hrun|exact Hst|].
  destruct (Invoke_GetResponse_by_status w') as (_ & Hfin & _).
  apply (Hfin Hst invoke_response_error Hc).
Defined.

(** Scenario 4: two stale notifies in front of the deregister ack. *)
Lemma Deregister_drains_notifies_witness :
  status_of (subscriber_world [notify x01; notify x02; deregister_ack]) = _REGISTERED ∧
  Forall SubscriberOperationX.is_notify [notify x01; notify x02] ∧
  ∃ w', SubscriberOperationX.Deregister []
          (subscriber_world [notify x01; notify x02; deregister_ack]) =
        Returns (Some deregister_ack, None) w' ∧
    Ctx (ictx w') = [mkMessage consumer provider 6 7 1 1 1 1 1 false []] ∧
    status_of w' = _FINAL ∧
    queue_of w' = Some (mkChan [] 10 false).
Proof.
  assert (Hn : Forall SubscriberOperationX.is_notify [notify x01; notify x02]).
  { repeat constructor. }
  split; [reflexivity|]. split; [exact Hn|].
  destruct (Deregister_drains_notifies
              (subscriber_world [notify x01; notify x02; deregister_ack]) []
              (mkChan [notify x01; notify x02; deregister_ack] 10 false)
              [notify x01; notify x02] eq_refl eq_refl eq_refl Hn) as [_ H].
  destruct (H deregister_ack [] eq_refl) as (r & w' & Hrun & Hok & _ & Hst & Hq & Hsent).
  { unfold SubscriberOperationX.is_notify. cbn. lia. }
  rewrite (Hok eq_refl) in Hrun.
  exists w'. repeat split; [exact Hrun|exact Hsent|exact Hst|exact Hq].
Defined.

(** The deregister ack is an error message: [Deregister] returns it with
    the "Error message" error, not without error. *)
Lemma Deregister_returns_error_ack_with_error :
  status_of (subscriber_world [notify x01; deregister_ack_error]) = _REGISTERED ∧
  InteractionStage_ deregister_ack_error = MAL_IP_STAGE_PUBSUB_DEREGISTER_ACK ∧
  (∃ w', SubscriberOperationX.Deregister []
           (subscriber_world [notify x01; deregister_ack_error]) =
         Returns (Some deregister_ack_error, Some ErrorMessage) w') ∧
  ¬ (∃ m w', SubscriberOperationX.Deregister []
               (subscriber_world [notify x01; deregister_ack_error]) =
             Returns (m, None) w').
Proof.
  split; [reflexivity|]. split; [reflexivity|]. split.
  - eexists. reflexivity.
  - intros (m & w' & H). vm_compute in H. discriminate.
Qed.

(** An id that is in the table cannot be registered again. *)
Lemma duplicate_registration_changes_nothing_witness :
  handlers (ictx (invoke_world [])) !! 1 = Some 1%positive ∧
  register 1 2%positive (ictx (invoke_world [])) =
  Returns (Some DuplicateTransaction) (ictx (invoke_world [])) ∧
  Handlers.register Handlers._REQUEST_HANDLER 1 1 1 1 accept (Handlers.hctx submit_endpoint) =
  Returns (Some Handlers.DuplicateHandler) (Handlers.hctx submit_endpoint).
Proof.
  destruct (duplicate_registration_changes_nothing (P:=package)) as (Hreg & _ & Hh).
  split; [reflexivity|]. split.
  - apply (Hreg _ 1 2%positive 1%positive). reflexivity.
  - destruct (Hh (Handlers.hctx submit_endpoint) Handlers._REQUEST_HANDLER 1 1 1 1 accept
                (Handlers.mkhandlerDesc Handlers._SUBMIT_HANDLER 1 1 1 1 accept) eq_refl)
      as (h' & Hrun & -> & _).
    exact Hrun.
Defined.

(** A reply that came after the submit had ended is what the submit made
    after [Reset] returns. *)
Lemma Reset_keeps_queue_witness :
  status_of finished_submit_world = _FINAL ∧
  ids_issued (ictx finished_submit_world) ∧
  tid_of finished_submit_world = 1 ∧
  txcounter (ictx finished_submit_world) = 1 ∧
  ∃ w' w'', Reset finished_submit_world = Returns None w' ∧
    tid_of w' = 2 ∧
    txcounter (ictx w') = 2 ∧
    handlers (ictx w') !! 2 = None ∧
    queue_of w' = Some (mkChan [submit_ack] 10 false) ∧
    SubmitOperationX.Submit [x01] w' = Returns (Some submit_ack, None) w'' ∧
    queue_of w'' = Some (mkChan [] 10 false).
Proof.
  assert (Hids : ids_issued (ictx finished_submit_world)).
  { split; [cbn; lia|]. apply map_Forall_empty. }
  assert (Hle : tid_of finished_submit_world <= txcounter (ictx finished_submit_world)).
  { cbn. lia. }
  assert (Hnw : txcounter (ictx finished_submit_world) + 1 < 2 ^ 64).
  { cbn. lia. }
  split; [reflexivity|]. split; [exact Hids|]. split; [reflexivity|]. split; [reflexivity|].
  destruct (Reset_keeps_queue (P:=package)) as (Hframe & Hsubmit & _).
  destruct (Hframe SubmitOperationX SubmitOperationX_IsOperation SubmitOperationX_laws
              finished_submit_world eq_refl)
    as (w' & Hrun & _ & Hcnt & _ & _ & _ & _ & _ & _ & _ & _ & _ & Hq & _ & _ & _ & Hnew).
  destruct (Hnew Hids Hle Hnw) as (Htid & _ & _ & Hfree & _).
  destruct (Hsubmit finished_submit_world w' [x01] (mkChan [submit_ack] 10 false)
              submit_ack [] eq_refl Hids Hnw eq_refl eq_refl Hrun eq_refl)
    as (w'' & Hrun' & Hq').
  exists w', w''. rewrite Htid in Hfree, Hcnt.
  repeat split;
    [exact Hrun|exact Htid|exact Hcnt|exact Hfree|rewrite Hq; reflexivity|exact Hrun'|exact Hq'].
Defined.

(** With the counter at 2^64-1, [Reset] gives the operation the id 0,
    which is in the table, held by an operation that waits for its reply.  The id is not a fresh one, and the [Submit]
    that follows returns "Handler already registered for this transaction"
    and leaves the buffered message where it is. *)
Lemma Reset_reissues_an_id_in_use :
  status_of wrapped_submit_world = _FINAL ∧
  txcounter (ictx wrapped_submit_world) = 2 ^ 64 - 1 ∧
  (∃ w' w'', Reset wrapped_submit_world = Returns None w' ∧
     tid_of w' = 0 ∧
     handlers (ictx w') !! tid_of w' = Some 2%positive ∧
     SubmitOperationX.Submit [x01] w' = Returns (None, Some DuplicateTransaction) w'' ∧
     queue_of w'' = Some (mkChan [submit_ack] 10 false)) ∧
  ¬ (∃ w', Reset wrapped_submit_world = Returns None w' ∧
       handlers (ictx w') !! tid_of w' = None).
Proof.
  split; [reflexivity|]. split; [reflexivity|]. split.
  - do 2 eexists. split; [reflexivity|]. repeat split; reflexivity.
  - intros (w' & H & Hfree). vm_compute in H. injection H as <-.
    vm_compute in Hfree. discriminate.
Qed.

End Examples.

(** ** Every method of every operation *)

Module LifecycleFacts.
Import Operations OperationX OperationsFacts.

#[local] Arguments Nat.ltb : simpl never.
#[local] Arguments SubscriberOperationX.wait_deregister_ack : simpl never.

(** Destructure the operations in the context, and a world of any pattern,
    down to the fields of [OperationX]. *)
Ltac open_operations :=
  repeat match goal with
         | o : OperationOf _ |- _ => cbn in o
         | o : SendOperationX |- _ => destruct o
         | o : SubmitOperationX |- _ => destruct o
         | o : RequestOperationX |- _ => destruct o
         | o : InvokeOperationX |- _ => destruct o
         | o : ProgressOperationX |- _ => destruct o
         | o : SubscriberOperationX |- _ => destruct o
         | o : PublisherOperationX |- _ => destruct o
         | x : OperationX |- _ => destruct x
         end.

Ltac open_world w := destruct w as [[? ? ? ?] ? ? ?]; open_operations.

Ltac unfold_calls :=
  cbv [perform returning OperationHandler_onMessage OperationHandler_onClose
       SendOperationX.Send SendOperationX.onMessage SendOperationX.onClose
       SubmitOperationX.Submit SubmitOperationX.onMessage SubmitOperationX.onClose
       RequestOperationX.Request RequestOperationX.onMessage RequestOperationX.onClose
       InvokeOperationX.Invoke InvokeOperationX.GetResponse
       InvokeOperationX.onMessage InvokeOperationX.onClose
       ProgressOperationX.Progress ProgressOperationX.GetUpdate ProgressOperationX.GetResponse
       ProgressOperationX.onMessage ProgressOperationX.onClose
       SubscriberOperationX.Register SubscriberOperationX.GetNotify
       SubscriberOperationX.Deregister
       SubscriberOperationX.onMessage SubscriberOperationX.onClose
       PublisherOperationX.Register PublisherOperationX.Publish PublisherOperationX.Deregister
       PublisherOperationX.onMessage PublisherOperationX.onClose
       GetTid Close Reset onMessage_of verify chan_send OperationOf_IsOperation].

(** Follow both sides of the next test whose outcome the hypotheses do not
    settle. *)
Ltac split_step :=
  match goal with
  | |- context [@decide ?Q ?I] => destruct (@decide Q I)
  | |- context [@bool_decide ?Q ?I] =>
      let Hb := fresh "Hbd" in destruct (@bool_decide Q I) eqn:Hb
  | |- context [match @lookup ?K ?A ?M ?I ?k ?m with Some _ => _ | None => _ end] =>
      let Hl := fresh "Hl" in destruct (@lookup K A M I k m) eqn:Hl
  | |- context [Context_Send ?m ?c] =>
      let E := fresh "E" in destruct (Context_Send m c) as [[?|] ?] eqn:E
  | |- context [match ?c with Some _ => _ | None => _ end] => is_var c; destruct c
  | |- context [match buf ?q with [] => _ | _ :: _ => _ end] =>
      let Hb := fresh "Hb" in destruct (buf q) eqn:Hb
  | |- context [if closed ?q then _ else _] =>
      let Hc := fresh "Hc" in destruct (closed q) eqn:Hc
  | |- context [if IsErrorMessage ?m then _ else _] => destruct (IsErrorMessage m)
  | |- context [if (?a <? ?b)%nat then _ else _] =>
      let Hlt := fresh "Hlt" in destruct (a <? b)%nat eqn:Hlt
  end.

Ltac explore := repeat (unfold_calls; run; try split_step).

Section WithPackage.
Context `{P : Package}.
Import SubscriberOperationX.

(** The loop of [Deregister], whatever the queue holds: it panics only
    when the channel is missing or the bound is used up; otherwise it has
    taken messages from the head of the queue and then waits, or finalizes
    and returns. *)
Lemma wait_deregister_ack_outcome (n : nat) :
  ∀ w : World SubscriberOperationX,
    (wait_deregister_ack n w = Panics ∧ (queue_of w = None ∨ (n <= pending w)%nat)) ∨
    ∃ w1, drained w w1 ∧
      (wait_deregister_ack n w = Blocks w1 ∨
       ∃ r, wait_deregister_ack n w = (finalize;; mret r) w1).
Proof.
  induction n as [|n IH]; intros w.
  { left. split; [reflexivity|right; lia]. }
  destruct (ch_of w) as [l|] eqn:Hch.
  2: { right. exists w. split; [by left|]. left.
       expose w. unfold wait_deregister_ack. by run. }
  destruct (chans w !! l) as [q|] eqn:Hq.
  2: { left. split; [|left; unfold queue_of; by rewrite Hch].
       expose w. unfold wait_deregister_ack. by run. }
  destruct (buf q) as [|m rest] eqn:Hb.
  { right. exists w. split; [by left|].
    destruct (closed q) eqn:Hc; [right; exists (None, Some OperationEnded)|left];
      expose w; unfold wait_deregister_ack; by run. }
  assert (Hp : pending w = S (length rest)).
  { unfold pending, queue_of. by rewrite Hch, Hq, Hb. }
  set (w2 := set_chans (<[l := mkChan rest (cap q) (closed q)]> (chans w)) w).
  destruct (decide (InteractionStage_ m = MAL_IP_STAGE_PUBSUB_NOTIFY)) as [Hm|Hm].
  - rewrite (wait_drops_notify n w l q m rest) by done. fold w2.
    destruct (IH w2) as [[-> [Hnone|Hle]]|(w1 & Hd & Hout)].
    + exfalso. unfold w2, queue_of, ch_of in *. cbn in *.
      rewrite Hch, lookup_insert_eq in Hnone. done.
    + left. split; [done|]. right. unfold w2 in Hle.
      rewrite pending_set_chans in Hle by done. cbn in Hle. lia.
    + right. exists w1. split; [|done].
      destruct Hd as [->|(l' & q' & rest' & Hch' & Hq' & ->)].
      * right. by exists l, q, rest.
      * right. exists l, q, rest'. split; [done|]. split; [done|].
        unfold w2 in *. cbn in *. unfold ch_of in *. cbn in *. simplify_eq.
        rewrite lookup_insert_eq in Hq'. simplify_eq. cbn.
        unfold set_chans. cbn. by rewrite insert_insert_eq.
  - right. exists w2. split; [right; by exists l, q, rest|]. right.
    unfold w2. expose w. unfold wait_deregister_ack. run.
    destruct (decide (InteractionStage_ m = MAL_IP_STAGE_PUBSUB_DEREGISTER_ACK)); run.
    + destruct (IsErrorMessage m); eexists; reflexivity.
    + eexists; reflexivity.
Qed.

(** The next id is above every id in the table. *)
Lemma ids_issued_next c hs cx u :
  ids_issued (mkOperationContext cx u hs c) →
  ids_issued (mkOperationContext cx u hs (c + 1)) ∧ hs !! (c + 1) = None.
Proof.
  intros [? Hall]. split; [split; cbn in *; [lia|]|].
  - eapply map_Forall_impl; [exact Hall|]. cbn. intros. lia.
  - destruct (hs !! (c + 1)) eqn:E; [|done]. apply Hall in E. cbn in E. lia.
Qed.

End WithPackage.

(** Explore a call, with the loop of [Deregister] replaced by its outcome. *)
Ltac explore_call :=
  explore;
  try match goal with
      | |- context [SubscriberOperationX.wait_deregister_ack ?n ?w] =>
          destruct (wait_deregister_ack_outcome n w)
            as [[-> [?|?]]|(? & [->|(? & ? & ? & ? & ? & ->)] & [->|[? ->]])];
          unfold SubscriberOperationX.pending, queue_of, ch_of in *; cbn in *; explore
      end.





Ltac untouched_leaf :=
  unfold untouched, status_of, tid_of, ch_of in *; cbn in *;
  repeat match goal with |- _ ∧ _ => split end; try done;
  intros; rewrite ?lookup_delete_ne, ?lookup_insert_ne by congruence; done.

Section WithPackage.
Context `{P : Package}.


(** X3: the statuses between calls.  Started in a status in which calls
    leave an operation of its pattern (CREATED, FINAL, CLOSED; ACKNOWLEDGED
    for invoke and progress; PROGRESSING for progress; REGISTERED for the
    two pubsub operations), a method returns in such a status again; while
    it waits the status may also be INITIATED, REGISTER_INITIATED or
    DEREGISTER_INITIATED.  No method ever sets REREGISTER_INITIATED. *)
Theorem calls_rest_in_stable_statuses (p : Pattern) (c : Call p) (w : World (OperationOf p)) :
  resting p (status_of w) = true →
  match perform c w with
  | Returns _ w' => resting p (status_of w') = true
  | Blocks w' => resting p (status_of w') || waiting p (status_of w') = true
  | Panics => True
  end.
Proof.
  revert w. destruct c; try destruct p; intros w Hr; open_world w.
  all: unfold status_of in *; cbn in Hr.
  all: explore_call; try done; rewrite Hr; done.
Qed.

(** X4: a method touches nothing but its own.  Whatever the state, a call
    changes no table entry other than the one of the operation's own
    transaction id and no channel other than the operation's own; it keeps
    the endpoint's URI; only a call that emits changes the context, and only
    [Reset] changes the transaction id and the counter. *)
Theorem calls_touch_only_their_own (p : Pattern) (c : Call p) (w : World (OperationOf p)) :
  match perform c w with
  | Returns _ w' | Blocks w' => untouched c w w'
  | Panics => True
  end.
Proof.
  revert w. destruct c; try destruct p; intros w; open_world w.
  all: explore_call; untouched_leaf.
Qed.

(** X2: a new operation is consistent.  On a context whose table holds
    only issued ids and whose counter is below its last value, each of the
    seven constructors returns an operation in CREATED whose transaction
    id is the counter plus one and is not in the table; the table is
    unchanged; except for a send operation, which has no channel, the
    operation gets an empty open queue of capacity 10 at a location that
    was not in use, and no other channel changes. *)
Theorem NewOperation_is_consistent (p : Pattern) (urito : URI) (area : UShort)
    (areaVersion : UOctet) (service operation : UShort) (e : World unit) :
  ids_issued (ictx e) → txcounter (ictx e) + 1 < 2 ^ 64 →
  ∃ o e', NewOperation p urito area areaVersion service operation e = Returns o e' ∧
    let w := set_op o e' in
    consistent p w ∧
    status_of w = _CREATED ∧
    tid_of w = txcounter (ictx e) + 1 ∧
    handlers (ictx w) !! tid_of w = None ∧
    handlers (ictx w) = handlers (ictx e) ∧
    match ch_of w with
    | Some l => p ≠ SendPattern ∧ chans e !! l = None ∧
                chans w = <[l := mkChan [] 10 false]> (chans e)
    | None => p = SendPattern ∧ chans w = chans e
    end.
Proof.
  intros Hids Hn. destruct e as [[cx u hs c] chs a []]. cbn in *.
  pose proof (ids_issued_next _ _ _ _ Hids) as [Hnext Hfree].
  assert (Hw : wrap64 (c + 1) = c + 1).
  { apply wrap64_small. destruct Hids. cbn in *. lia. }
  assert (Hfresh : chs !! fresh (dom chs) = None).
  { apply not_elem_of_dom, is_fresh. }
  destruct p; do 2 eexists; (split; [reflexivity|]); cbn;
    unfold consistent, queue_ok, status_of, tid_of, ch_of; cbn; rewrite Hw;
    repeat match goal with |- _ ∧ _ => split end; try done; try lia; eauto;
    rewrite lookup_insert_eq; eauto.
Qed.

(** X5: an operation that has ended does nothing any more.  In FINAL and
    in CLOSED, every method other than [Close], [Reset] and [onMessage]
    returns without changing anything: no message is sent, nothing is
    taken from the queue, the table is not touched.  The methods that
    would emit return "Bad operation status". *)
Theorem ended_operation_is_inert (p : Pattern) (c : Call p) (w : World (OperationOf p)) :
  status_of w = _FINAL ∨ status_of w = _CLOSED →
  match c with CallClose _ | CallReset _ | CallOnMessage _ _ => False | _ => True end →
  ∃ r, perform c w = Returns r w ∧
    (sends c = true →
     r = ResultError (Some BadStatus) ∨ r = ResultReply (None, Some BadStatus)).
Proof.
  revert w. destruct c; try destruct p; intros w Hst Hc; try done; open_world w.
  all: unfold status_of in *; cbn in Hst.
  all: destruct Hst; subst; explore; eexists; (split; [reflexivity|]); cbn; auto; done.
Qed.

(** X6: what [onMessage] queues.  A message that does not have the four
    coordinates of the operation and the interaction type of its pattern is
    dropped, and a send operation drops every message.  A message that has
    them is appended behind the messages already queued when the queue is
    open and holds fewer messages than its capacity, and makes the caller
    wait when the queue is full; nothing else changes. *)
Theorem onMessage_queues_what_matches (p : Pattern) (msg : Message)
    (w : World (OperationOf p)) :
  (¬ accepted p (embedded (op w)) msg →
   perform (CallOnMessage p msg) w = Returns ResultNone w) ∧
  (accepted p (embedded (op w)) msg →
   ∀ l q, ch_of w = Some l → chans w !! l = Some q → closed q = false →
     perform (CallOnMessage p msg) w =
     if (length (buf q) <? cap q)%nat
     then Returns ResultNone
            (set_chans (<[l := mkChan (buf q ++ [msg]) (cap q) false]> (chans w)) w)
     else Blocks w).
Proof.
  unfold accepted. split.
  - intros Hno. destruct p; open_world w; cbn in *; explore; try done.
    all: exfalso; apply Hno; split; [done|]; f_equal;
      match goal with H : bool_decide _ = true |- _ => by apply bool_decide_eq_true in H end.
  - intros [Hv Ht] l q Hch Hq Hc. unfold ch_of in Hch.
    destruct p; open_world w; cbn in *; simplify_eq.
    all: explore; try done.
    all: match goal with H : bool_decide _ = false |- _ =>
           apply bool_decide_eq_false in H; congruence end.
Qed.

(** X7: [Send] in CREATED hands exactly one message, of type SEND and stage
    SEND, to the context and returns what the context returns; the
    operation is FINAL afterwards, also when the context reports an error.
    The table and the channels are not touched: a send operation is never
    registered and never waits. *)
Theorem Send_hands_over_one_message (w : World SendOperationX) (body : list byte) :
  status_of w = _CREATED →
  SendOperationX.Send body w =
  Returns
    (Context_Send (message_literal MAL_INTERACTIONTYPE_SEND MAL_IP_STAGE_SEND body w)
       (Ctx (ictx w))).1
    (set_ictx (set_Ctx (sent MAL_INTERACTIONTYPE_SEND MAL_IP_STAGE_SEND body w) (ictx w))
       (set_op (mkSendOperationX (set_status _FINAL (embedded (op w)))) w)).
Proof.
  intros Hst. unfold sent, status_of, message_literal, request_of, tid_of in *. open_world w. cbn in *. subst.
  unfold SendOperationX.Send. run.
  match goal with |- context [Context_Send ?m ?c] => by destruct (Context_Send m c) end.
Qed.

(** X8: [Publish] in REGISTERED hands one message to the context: the
    PUBLISH message of the PUBSUB interaction from the context's URI to the
    remote URI, with the service coordinates and the transaction id of the
    operation and the body given ([request_of]).
    When the context accepts it, nothing else changes: the publisher stays
    REGISTERED and in the table, and its queue is not read.  When the
    context reports an error, that error is returned and the registration
    is over: the operation is FINAL and its entry is removed from the
    table. *)
Theorem Publish_keeps_or_ends_the_registration (w : World PublisherOperationX)
    (body : list byte) :
  status_of w = _REGISTERED → is_Some (ch_of w) →
  let out := Context_Send
    (request_of MAL_INTERACTIONTYPE_PUBSUB MAL_IP_STAGE_PUBSUB_PUBLISH body w)
    (Ctx (ictx w)) in
  match out.1 with
  | None => PublisherOperationX.Publish body w = Returns None (set_ictx (set_Ctx out.2 (ictx w)) w)
  | Some e =>
      ∃ w', PublisherOperationX.Publish body w = Returns (Some e) w' ∧
        status_of w' = _FINAL ∧
        handlers (ictx w') = delete (tid_of w) (handlers (ictx w)) ∧
        chans w' = chans w ∧
        Ctx (ictx w') = out.2
  end.
Proof.
  intros Hst [l Hch]. unfold status_of, tid_of, ch_of, message_literal, request_of, tid_of in *.
  open_world w. cbn in *. subst.
  match goal with |- context [Context_Send ?m ?c] =>
    destruct (Context_Send m c) as [[e|] c'] eqn:E end; cbn.
  - unfold PublisherOperationX.Publish. run. split_lookup; run.
    + eexists. split; [reflexivity|]. done.
    + eexists. split; [reflexivity|]. cbn. by rewrite delete_id.
  - unfold PublisherOperationX.Publish. by run.
Qed.

(** X9: when the context refuses the message of an initiating call
    (Submit, Request, Invoke, Progress, and Register of a subscriber or a
    publisher), the call returns the context's error without waiting; the
    operation is FINAL, its entry is out of the table again, and no channel
    has been touched. *)
Theorem refused_message_ends_the_initiation (p : Pattern) (c : Call p)
    (ityp : InteractionType) (stage : InteractionStage) (body : list byte)
    (w : World (OperationOf p)) (e : error) :
  initiates c = Some (ityp, stage, body) →
  status_of w = _CREATED →
  handlers (ictx w) !! tid_of w = None →
  is_Some (ch_of w) →
  (Context_Send (message_literal ityp stage body w) (Ctx (ictx w))).1 = Some e →
  ∃ w', perform c w = Returns (ResultReply (None, Some e)) w' ∧
    status_of w' = _FINAL ∧
    handlers (ictx w') = handlers (ictx w) ∧
    chans w' = chans w ∧
    Ctx (ictx w') = sent ityp stage body w.
Proof.
  revert w. destruct c; try destruct p; intros w Hi Hst Hh [l Hch] Hs; try done.
  all: cbn in Hi; simplify_eq.
  all: unfold sent, status_of, tid_of, ch_of, message_literal, request_of, tid_of in *; open_world w; cbn in *; subst.
  all: match goal with H : context [Context_Send ?m ?c] |- _ =>
         destruct (Context_Send m c) as [? ?] eqn:E; cbn in *; subst end.
  all: unfold_calls; run; reached.
Qed.

(** X10: when the transaction id of an initiating call is already in the
    table, the call returns "Handler already registered for this
    transaction" and sends nothing; the operation is FINAL, and the entry
    under that id, which belongs to another operation, is removed from the
    table. *)
Theorem taken_id_ends_the_initiation (p : Pattern) (c : Call p)
    (ityp : InteractionType) (stage : InteractionStage) (body : list byte)
    (w : World (OperationOf p)) (other : OperationHandler) :
  initiates c = Some (ityp, stage, body) →
  status_of w = _CREATED →
  handlers (ictx w) !! tid_of w = Some other →
  is_Some (ch_of w) →
  ∃ w', perform c w = Returns (ResultReply (None, Some DuplicateTransaction)) w' ∧
    status_of w' = _FINAL ∧
    handlers (ictx w') = delete (tid_of w) (handlers (ictx w)) ∧
    chans w' = chans w ∧
    Ctx (ictx w') = Ctx (ictx w).
Proof.
  revert w. destruct c; try destruct p; intros w Hi Hst Hh [l Hch]; try done.
  all: unfold status_of, tid_of, ch_of in *; open_world w; cbn in *; subst.
  all: unfold_calls; run; reached.
Qed.

(** X11: the reply of an initiating call.  Once the message of Submit,
    Request, Invoke, Progress or of a pubsub Register has been handed to
    the context, the call takes exactly the oldest message of the queue.
    A message of the awaited stage is returned, with the "Error message"
    error when it is an error message; any other stage gives "Bad return
    message".  Submit and Request always end in FINAL; Invoke and Progress
    are ACKNOWLEDGED, and the pubsub operations REGISTERED, after an
    awaited reply that is no error, and FINAL otherwise.  The operation
    stays in the table exactly when it is not FINAL. *)
Theorem initiation_takes_the_oldest_message (p : Pattern) (c : Call p)
    (ityp : InteractionType) (stage expected : InteractionStage) (body : list byte)
    (st : Status) (w : World (OperationOf p)) (q : chan) (m : Message) (rest : list Message) :
  initiates c = Some (ityp, stage, body) →
  awaited c = Some (expected, st) →
  initiation_succeeds ityp stage body w →
  queue_of w = Some q → buf q = m :: rest →
  ∃ w', perform c w = Returns (ResultReply (checked_reply expected m)) w' ∧
    status_of w' =
      (if decide (InteractionStage_ m = expected)
       then if IsErrorMessage m then _FINAL else st
       else _FINAL) ∧
    queue_of w' = Some (tail_of q) ∧
    Ctx (ictx w') = sent ityp stage body w ∧
    handlers (ictx w') =
      (if decide (status_of w' = _FINAL) then handlers (ictx w)
       else <[tid_of w := op_addr w]> (handlers (ictx w))).
Proof.
  revert w. destruct c; try destruct p; intros w Hi Ha Hs Hq Hb; try done.
  all: cbn in Hi, Ha; simplify_eq.
  all: unfold initiation_succeeds, send_succeeds, sent, queue_of, status_of, tid_of, ch_of,
         tail_of, checked_reply, message_literal, request_of, tid_of in *;
       open_world w; cbn in *.
  all: repeat match goal with
         | H : _ ∧ _ |- _ => destruct H
         | H : match ?c with Some _ => _ | None => None end = Some _ |- _ =>
             destruct c; [|discriminate]
         end; subst.
  all: match goal with H : context [Context_Send ?m ?c] |- _ =>
         destruct (Context_Send m c) as [? ?] eqn:E; cbn in *; subst end.
  all: unfold_calls; run.
  all: match goal with |- context [decide (InteractionStage_ ?x = ?s)] =>
         destruct (decide (InteractionStage_ x = s)); run;
         try destruct (IsErrorMessage x); run
       end; reached.
Qed.


(** X12: an invoke interaction from end to end.  With the acknowledgement
    and the response queued in this order, [Invoke] returns the
    acknowledgement, the following [GetResponse] returns the response (with
    the "Error message" error when it is an error message), and a further
    [GetResponse] returns the same response again without reading the
    queue; the operation is FINAL and out of the table. *)
Theorem Invoke_then_GetResponse (w : World InvokeOperationX) (body : list byte)
    (q : chan) (ack resp : Message) (rest : list Message) :
  initiation_succeeds MAL_INTERACTIONTYPE_INVOKE MAL_IP_STAGE_INVOKE body w →
  queue_of w = Some q → buf q = ack :: resp :: rest →
  InteractionStage_ ack = MAL_IP_STAGE_INVOKE_ACK → IsErrorMessage ack = false →
  InteractionStage_ resp = MAL_IP_STAGE_INVOKE_RESPONSE →
  let answer := (Some resp, if IsErrorMessage resp then Some ErrorMessage else None) in
  ∃ w',
    (r1 ← InvokeOperationX.Invoke body;
     r2 ← InvokeOperationX.GetResponse;
     r3 ← InvokeOperationX.GetResponse;
     mret (r1, r2, r3)) w =
    Returns ((Some ack, None), answer, answer) w' ∧
    status_of w' = _FINAL ∧
    queue_of w' = Some (mkChan rest (cap q) (closed q)) ∧
    handlers (ictx w') = handlers (ictx w).
Proof.
  intros Hs Hq Hb Hack Herr Hresp.
  unfold initiation_succeeds, send_succeeds, sent, queue_of, status_of, tid_of, ch_of,
    message_literal, request_of, tid_of in *.
  open_world w. cbn in *.
  repeat match goal with
         | H : _ ∧ _ |- _ => destruct H
         | H : match ?c with Some _ => _ | None => None end = Some _ |- _ =>
             destruct c; [|discriminate]
         end; subst.
  match goal with H : context [Context_Send ?m ?c] |- _ =>
    destruct (Context_Send m c) as [? ?] eqn:E; cbn in *; subst end.
  unfold InvokeOperationX.Invoke, InvokeOperationX.GetResponse. run.
  destruct (IsErrorMessage resp) eqn:Hre; run; eexists; (split; [reflexivity|]); cbn;
    rewrite ?lookup_insert_eq, ?insert_insert_eq, ?delete_insert_id by done; done.
Qed.

(** X13: [GetResponse] of a progress operation does not skip updates.
    Called in ACKNOWLEDGED or PROGRESSING while the oldest queued message is
    not the PROGRESS_RESPONSE, it takes that message, returns "Bad return
    message" without it and ends the operation: FINAL, out of the table,
    no response cached. *)
Theorem Progress_GetResponse_does_not_skip_updates (w : World ProgressOperationX)
    (q : chan) (m : Message) (rest : list Message) :
  status_of w = _ACKNOWLEDGED ∨ status_of w = _PROGRESSING →
  queue_of w = Some q → buf q = m :: rest →
  InteractionStage_ m ≠ MAL_IP_STAGE_PROGRESS_RESPONSE →
  ∃ w', ProgressOperationX.GetResponse w = Returns (None, Some BadStage) w' ∧
    status_of w' = _FINAL ∧
    queue_of w' = Some (tail_of q) ∧
    handlers (ictx w') = delete (tid_of w) (handlers (ictx w)) ∧
    ProgressOperationX_response (op w') = ProgressOperationX_response (op w).
Proof.
  intros Hst Hq Hb Hm. unfold tid_of.
  destruct Hst as [Hst|Hst]; expose w; unfold ProgressOperationX.GetResponse; run;
    split_lookup; run; reached; by rewrite delete_id.
Qed.

(** X14: [GetNotify] takes exactly the oldest message of the queue.  A
    PUBSUB_NOTIFY that is no error message is returned and the subscriber
    keeps its status; an error notify is returned with the "Error message"
    error, any other stage gives "Bad return message", and both end the
    operation in FINAL. *)
Theorem GetNotify_takes_the_oldest_message (w : World SubscriberOperationX)
    (q : chan) (m : Message) (rest : list Message) :
  status_of w = _REGISTERED ∨ status_of w = _DEREGISTER_INITIATED →
  queue_of w = Some q → buf q = m :: rest →
  ∃ w', SubscriberOperationX.GetNotify w =
        Returns (checked_reply MAL_IP_STAGE_PUBSUB_NOTIFY m) w' ∧
    status_of w' =
      (if decide (InteractionStage_ m = MAL_IP_STAGE_PUBSUB_NOTIFY)
       then if IsErrorMessage m then _FINAL else status_of w
       else _FINAL) ∧
    queue_of w' = Some (tail_of q) ∧
    Ctx (ictx w') = Ctx (ictx w).
Proof.
  intros Hst Hq Hb.
  destruct Hst as [Hst|Hst]; expose w; unfold SubscriberOperationX.GetNotify; run;
    (destruct (decide (InteractionStage_ m = MAL_IP_STAGE_PUBSUB_NOTIFY)); run;
     [destruct (IsErrorMessage m); run|]); try split_lookup; run; reached.
Qed.

(** X15: [Deregister] of a publisher takes exactly one message and drops
    nothing: after the PUBLISH_DEREGISTER message has been handed to the
    context, the oldest queued message is the answer, whatever its stage
    (a PUBLISH_DEREGISTER_ACK is returned, any other stage gives "Bad return
    message"); the operation is FINAL and out of the table, and the rest of
    the queue stays. *)
Theorem Publisher_Deregister_takes_the_oldest_message (w : World PublisherOperationX)
    (body : list byte) (q : chan) (m : Message) (rest : list Message) :
  status_of w = _REGISTERED →
  send_succeeds MAL_INTERACTIONTYPE_PUBSUB MAL_IP_STAGE_PUBSUB_PUBLISH_DEREGISTER body w →
  queue_of w = Some q → buf q = m :: rest →
  ∃ w', PublisherOperationX.Deregister body w =
        Returns (checked_reply MAL_IP_STAGE_PUBSUB_PUBLISH_DEREGISTER_ACK m) w' ∧
    status_of w' = _FINAL ∧
    queue_of w' = Some (tail_of q) ∧
    handlers (ictx w') = delete (tid_of w) (handlers (ictx w)) ∧
    Ctx (ictx w') =
      sent MAL_INTERACTIONTYPE_PUBSUB MAL_IP_STAGE_PUBSUB_PUBLISH_DEREGISTER body w.
Proof.
  intros Hst Hs Hq Hb. unfold tid_of. expose w. unfold PublisherOperationX.Deregister. run.
  destruct (decide (InteractionStage_ m = MAL_IP_STAGE_PUBSUB_PUBLISH_DEREGISTER_ACK)); run;
    [destruct (IsErrorMessage m)|]; split_lookup; run; reached; by rewrite delete_id.
Qed.

(** X16: [Close] of an operation that is in the table detaches it: the
    call returns no error, the entry under the operation's transaction id
    is removed, the queue is closed with its buffered messages still in
    it, [op.ch] is nil and the status is CLOSED. *)
Theorem Close_detaches_a_registered_operation (p : Pattern) (w : World (OperationOf p))
    (l : loc) (q : chan) (a : OperationHandler) :
  status_of w ≠ _CLOSED →
  ch_of w = Some l → chans w !! l = Some q → closed q = false →
  handlers (ictx w) !! tid_of w = Some a →
  ∃ w', perform (CallClose p) w = Returns (ResultError None) w' ∧
    status_of w' = _CLOSED ∧
    ch_of w' = None ∧
    handlers (ictx w') = delete (tid_of w) (handlers (ictx w)) ∧
    chans w' = <[l := mkChan (buf q) (cap q) true]> (chans w) ∧
    tid_of w' = tid_of w.
Proof.
  intros Hst Hch Hq Hc Hh. unfold status_of, tid_of, ch_of in *.
  destruct p; open_world w; cbn in *; subst.
  all: unfold_calls; run; reached.
Qed.

End WithPackage.

End LifecycleFacts.

(** ** Calls suspended in their receive *)

Module SuspensionFacts.
Import Operations OperationX OperationsFacts LifecycleFacts.

#[local] Arguments Nat.ltb : simpl never.
#[local] Arguments SubscriberOperationX.wait_deregister_ack : simpl never.

(** Unfold the code of the methods from their receive on. *)
Ltac unfold_resumed :=
  cbv [SubmitOperationX.Submit_from_receive RequestOperationX.Request_from_receive
       InvokeOperationX.Invoke_from_receive InvokeOperationX.GetResponse_from_receive
       ProgressOperationX.Progress_from_receive ProgressOperationX.GetUpdate_from_receive
       ProgressOperationX.GetResponse_from_receive
       SubscriberOperationX.Register_from_receive SubscriberOperationX.GetNotify_from_receive
       SubscriberOperationX.Deregister_from_receive
       PublisherOperationX.Register_from_receive PublisherOperationX.Deregister_from_receive
       at_receive initiated emitted].

Section WithPackage.
Context `{P : Package}.

(** A receive that completes on a closed and empty channel: the code from
    the receive on finalizes the operation and returns "Operation ends",
    whatever the world is otherwise. *)
Lemma found_closed (p : Pattern) (c : Call p)
    (cont : option loc → M (World (OperationOf p)) reply)
    (l : loc) (w2 : World (OperationOf p)) (q2 : chan) :
  from_receive c = Some cont →
  chans w2 !! l = Some q2 → buf q2 = [] → closed q2 = true →
  ∃ w3, cont (Some l) w2 = Returns (None, Some OperationEnded) w3 ∧
    status_of w3 = _FINAL ∧ ch_of w3 = ch_of w2 ∧ chans w3 = chans w2 ∧
    (ch_of w2 = None → handlers (ictx w3) = handlers (ictx w2)) ∧
    (is_Some (ch_of w2) → handlers (ictx w3) = delete (tid_of w2) (handlers (ictx w2))).
Proof.
  revert w2. destruct c; try destruct p; intros w2 Hf Hq Hb Hc; try done.
  all: cbn in Hf; simplify_eq.
  all: unfold status_of, tid_of, ch_of in *; open_world w2; cbn in *.
  all: unfold_resumed; run.
  all: split_channel; run; try split_lookup; run.
  all: eexists; split; [reflexivity|]; cbn.
  all: repeat split; try done.
  all: intros _; symmetry; by apply delete_id.
Qed.


(** The loop of [Deregister] is its code from the receive on. *)
Lemma loop_from_receive (n : nat) (w : World SubscriberOperationX) :
  (SubscriberOperationX.pending w < S n)%nat →
  SubscriberOperationX.wait_deregister_ack (S n) w =
  SubscriberOperationX.Deregister_from_receive (ch_of w) w.
Proof.
  intros Hn.
  destruct (ch_of w) as [l|] eqn:Hch.
  2: { expose w. unfold SubscriberOperationX.wait_deregister_ack.
       unfold_resumed. by run. }
  destruct (chans w !! l) as [q|] eqn:Hq.
  2: { expose w. unfold SubscriberOperationX.wait_deregister_ack.
       unfold_resumed. by run. }
  assert (Hp : SubscriberOperationX.pending w = length (buf q)).
  { unfold SubscriberOperationX.pending, queue_of. by rewrite Hch, Hq. }
  destruct (buf q) as [|m rest] eqn:Hb.
  { destruct (closed q) eqn:Hc; expose w;
      unfold SubscriberOperationX.wait_deregister_ack; unfold_resumed; by run. }
  destruct (decide (InteractionStage_ m = MAL_IP_STAGE_PUBSUB_NOTIFY)) as [Hm|Hm].
  - rewrite (wait_drops_notify _ w l q m rest) by done.
    unfold SubscriberOperationX.Deregister_from_receive, chan_recv.
    cbv [mbind M_bind]. rewrite Hq, Hb. cbn. rewrite decide_True by done.
    cbv [gets]. 
    apply wait_deregister_ack_bound; rewrite pending_set_chans by done; cbn; cbn in Hp; lia.
  - expose w. unfold SubscriberOperationX.wait_deregister_ack. unfold_resumed. by run.
Qed.

(** Each waiting method is its code up to the receive, which leads from
    [w] to [at_receive c w], followed by its code from the receive on, on
    the channel that [op.ch] holds; whatever the queue contains. *)
Lemma call_from_receive (p : Pattern) (c : Call p)
    (cont : option loc → M (World (OperationOf p)) reply)
    (w : World (OperationOf p)) :
  from_receive c = Some cont →
  reaches_receive c w →
  perform c w = returning ResultReply (cont (ch_of w)) (at_receive c w).
Proof.
  revert w. destruct c; try destruct p; intros w Hf Hr; try done.
  all: cbn in Hf, Hr; simplify_eq.
  10: { destruct Hr as [Hst Hs]. cbn. unfold returning.
        rewrite Deregister_enters_loop by done.
        assert (Hp : SubscriberOperationX.pending (SubscriberOperationX.deregistering body w)
                     = SubscriberOperationX.pending w) by reflexivity.
        rewrite loop_from_receive by lia.
        reflexivity. }
  all: unfold initiation_succeeds, send_succeeds, sent, queue_of, status_of, tid_of, ch_of,
         request_of, tid_of in *;
       open_world w; cbn in *.
  all: repeat match goal with
         | H : _ ∧ _ |- _ => destruct H
         | H : _ ∨ _ |- _ => destruct H
         end; subst.
  all: try match goal with H : context [Context_Send ?m ?c] |- _ =>
         destruct (Context_Send m c) as [? ?] eqn:E; cbn in *; subst end.
  all: unfold_calls; unfold_resumed; run.
  all: reflexivity.
Qed.

(** [Close] by another goroutine while the call is suspended. *)
Lemma closed_while_waiting (p : Pattern) (c : Call p)
    (cont : option loc → M (World (OperationOf p)) reply)
    (w : World (OperationOf p)) (l : loc) (q : chan) :
  from_receive c = Some cont →
  reaches_receive c w →
  ch_of w = Some l → chans w !! l = Some q → buf q = [] → closed q = false →
  perform c w = Blocks (at_receive c w) ∧
  ∃ err w2 w3,
    Close (at_receive c w) = Returns err w2 ∧
    status_of w2 = _CLOSED ∧ ch_of w2 = None ∧
    chans w2 = <[l := mkChan [] (cap q) true]> (chans w) ∧
    cont (Some l) w2 = Returns (None, Some OperationEnded) w3 ∧
    status_of w3 = _FINAL ∧ ch_of w3 = None ∧
    chans w3 = chans w2 ∧
    handlers (ictx w3) !! tid_of w = None.
Proof.
  revert w. destruct c; try destruct p; intros w Hf Hr Hch Hq Hb Hc; try done.
  all: cbn in Hf, Hr; simplify_eq.
  all: unfold initiation_succeeds, send_succeeds, sent, queue_of, status_of, tid_of, ch_of,
         request_of, tid_of in *;
       open_world w; cbn in *.
  all: repeat match goal with
         | H : _ ∧ _ |- _ => destruct H
         | H : _ ∨ _ |- _ => destruct H
         end; subst.
  all: try match goal with H : context [Context_Send ?m ?c] |- _ =>
         destruct (Context_Send m c) as [? ?] eqn:E; cbn in *; subst end.
  all: split;
    [unfold_calls; unfold_resumed; run;
     try (unfold SubscriberOperationX.wait_deregister_ack; run); reflexivity|].
  all: unfold_calls; unfold_resumed; run; try split_lookup; run.
  all: do 3 eexists; split; [reflexivity|]; cbn; run.
  all: repeat split; try done.
  all: cbn; first [apply lookup_delete_eq | done].
Qed.

(** C9: each of the twelve methods that wait on the inbound queue (Submit,
    Request, Invoke, Progress, the two GetResponse, GetUpdate, GetNotify,
    Register and Deregister of a subscriber and of a publisher), called
    with the queue open and empty, is suspended in its receive, holding
    the channel [l].  When the channel is closed while it waits, and so is
    found closed and empty when the receive completes, the call returns
    "Operation ends" without a message and leaves the operation in FINAL,
    whatever else has happened to the world in between.  [Close] by
    another goroutine is the case in point: it sets the status to CLOSED,
    takes the operation out of the table, closes the channel and sets
    [op.ch] to nil; the suspended call then returns "Operation ends" and
    the status is FINAL.  ([cont] is the code of the method from its
    receive on: the method is its code up to the receive followed by
    [cont], whatever the queue contains.) *)
Theorem closed_queue_ends_the_call (p : Pattern) (c : Call p)
    (cont : option loc → M (World (OperationOf p)) reply)
    (w : World (OperationOf p)) (l : loc) (q : chan) :
  from_receive c = Some cont →
  reaches_receive c w →
  ch_of w = Some l → chans w !! l = Some q → buf q = [] → closed q = false →
  perform c w = Blocks (at_receive c w) ∧
  (∀ w0, reaches_receive c w0 →
     perform c w0 = returning ResultReply (cont (ch_of w0)) (at_receive c w0)) ∧
  (∀ w2 q2, chans w2 !! l = Some q2 → buf q2 = [] → closed q2 = true →
     ∃ w3, cont (Some l) w2 = Returns (None, Some OperationEnded) w3 ∧
       status_of w3 = _FINAL ∧ ch_of w3 = ch_of w2 ∧ chans w3 = chans w2) ∧
  (∃ err w2 w3,
     Close (at_receive c w) = Returns err w2 ∧
     status_of w2 = _CLOSED ∧ ch_of w2 = None ∧
     chans w2 = <[l := mkChan [] (cap q) true]> (chans w) ∧
     cont (Some l) w2 = Returns (None, Some OperationEnded) w3 ∧
     status_of w3 = _FINAL ∧ ch_of w3 = None ∧
     chans w3 = chans w2 ∧
     handlers (ictx w3) !! tid_of w = None).
Proof.
  intros Hf Hr Hch Hq Hb Hc.
  destruct (closed_while_waiting p c cont w l q Hf Hr Hch Hq Hb Hc) as [Hwait Hclose].
  split; [exact Hwait|]. split; [|split; [|exact Hclose]].
  - intros w0 Hr0. by apply call_from_receive.
  - intros w2 q2 Hq2 Hb2 Hc2.
    destruct (found_closed p c cont l w2 q2 Hf Hq2 Hb2 Hc2) as (w3 & ? & ? & ? & ? & _).
    by exists w3.
Qed.

End WithPackage.
End SuspensionFacts.

(** ** The listener side of the operation context *)

Module RouterFacts.
Import Operations OperationX OperationsFacts LifecycleFacts.
Import OperationContext.

#[local] Arguments Nat.ltb : simpl never.

Ltac unfold_router :=
  cbv [OnMessage OnClose at_op call_at world_at back mbind M_bind mret M_ret gets modify].

Section WithPackage.
Context `{P : Package}.

(** An operation whose method returned it unchanged is the operation that
    the endpoint holds already. *)
Lemma back_same (e : Endpoint) (a : ptr) (p : Pattern) (o : OperationOf p) :
  ep_ops e !! a = Some (Any p o) →
  back e a (world_at e a o) = e.
Proof.
  intros Ho. destruct e as [i cs ops]. unfold back, world_at. cbn in *.
  by rewrite insert_id.
Qed.

(** The routing step: the table names the operation, and the message is
    dropped or queued by the [onMessage] of that operation. *)
Lemma OnMessage_routes_to (e : Endpoint) (msg : Message) (a : ptr) (p : Pattern)
    (o : OperationOf p) (l : loc) (q : chan) :
  handlers (ep_ictx e) !! TransactionId_ msg = Some a →
  ep_ops e !! a = Some (Any p o) →
  (¬ accepted p (embedded o) msg → OnMessage msg e = Returns None e) ∧
  (accepted p (embedded o) msg →
   ch (embedded o) = Some l → ep_chans e !! l = Some q →
   closed q = false → (length (buf q) < cap q)%nat →
   OnMessage msg e =
   Returns None
     (mkEndpoint (ep_ictx e)
        (<[l := mkChan (buf q ++ [msg]) (cap q) false]> (ep_chans e))
        (ep_ops e))).
Proof.
  intros Hh Ho.
  pose proof (back_same e a p o Ho) as Hback.
  unfold accepted. split.
  + intros Hno. unfold_router. unfold OperationHandler, ULong in *. rewrite Hh. cbv beta iota. rewrite Ho.
    destruct e as [i cs ops]. unfold back, world_at in *. cbn in *.
    destruct p; open_operations; cbn in *; explore; try (by rewrite Hback).
    all: exfalso; apply Hno; split; [done|]; f_equal;
      match goal with H : bool_decide _ = true |- _ => by apply bool_decide_eq_true in H end.
  + intros [Hv Ht] Hch Hq Hc Hlt.
    apply Nat.ltb_lt in Hlt.
    unfold_router. unfold OperationHandler, ULong in *. rewrite Hh. cbv beta iota. rewrite Ho.
    destruct e as [i cs ops]. unfold back, world_at in *. cbn in *.
    destruct p; open_operations; cbn in *; simplify_eq.
    all: explore; try done; try congruence.
    all: try (match goal with H : bool_decide _ = false |- _ =>
           apply bool_decide_eq_false in H; congruence end).
    all: by rewrite insert_id.
Qed.

(** X17: [OnMessage] routes by transaction id alone.  A message whose
    transaction id is not in the table is dropped.  Otherwise the message
    goes to the operation that the table names for this id, and to no
    other: when it has the coordinates of that operation and the
    interaction type of its pattern it is appended to the queue of that
    operation (the queue being open and not full), and it is dropped when
    it has not.  In each case [OnMessage] returns no error, and the table
    and the operations stay as they are. *)
Theorem OnMessage_routes_by_transaction_id (msg : Message) (e : Endpoint) :
  (handlers (ep_ictx e) !! TransactionId_ msg = None →
   OnMessage msg e = Returns None e) ∧
  (∀ a p (o : OperationOf p),
     handlers (ep_ictx e) !! TransactionId_ msg = Some a →
     ep_ops e !! a = Some (Any p o) →
     (¬ accepted p (embedded o) msg → OnMessage msg e = Returns None e) ∧
     (accepted p (embedded o) msg →
      ∀ l q, ch (embedded o) = Some l → ep_chans e !! l = Some q →
        closed q = false → (length (buf q) < cap q)%nat →
        OnMessage msg e =
        Returns None
          (mkEndpoint (ep_ictx e)
             (<[l := mkChan (buf q ++ [msg]) (cap q) false]> (ep_chans e))
             (ep_ops e)))).
Proof.
  split.
  - intros Hh. unfold_router. unfold OperationHandler, ULong in *. by rewrite Hh.
  - intros a p o Hh Ho. split.
    + by apply (OnMessage_routes_to e msg a p o 1%positive (mkChan [] 0 false)).
    + intros Hacc l q Hch Hq Hc Hlt. by apply (OnMessage_routes_to e msg a p o l q).
Qed.

(** X18: what [OnMessage] never does.  Whatever the message and the state
    of the endpoint, [OnMessage] returns no error; it changes neither the
    table nor the counter nor any operation; it adds the message to at
    most one queue, the one of the operation that the table names for the
    message's transaction id, and takes nothing out of any; when it waits
    (the queue is full, or the operation has been closed), nothing has
    changed. *)
Theorem OnMessage_only_queues (msg : Message) (e : Endpoint) :
  match OnMessage msg e with
  | Returns r e' =>
      r = None ∧ ep_ictx e' = ep_ictx e ∧ ep_ops e' = ep_ops e ∧
      (ep_chans e' = ep_chans e ∨
       ∃ a p o l q,
         handlers (ep_ictx e) !! TransactionId_ msg = Some a ∧
         ep_ops e !! a = Some (Any p o) ∧
         ch (embedded o) = Some l ∧ ep_chans e !! l = Some q ∧
         ep_chans e' = <[l := mkChan (buf q ++ [msg]) (cap q) false]> (ep_chans e))
  | Blocks e' => e' = e
  | Panics => True
  end.
Proof.
  unfold_router. unfold OperationHandler, ULong in *.
  match goal with |- context [@lookup ?K ?A ?M ?I ?k (handlers ?i)] =>
    destruct (@lookup K A M I k (handlers i)) as [a|] eqn:Hh end;
    [|cbn; repeat split; by left].
  cbv beta iota.
  destruct (ep_ops e !! a) as [[p o]|] eqn:Ho; [|done].
  destruct e as [i cs ops]. cbn in *.
  assert (Hid : <[a := Any p o]> ops = ops) by by rewrite insert_id.
  destruct p; open_operations; cbn in *; explore; try done.
  all: rewrite ?Hid; repeat split; try done; try by left.
  all: right; do 5 eexists; repeat split; try done; reflexivity.
Qed.

(** An [onClose] changes nothing. *)
Lemma onClose_run (e : Endpoint) (a : ptr) (p : Pattern) (o : OperationOf p) :
  ep_ops e !! a = Some (Any p o) →
  at_op a OperationHandler_onClose e = Returns tt e.
Proof.
  intros Ho. pose proof (back_same e a p o Ho) as Hback.
  unfold at_op. rewrite Ho.
  assert (Hrun : OperationHandler_onClose p (world_at e a o) = Returns tt (world_at e a o)).
  { by destruct p. }
  by rewrite Hrun, Hback.
Qed.

Lemma close_each_run (entries : list (ULong * OperationHandler)) (e : Endpoint) :
  Forall (fun entry => is_Some (ep_ops e !! entry.2)) entries →
  close_each entries e = Returns tt e.
Proof.
  induction entries as [|[tid a] entries IH]; intros Hall; [done|].
  apply Forall_cons in Hall as [[[p o] Ho] Hall]. cbn in Ho.
  cbn [close_each]. unfold mbind, M_bind.
  rewrite (onClose_run e a p o Ho). by apply IH.
Qed.

(** X19: [OnClose] changes nothing.  When every entry of the table leads
    to an operation, [OnClose] calls the [onClose] of each of them, which
    does nothing, and returns no error: the operations stay registered,
    their queues stay open, and a method that waits keeps waiting. *)
Theorem OnClose_changes_nothing (e : Endpoint) :
  (∀ tid a, handlers (ep_ictx e) !! tid = Some a → is_Some (ep_ops e !! a)) →
  OnClose e = Returns None e.
Proof.
  intros Hall. unfold OnClose, mbind, M_bind, gets, mret, M_ret.
  rewrite close_each_run; [done|].
  apply Forall_forall. intros [tid a] Hin. cbn.
  apply elem_of_map_to_list in Hin. by apply (Hall tid).
Qed.

(** The typed call on the operation of pattern [p] at [a]. *)
Lemma call_at_run (p : Pattern) (c : Call p) (e : Endpoint) (a : ptr) (o : OperationOf p) :
  ep_ops e !! a = Some (Any p o) →
  call_at a c e =
  match perform c (world_at e a o) with
  | Returns r w => Returns r (back e a w)
  | Blocks w => Blocks (back e a w)
  | Panics => Panics
  end.
Proof.
  intros Ho. unfold call_at, at_op. rewrite Ho.
  destruct (decide (p = p)) as [E|]; [|done].
  by rewrite (proof_irrel E eq_refl).
Qed.

(** X20: a routed response reaches [GetResponse].  For an invoke
    operation that is ACKNOWLEDGED and in the table, with an empty open
    queue: [GetResponse] waits; once [OnMessage] has been given a message
    with the operation's transaction id, coordinates and interaction type,
    [GetResponse] returns exactly that message (checked for the stage
    INVOKE_RESPONSE), and the operation is FINAL, out of the table, with an
    empty queue again. *)
Theorem routed_response_reaches_GetResponse (e : Endpoint) (a : ptr) (o : InvokeOperationX)
    (l : loc) (q : chan) (msg : Message) :
  ep_ops e !! a = Some (Any InvokePattern o) →
  status (embedded o) = _ACKNOWLEDGED →
  handlers (ep_ictx e) !! tid (embedded o) = Some a →
  ch (embedded o) = Some l → ep_chans e !! l = Some q →
  buf q = [] → closed q = false → (0 < cap q)%nat →
  TransactionId_ msg = tid (embedded o) →
  accepted InvokePattern (embedded o) msg →
  (∃ e1, call_at a CallInvokeGetResponse e = Blocks e1) ∧
  ∃ e' o',
    (OnMessage msg;; call_at a CallInvokeGetResponse) e =
    Returns (ResultReply (checked_reply MAL_IP_STAGE_INVOKE_RESPONSE msg)) e' ∧
    ep_ops e' !! a = Some (Any InvokePattern o') ∧
    status (embedded o') = _FINAL ∧
    handlers (ep_ictx e') = delete (tid (embedded o)) (handlers (ep_ictx e)) ∧
    ep_chans e' !! l = Some (mkChan [] (cap q) false).
Proof.
  intros Ho Hst Hh Hch Hq Hb Hc Hcap Htid Hacc.
  split.
  - rewrite (call_at_run InvokePattern CallInvokeGetResponse e a o Ho).
    destruct e as [i cs ops]. unfold back, world_at in *. cbn in *.
    open_operations. destruct i. cbn in *. subst. unfold OperationHandler, ULong in *.
    explore. by eexists.
  - destruct (OnMessage_routes_to e msg a InvokePattern o l q) as [_ Hrun];
      [by rewrite Htid|done|].
    specialize (Hrun Hacc Hch Hq Hc). rewrite Hb in Hrun. specialize (Hrun Hcap).
    unfold mbind at 1, M_bind at 1. rewrite Hrun.
    set (e1 := mkEndpoint _ _ _).
    assert (Ho1 : ep_ops e1 !! a = Some (Any InvokePattern o)) by done.
    rewrite (call_at_run InvokePattern CallInvokeGetResponse e1 a o Ho1). unfold e1. clear e1 Ho1 Hrun.
    unfold checked_reply.
    destruct e as [i cs ops]. unfold back, world_at in *. cbn in *.
    open_operations. destruct i. cbn in *. subst. unfold OperationHandler, ULong in *.
    destruct (decide (InteractionStage_ msg = MAL_IP_STAGE_INVOKE_RESPONSE));
      explore; do 2 eexists; (split; [reflexivity|]); cbn;
      rewrite ?lookup_insert_eq, ?insert_insert_eq; repeat split; try done;
      by rewrite delete_id.
Qed.

End WithPackage.

End RouterFacts.

(** ** Registration and dispatch of handlers *)

Module RegistrationFacts.
Import Handlers OperationsFacts HandlersFacts.

Section WithPackage.
Context `{P : Package}.

Lemma getHandler_run (h : HandlerContext) hdltype a v s o :
  getHandler hdltype a v s o h =
  Returns
    (match handlers h !! key a v s o with
     | Some d =>
         if decide (handlerType d = hdltype) then inl (handler d) else inr BadHandlerType
     | None => inr HandlerNotRegistered
     end) h.
Proof.
  unfold getHandler. HandlersFacts.run.
  destruct (handlers h !! key a v s o) as [d|]; [|done].
  by destruct (decide (handlerType d = hdltype)).
Qed.

(** The table after a list of registrations: a key keeps the descriptor it
    had, and a free key gets the first registration made under it; a call
    fails exactly when its key was taken before it. *)
Lemma register_all_run (rs : list registration) :
  ∀ h : HandlerContext,
    ∃ errs h', register_all rs h = Returns errs h' ∧
      Ctx h' = Ctx h ∧ Uri h' = Uri h ∧
      (∀ k, handlers h' !! k =
            match handlers h !! k with
            | Some d => Some d
            | None => reg_desc <$> first_under k rs
            end) ∧
      (∀ i r, rs !! i = Some r →
         errs !! i =
         Some (if decide (is_Some (handlers h !! reg_key r) ∨
                          is_Some (first_under (reg_key r) (take i rs)))
               then Some DuplicateHandler else None)).
Proof.
  induction rs as [|r rs IH]; intros h.
  { exists [], h. repeat split; try done. intros k. by destruct (handlers h !! k). }
  cbn [register_all]. unfold mbind at 1, M_bind at 1, register_one.
  destruct (handlers h !! reg_key r) as [old|] eqn:Hk.
  - rewrite (register_taken _ _ _ _ _ _ _ old) by done.
    destruct (IH h) as (errs & h' & Hrun & Hc & Hu & Htab & Herr).
    unfold mbind, M_bind. rewrite Hrun. do 2 eexists. split; [reflexivity|].
    repeat split; try done.
    + intros k. rewrite Htab. destruct (handlers h !! k) eqn:Hk'; [done|].
      unfold first_under. rewrite filter_cons.
      destruct (decide (reg_key r = k)) as [<-|]; [congruence|done].
    + intros [|i] r' Hr'; cbn in *.
      * simplify_eq. rewrite Hk. rewrite decide_True; [done|]. left. by eexists.
      * etrans; [exact (Herr i r' Hr')|]. f_equal.
        unfold first_under. rewrite filter_cons.
        destruct (decide (reg_key r = reg_key r')) as [E|E].
        -- rewrite E in Hk. rewrite !decide_True; [done| |]; left; by eexists.
        -- done.
  - rewrite register_free by done.
    set (h1 := set_handlers _ h).
    destruct (IH h1) as (errs & h' & Hrun & Hc & Hu & Htab & Herr).
    unfold mbind, M_bind. rewrite Hrun. do 2 eexists. split; [reflexivity|].
    repeat split; try done.
    + intros k. rewrite Htab. unfold h1. cbn. unfold first_under. rewrite filter_cons.
      fold (reg_key r). rewrite lookup_insert.
      destruct (decide (reg_key r = k)) as [<-|].
      * by rewrite Hk.
      * done.
    + intros [|i] r' Hr'; cbn in *.
      * simplify_eq. rewrite Hk. rewrite decide_False; [done|].
        intros [[? ?]|[? ?]]; done.
      * etrans; [exact (Herr i r' Hr')|]. f_equal. unfold h1. cbn. fold (reg_key r).
        unfold first_under. rewrite filter_cons. rewrite lookup_insert.
        destruct (decide (reg_key r = reg_key r')) as [E|E].
        -- rewrite !decide_True; [done| |].
           ++ right. by eexists.
           ++ left. by eexists.
        -- apply decide_ext. tauto.
Qed.

(** X21: the first registration under a key wins.  After a provider has
    made any list of registrations on a new handler context, [getHandler]
    finds, for given coordinates, the first registration of the list whose
    key is the key of these coordinates: it returns the handler of that
    registration when its type is the one asked for, "Bad handler type"
    when it is another, and "MAL handler not registered" when there is no
    such registration.  A registration returned "MAL handler already
    registered" exactly when an earlier one of the list had its key. *)
Theorem first_registration_wins (rs : list registration) (ctx : Context) (uri : URI) :
  ∃ errs h', register_all rs (NewHandlerContext_literal ctx uri) = Returns errs h' ∧
    (∀ hdltype a v s o,
       getHandler hdltype a v s o h' =
       Returns (answer hdltype (first_under (key a v s o) rs)) h') ∧
    (∀ i r, rs !! i = Some r →
       errs !! i =
       Some (if decide (is_Some (first_under (reg_key r) (take i rs)))
             then Some DuplicateHandler else None)).
Proof.
  destruct (register_all_run rs (NewHandlerContext_literal ctx uri))
    as (errs & h' & Hrun & _ & _ & Htab & Herr).
  exists errs, h'. split; [done|]. split.
  - intros hdltype a v s o. rewrite getHandler_run, Htab. cbn. rewrite lookup_empty.
    unfold answer. by destruct (first_under (key a v s o) rs).
  - intros i r Hr. etrans; [exact (Herr i r Hr)|]. f_equal. cbn. rewrite lookup_empty.
    apply decide_ext. split; [intros [[? ?]|?]|]; try done. by right.
Qed.

(** X22: a registered handler gets the message.  After a handler has been
    registered for an interaction type other than PUBSUB under a key that
    was free, [OnMessage] of a message with that interaction type and the
    registered coordinates calls exactly this handler, once, with the
    message and the transaction of the pattern, and returns what the
    handler returns. *)
Theorem registered_handler_gets_the_message (w : World) (msg : Message) ityp ht mk
    (f : Handler) :
  NoDup interaction_types →
  (ityp, ht, mk) ∈ switch_cases →
  InteractionType_ msg = ityp →
  handlers (hctx w) !! key_of msg = None →
  let registered :=
    mkWorld
      (set_handlers
         (<[key_of msg :=
              mkhandlerDesc ht (ServiceArea msg) (AreaVersion msg) (Service msg)
                (Operation msg) f]> (handlers (hctx w)))
         (hctx w))
      (invoked w) in
  (on_hctx (register ht (ServiceArea msg) (AreaVersion msg) (Service msg) (Operation msg) f);;
   OnMessage msg) w =
  Returns (f msg (mk (TransactionX_of registered msg)))
          (after_call registered f msg (mk (TransactionX_of registered msg))).
Proof.
  intros Hnd Hin Hty Hk registered.
  unfold mbind, M_bind, on_hctx. unfold key_of in Hk.
  rewrite register_free by done. fold (key_of msg). fold registered.
  rewrite (OnMessage_calls registered msg ityp ht mk
             (mkhandlerDesc ht (ServiceArea msg) (AreaVersion msg) (Service msg)
                (Operation msg) f)); try done.
  unfold registered. cbn. by rewrite lookup_insert_eq.
Qed.

(** X23: what a call of [OnMessage] of a handler context that returns has
    done (handlers being functions that return).  It has left the table as
    it is; it has called at most one handler, the one that the table holds
    under the key of the message's coordinates, with the message itself,
    and it returns what this handler returned. *)
Theorem OnMessage_calls_at_most_one_handler (w w' : World) (msg : Message)
    (r : option error) :
  OnMessage msg w = Returns r w' →
  hctx w' = hctx w ∧
  (invoked w' = invoked w ∨
   ∃ d t, handlers (hctx w) !! key_of msg = Some d ∧
     invoked w' = invoked w ++ [(handler d, msg, t)] ∧
     r = handler d msg t).
Proof.
  destruct w as [[c u h] inv]. unfold key_of, OnMessage. cbn.
  repeat (HandlersFacts.run;
          try match goal with
              | |- context [@decide ?Q ?I] => destruct (@decide Q I)
              | |- context [match @lookup ?K ?A ?M ?I ?k ?m with Some _ => _ | None => _ end] =>
                  let Hl := fresh "Hl" in destruct (@lookup K A M I k m) eqn:Hl
              end).
  all: intros Hrun; injection Hrun as <- <-; cbn; (split; [done|]).
  all: first [ by left | right; do 2 eexists; by repeat split ].
Qed.

(** X26: registrations keep the table well-formed.  After any list of
    registrations with coordinates in the range of their Go types, made on
    a new handler context, every descriptor of the table sits under the key
    of the coordinates it records; when [key] tells coordinates apart, the
    descriptor that a message finds therefore records the four coordinates
    of the message. *)
Theorem registered_tables_are_well_formed (rs : list registration) (ctx : Context)
    (uri : URI) :
  Forall (fun r => in_range (reg_area r) (reg_areaVersion r) (reg_service r)
                     (reg_operation r)) rs →
  ∃ errs h', register_all rs (NewHandlerContext_literal ctx uri) = Returns errs h' ∧
    table_ok h' ∧
    (key_injective →
     ∀ msg d,
       in_range (ServiceArea msg) (AreaVersion msg) (Service msg) (Operation msg) →
       handlers h' !! key_of msg = Some d →
       area d = ServiceArea msg ∧ areaVersion d = AreaVersion msg ∧
       service d = Service msg ∧ operation d = Operation msg).
Proof.
  intros Hall.
  assert (Hgen : ∀ h, table_ok h →
            ∃ errs h', register_all rs h = Returns errs h' ∧ table_ok h').
  { induction Hall as [|r rs Hr Hall IH]; intros h Hok.
    - by exists [], h.
    - cbn [register_all]. unfold mbind at 1, M_bind at 1, register_one.
      destruct (register (reg_type r) (reg_area r) (reg_areaVersion r) (reg_service r)
                  (reg_operation r) (reg_handler r) h) as [err h1| |] eqn:Hreg.
      + destruct (IH h1) as (errs & h' & Hrun & Hok').
        { by eapply table_ok_register. }
        unfold mbind, M_bind. rewrite Hrun. by do 2 eexists.
      + exfalso. destruct (handlers h !! reg_key r) eqn:Hk; unfold reg_key in Hk.
        * by rewrite (register_taken _ _ _ _ _ _ _ _ Hk) in Hreg.
        * by rewrite register_free in Hreg.
      + exfalso. destruct (handlers h !! reg_key r) eqn:Hk; unfold reg_key in Hk.
        * by rewrite (register_taken _ _ _ _ _ _ _ _ Hk) in Hreg.
        * by rewrite register_free in Hreg. }
  destruct (Hgen (NewHandlerContext_literal ctx uri) (table_ok_new ctx uri))
    as (errs & h' & Hrun & Hok).
  exists errs, h'. split; [done|]. split; [done|].
  intros Hinj msg d Hm Hk. by apply (found_under_own_coordinates h').
Qed.

End WithPackage.

End RegistrationFacts.

(** ** The length field of the MALTCP frame *)

Module TcpFacts.
Import Tcp.



(** X24: [write32] is big-endian.  On a slice of at least four bytes it
    overwrites the first four with bytes whose big-endian value is the
    given [uint32], and leaves the rest; on a shorter slice it panics. *)
Theorem write32_big_endian (value : Z) (buf : list Z) :
  0 <= value < 2 ^ 32 →
  if (length buf <? 4)%nat then write32 value buf = None
  else
    ∃ b0 b1 b2 b3,
      write32 value buf = Some (b0 :: b1 :: b2 :: b3 :: drop 4 buf) ∧
      (0 <= b0 < 2 ^ 8) ∧ (0 <= b1 < 2 ^ 8) ∧ (0 <= b2 < 2 ^ 8) ∧ (0 <= b3 < 2 ^ 8) ∧
      big_endian b0 b1 b2 b3 = value.
Proof.
  intros Hv.
  destruct buf as [|x0 [|x1 [|x2 [|x3 rest]]]]; try done.
  cbn [length Nat.ltb Nat.leb].
  exists (byte_of (Z.shiftr value 24)), (byte_of (Z.shiftr value 16)),
         (byte_of (Z.shiftr value 8)), (byte_of (Z.shiftr value 0)).
  split; [reflexivity|].
  unfold byte_of, big_endian. rewrite !Z.shiftr_div_pow2 by lia.
  change (2 ^ 0) with 1. rewrite Z.div_1_r.
  pose proof (Z.mod_pos_bound (value / 2 ^ 24) (2 ^ 8) ltac:(lia)).
  pose proof (Z.mod_pos_bound (value / 2 ^ 16) (2 ^ 8) ltac:(lia)).
  pose proof (Z.mod_pos_bound (value / 2 ^ 8) (2 ^ 8) ltac:(lia)).
  pose proof (Z.mod_pos_bound value (2 ^ 8) ltac:(lia)).
  repeat split; try lia.
  pose proof (Z.div_mod value (2 ^ 8) ltac:(lia)).
  pose proof (Z.div_mod (value / 2 ^ 8) (2 ^ 8) ltac:(lia)).
  pose proof (Z.div_mod (value / 2 ^ 16) (2 ^ 8) ltac:(lia)).
  replace (value / 2 ^ 16) with (value / 2 ^ 8 / 2 ^ 8) in *
    by (rewrite Z.div_div by lia; reflexivity).
  replace (value / 2 ^ 24) with (value / 2 ^ 8 / 2 ^ 8 / 2 ^ 8) in *
    by (rewrite !Z.div_div by lia; reflexivity).
  assert (value / 2 ^ 8 / 2 ^ 8 / 2 ^ 8 < 2 ^ 8).
  { rewrite !Z.div_div by lia. apply Z.div_lt_upper_bound; lia. }
  assert (0 <= value / 2 ^ 8 / 2 ^ 8 / 2 ^ 8).
  { rewrite !Z.div_div by lia. apply Z.div_pos; lia. }
  rewrite (Z.mod_small (value / 2 ^ 8 / 2 ^ 8 / 2 ^ 8)) in * by lia.
  lia.
Qed.



(** [writeMessage] panics in its slice expression exactly when the capacity
    of the encoded slice is below the 23 bytes of the fixed header. *)
Lemma stamp_length_checks_the_capacity (buf spare : list Z) :
  stamp_length buf spare = None ↔ (length buf + length spare < 23)%nat.
Proof.
  unfold stamp_length. cbv zeta. rewrite <- length_app.
  destruct (Nat.ltb_spec (length (buf ++ spare)) 23) as [Hlt|Hge]; [done|].
  split; [|lia].
  destruct (drop 19 (buf ++ spare)) as [|x0 [|x1 [|x2 [|x3 rest]]]] eqn:E;
    try (apply (f_equal length) in E; rewrite length_drop in E; cbn in E; lia).
  discriminate.
Qed.


End TcpFacts.

(** ** The facts above on the scenario states *)

Module Scenarios.
Import Operations Operations.OperationX Loopback OperationsFacts LifecycleFacts.

(** A submit that waits for its reply when the operation is closed. *)
Lemma closed_queue_ends_the_call_witness :
  from_receive (CallSubmit [x01]) = Some SubmitOperationX.Submit_from_receive ∧
  reaches_receive (CallSubmit [x01]) (submit_world [] false) ∧
  ∃ w1 err w2 w3,
    SubmitOperationX.Submit [x01] (submit_world [] false) = Blocks w1 ∧
    status_of w1 = _INITIATED ∧ ch_of w1 = Some 1%positive ∧
    Close w1 = Returns err w2 ∧
    status_of w2 = _CLOSED ∧ ch_of w2 = None ∧
    chans w2 = {[ 1%positive := mkChan [] 10 true ]} ∧
    SubmitOperationX.Submit_from_receive (Some 1%positive) w2 =
      Returns (None, Some OperationEnded) w3 ∧
    status_of w3 = _FINAL ∧
    handlers (ictx w3) !! 1 = None.
Proof.
  assert (Hr : reaches_receive (CallSubmit [x01]) (submit_world [] false)).
  { repeat split. }
  split; [reflexivity|]. split; [exact Hr|].
  destruct (SuspensionFacts.closed_queue_ends_the_call SubmitPattern (CallSubmit [x01])
              SubmitOperationX.Submit_from_receive (submit_world [] false) 1%positive
              (mkChan [] 10 false) eq_refl Hr eq_refl eq_refl eq_refl eq_refl)
    as (_ & _ & _ & (err & w2 & w3 & Hclose & Hst2 & Hch2 & Hchans & Hrun & Hst3 & _ & _ & Hh)).
  exists (at_receive (CallSubmit [x01]) (submit_world [] false)), err, w2, w3.
  split; [reflexivity|]. split; [reflexivity|]. split; [reflexivity|].
  split; [exact Hclose|]. split; [exact Hst2|]. split; [exact Hch2|].
  split; [etrans; [exact Hchans|reflexivity]|].
  split; [exact Hrun|]. split; [exact Hst3|exact Hh].
Defined.



Lemma world0_ids_issued : ids_issued (ictx world0).
Proof. split; [cbn; lia|]. apply map_Forall_empty. Qed.

(** The first operation of a new context. *)
Lemma NewOperation_is_consistent_witness :
  ids_issued (ictx world0) ∧
  txcounter (ictx world0) + 1 < 2 ^ 64 ∧
  ∃ o e', NewOperation SubmitPattern provider 1 1 1 1 world0 = Returns o e' ∧
    consistent SubmitPattern (set_op o e') ∧
    tid_of (set_op o e') = 1.
Proof.
  split; [exact world0_ids_issued|]. split; [cbn; lia|].
  destruct (NewOperation_is_consistent SubmitPattern provider 1 1 1 1 world0
              world0_ids_issued ltac:(cbn; lia))
    as (o & e' & Hrun & Hc & _ & Ht & _).
  exists o, e'. split; [exact Hrun|]. split; [exact Hc|exact Ht].
Defined.

(** [GetUpdate] of an acknowledged progress operation. *)
Lemma calls_rest_in_stable_statuses_witness :
  resting ProgressPattern (status_of (progress_world [progress_update x01])) = true ∧
  match perform CallGetUpdate (progress_world [progress_update x01]) with
  | Returns _ w' => resting ProgressPattern (status_of w') = true
  | Blocks w' =>
      resting ProgressPattern (status_of w') || waiting ProgressPattern (status_of w') = true
  | Panics => True
  end.
Proof.
  split; [reflexivity|].
  apply (calls_rest_in_stable_statuses ProgressPattern CallGetUpdate). reflexivity.
Defined.

(** A submit operation that has ended refuses a second [Submit]. *)
Lemma ended_operation_is_inert_witness :
  status_of finished_submit_world = _FINAL ∧
  ∃ r, perform (CallSubmit [x01]) finished_submit_world = Returns r finished_submit_world.
Proof.
  split; [reflexivity|].
  destruct (ended_operation_is_inert SubmitPattern (CallSubmit [x01]) finished_submit_world)
    as (r & Hrun & _).
  - left. reflexivity.
  - exact I.
  - exists r. exact Hrun.
Defined.

(** The ack of scenario 1 is queued; a message of another service is not. *)
Lemma onMessage_queues_what_matches_witness :
  accepted SubmitPattern (embedded (op (submit_world [] false))) submit_ack ∧
  perform (CallOnMessage SubmitPattern submit_ack) (submit_world [] false) =
  Returns ResultNone (submit_world [submit_ack] false).
Proof.
  assert (Ha : accepted SubmitPattern (embedded (op (submit_world [] false))) submit_ack).
  { repeat split. }
  split; [exact Ha|].
  destruct (onMessage_queues_what_matches SubmitPattern submit_ack (submit_world [] false))
    as [_ H].
  rewrite (H Ha 1%positive (mkChan [] 10 false) eq_refl eq_refl eq_refl).
  reflexivity.
Defined.

Lemma Send_hands_over_one_message_witness :
  status_of send_world = _CREATED ∧
  ∃ w', SendOperationX.Send [x01] send_world = Returns None w' ∧
    status_of w' = _FINAL ∧
    Ctx (ictx w') = [mkMessage consumer provider 1 1 1 1 1 1 1 false [x01]].
Proof.
  split; [reflexivity|].
  rewrite (Send_hands_over_one_message send_world [x01] eq_refl).
  eexists. split; [reflexivity|]. split; reflexivity.
Defined.

Lemma Publish_keeps_or_ends_the_registration_witness :
  status_of (publisher_world []) = _REGISTERED ∧
  is_Some (ch_of (publisher_world [])) ∧
  ∃ w', PublisherOperationX.Publish [x01] (publisher_world []) = Returns None w' ∧
    status_of w' = _REGISTERED ∧
    Ctx (ictx w') = [mkMessage consumer provider 6 5 1 1 1 1 1 false [x01]].
Proof.
  assert (Hch : is_Some (ch_of (publisher_world []))) by (by eexists).
  split; [reflexivity|]. split; [exact Hch|].
  pose proof (Publish_keeps_or_ends_the_registration (publisher_world []) [x01]
                eq_refl Hch) as H.
  cbn in H. rewrite H. eexists. split; [reflexivity|]. split; reflexivity.
Defined.

(** [Submit] on a transport without a route. *)
Lemma refused_message_ends_the_initiation_witness :
  status_of (P:=offline) offline_submit_world = _CREATED ∧
  ∃ w', @perform offline SubmitPattern (CallSubmit [x01]) offline_submit_world =
        Returns (ResultReply (None, Some NoRoute)) w' ∧
    status_of (P:=offline) w' = _FINAL ∧
    handlers (ictx w') = ∅.
Proof.
  split; [reflexivity|].
  destruct (@refused_message_ends_the_initiation offline SubmitPattern (CallSubmit [x01])
              2 1 [x01] offline_submit_world NoRoute)
    as (w' & Hrun & Hst & Hh & _); try reflexivity.
  - by eexists.
  - exists w'. split; [exact Hrun|]. split; [exact Hst|exact Hh].
Defined.

Lemma taken_id_ends_the_initiation_witness :
  status_of taken_submit_world = _CREATED ∧
  handlers (ictx taken_submit_world) !! tid_of taken_submit_world = Some 2%positive ∧
  ∃ w', perform (CallSubmit [x01]) taken_submit_world =
        Returns (ResultReply (None, Some DuplicateTransaction)) w' ∧
    handlers (ictx w') !! 1 = None.
Proof.
  split; [reflexivity|]. split; [reflexivity|].
  destruct (taken_id_ends_the_initiation SubmitPattern (CallSubmit [x01]) 2 1 [x01]
              taken_submit_world 2%positive)
    as (w' & Hrun & _ & Hh & _); try reflexivity.
  - by eexists.
  - exists w'. split; [exact Hrun|]. rewrite Hh. reflexivity.
Defined.

Lemma created_invoke_world_initiation (queue : list Message) :
  initiation_succeeds MAL_INTERACTIONTYPE_INVOKE MAL_IP_STAGE_INVOKE [x01]
    (created_invoke_world queue).
Proof. repeat split. Qed.

Lemma initiation_takes_the_oldest_message_witness :
  initiation_succeeds MAL_INTERACTIONTYPE_INVOKE MAL_IP_STAGE_INVOKE [x01]
    (created_invoke_world [invoke_ack]) ∧
  ∃ w', perform (CallInvoke [x01]) (created_invoke_world [invoke_ack]) =
        Returns (ResultReply (Some invoke_ack, None)) w' ∧
    status_of w' = _ACKNOWLEDGED.
Proof.
  split; [apply created_invoke_world_initiation|].
  destruct (initiation_takes_the_oldest_message InvokePattern (CallInvoke [x01]) 4 1 2 [x01]
              _ACKNOWLEDGED (created_invoke_world [invoke_ack]) (mkChan [invoke_ack] 10 false)
              invoke_ack [] eq_refl eq_refl (created_invoke_world_initiation _) eq_refl eq_refl)
    as (w' & Hrun & Hst & _).
  exists w'. split; [exact Hrun|exact Hst].
Defined.


Lemma Invoke_then_GetResponse_witness :
  initiation_succeeds MAL_INTERACTIONTYPE_INVOKE MAL_IP_STAGE_INVOKE [x01]
    (created_invoke_world [invoke_ack; invoke_response]) ∧
  ∃ w',
    (r1 ← InvokeOperationX.Invoke [x01];
     r2 ← InvokeOperationX.GetResponse;
     r3 ← InvokeOperationX.GetResponse;
     mret (r1, r2, r3)) (created_invoke_world [invoke_ack; invoke_response]) =
    Returns ((Some invoke_ack, None), (Some invoke_response, None),
             (Some invoke_response, None)) w' ∧
    status_of w' = _FINAL.
Proof.
  split; [apply created_invoke_world_initiation|].
  destruct (Invoke_then_GetResponse (created_invoke_world [invoke_ack; invoke_response]) [x01]
              (mkChan [invoke_ack; invoke_response] 10 false) invoke_ack invoke_response []
              (created_invoke_world_initiation _) eq_refl eq_refl eq_refl eq_refl eq_refl)
    as (w' & Hrun & Hst & _).
  exists w'. split; [exact Hrun|exact Hst].
Defined.

Lemma Progress_GetResponse_does_not_skip_updates_witness :
  status_of (progress_world [progress_update x01; progress_response]) = _ACKNOWLEDGED ∧
  ∃ w', ProgressOperationX.GetResponse (progress_world [progress_update x01; progress_response]) =
        Returns (None, Some BadStage) w' ∧
    status_of w' = _FINAL.
Proof.
  split; [reflexivity|].
  destruct (Progress_GetResponse_does_not_skip_updates
              (progress_world [progress_update x01; progress_response])
              (mkChan [progress_update x01; progress_response] 10 false)
              (progress_update x01) [progress_response])
    as (w' & Hrun & Hst & _); try reflexivity.
  - left. reflexivity.
  - cbn. lia.
  - exists w'. split; [exact Hrun|exact Hst].
Defined.

Lemma GetNotify_takes_the_oldest_message_witness :
  status_of (subscriber_world [notify x01; notify x02]) = _REGISTERED ∧
  ∃ w', SubscriberOperationX.GetNotify (subscriber_world [notify x01; notify x02]) =
        Returns (Some (notify x01), None) w' ∧
    status_of w' = _REGISTERED ∧
    queue_of w' = Some (mkChan [notify x02] 10 false).
Proof.
  split; [reflexivity|].
  destruct (GetNotify_takes_the_oldest_message (subscriber_world [notify x01; notify x02])
              (mkChan [notify x01; notify x02] 10 false) (notify x01) [notify x02])
    as (w' & Hrun & Hst & Hq & _); try reflexivity.
  - left. reflexivity.
  - exists w'. split; [exact Hrun|]. split; [exact Hst|exact Hq].
Defined.

Lemma Publisher_Deregister_takes_the_oldest_message_witness :
  status_of (publisher_world [publish_deregister_ack]) = _REGISTERED ∧
  ∃ w', PublisherOperationX.Deregister [] (publisher_world [publish_deregister_ack]) =
        Returns (Some publish_deregister_ack, None) w' ∧
    status_of w' = _FINAL.
Proof.
  split; [reflexivity|].
  destruct (Publisher_Deregister_takes_the_oldest_message
              (publisher_world [publish_deregister_ack]) []
              (mkChan [publish_deregister_ack] 10 false) publish_deregister_ack [])
    as (w' & Hrun & Hst & _); try reflexivity.
  exists w'. split; [exact Hrun|exact Hst].
Defined.

Lemma Close_detaches_a_registered_operation_witness :
  status_of (invoke_world []) ≠ _CLOSED ∧
  handlers (ictx (invoke_world [])) !! tid_of (invoke_world []) = Some 1%positive ∧
  ∃ w', perform (CallClose InvokePattern) (invoke_world []) = Returns (ResultError None) w' ∧
    status_of w' = _CLOSED ∧ handlers (ictx w') !! 1 = None.
Proof.
  split; [done|]. split; [reflexivity|].
  destruct (Close_detaches_a_registered_operation InvokePattern (invoke_world []) 1%positive
              (mkChan [] 10 false) 1%positive)
    as (w' & Hrun & Hst & _ & Hh & _); try reflexivity.
  - done.
  - exists w'. split; [exact Hrun|]. split; [exact Hst|]. rewrite Hh. reflexivity.
Defined.

(** Three updates and the response of scenario 3. *)
Lemma GetUpdate_stream_witness :
  Forall ProgressOperationX.is_update [progress_update x01; progress_update x02] ∧
  ∃ w1 w2,
    ProgressOperationX.GetUpdates 2
      (progress_world [progress_update x01; progress_update x02; progress_response]) =
    Returns [(Some (progress_update x01), None); (Some (progress_update x02), None)] w1 ∧
    ProgressOperationX.GetUpdate w1 = Returns (None, None) w2 ∧
    ProgressOperationX.GetResponse w2 = Returns (Some progress_response, None) w2.
Proof.
  assert (Hall : Forall ProgressOperationX.is_update
                   [progress_update x01; progress_update x02]).
  { repeat constructor. }
  split; [exact Hall|].
  destruct (GetUpdate_stream [progress_update x01; progress_update x02]
              (progress_world [progress_update x01; progress_update x02; progress_response])
              (mkChan [progress_update x01; progress_update x02; progress_response] 10 false)
              progress_response [])
    as (w1 & w2 & Hruns & Hend & Hresp & _); try reflexivity; try done.
  - left. reflexivity.
  - exists w1, w2. split; [exact Hruns|]. split; [exact Hend|exact Hresp].
Defined.

Import RouterFacts OperationContext.

(** The response of the invoke of [invoke_endpoint] is routed to it; a
    message of an unknown transaction is dropped. *)
Lemma OnMessage_routes_by_transaction_id_witness :
  handlers (ep_ictx invoke_endpoint) !! TransactionId_ invoke_response = Some 1%positive ∧
  OnMessage invoke_response invoke_endpoint =
  Returns None
    (mkEndpoint (ep_ictx invoke_endpoint)
       {[ 1%positive := mkChan [invoke_response] 10 false ]}
       (ep_ops invoke_endpoint)) ∧
  OnMessage (inbound 4 3 7 false []) invoke_endpoint = Returns None invoke_endpoint.
Proof.
  split; [reflexivity|]. split.
  - destruct (OnMessage_routes_by_transaction_id invoke_response invoke_endpoint) as [_ H].
    destruct (H 1%positive InvokePattern (mkInvokeOperationX (operation_in _ACKNOWLEDGED) None)
                eq_refl eq_refl) as [_ Hq].
    rewrite (Hq ltac:(repeat split) 1%positive (mkChan [] 10 false) eq_refl eq_refl eq_refl
               ltac:(cbn; lia)).
    cbn. by rewrite insert_singleton_eq.
  - destruct (OnMessage_routes_by_transaction_id (inbound 4 3 7 false []) invoke_endpoint)
      as [H _].
    apply H. reflexivity.
Defined.

Lemma OnClose_changes_nothing_witness :
  (∀ tid a, handlers (ep_ictx invoke_endpoint) !! tid = Some a →
            is_Some (ep_ops invoke_endpoint !! a)) ∧
  OnClose invoke_endpoint = Returns None invoke_endpoint.
Proof.
  assert (Hall : ∀ tid a, handlers (ep_ictx invoke_endpoint) !! tid = Some a →
                          is_Some (ep_ops invoke_endpoint !! a)).
  { intros tid a. cbn. rewrite lookup_singleton. case_decide; [|done].
    intros [= <-]. by eexists. }
  split; [exact Hall|]. exact (OnClose_changes_nothing invoke_endpoint Hall).
Defined.

Lemma routed_response_reaches_GetResponse_witness :
  accepted InvokePattern (operation_in _ACKNOWLEDGED) invoke_response ∧
  (∃ e1, call_at 1%positive CallInvokeGetResponse invoke_endpoint = Blocks e1) ∧
  ∃ e',
    (OnMessage invoke_response;; call_at 1%positive CallInvokeGetResponse) invoke_endpoint =
    Returns (ResultReply (Some invoke_response, None)) e' ∧
    handlers (ep_ictx e') !! 1 = None.
Proof.
  assert (Ha : accepted InvokePattern (operation_in _ACKNOWLEDGED) invoke_response).
  { repeat split. }
  split; [exact Ha|].
  destruct (routed_response_reaches_GetResponse invoke_endpoint 1%positive
              (mkInvokeOperationX (operation_in _ACKNOWLEDGED) None) 1%positive
              (mkChan [] 10 false) invoke_response)
    as (Hwait & e' & o' & Hrun & _ & _ & Hh & _); try reflexivity; try done.
  - cbn. lia.
  - split; [exact Hwait|]. exists e'. split; [exact Hrun|]. rewrite Hh. reflexivity.
Defined.

Import Handlers RegistrationFacts.

(** The submit handler of scenario 1, registered on a new endpoint. *)
Lemma registered_handler_gets_the_message_witness :
  NoDup interaction_types ∧
  handlers (hctx empty_endpoint) !! key_of submit_request = None ∧
  ∃ w',
    (on_hctx (register _SUBMIT_HANDLER 1 1 1 1 accept);; OnMessage submit_request)
      empty_endpoint = Returns None w' ∧
    length (invoked w') = 1%nat.
Proof.
  split; [exact Examples.interaction_types_distinct|]. split; [reflexivity|].
  pose proof (registered_handler_gets_the_message empty_endpoint submit_request 2
                _SUBMIT_HANDLER SubmitTransactionX accept
                Examples.interaction_types_distinct) as H.
  cbn zeta in H. eexists. split.
  - apply H; [|reflexivity|reflexivity].
    cbv [switch_cases]. cbn. rewrite !elem_of_cons. right. left. reflexivity.
  - reflexivity.
Defined.

Lemma OnMessage_calls_at_most_one_handler_witness :
  ∃ w',
    OnMessage submit_request submit_endpoint = Returns None w' ∧
    hctx w' = hctx submit_endpoint ∧
    invoked w' =
      [(accept, submit_request,
        SubmitTransactionX (mkTransactionX [] provider consumer 1 1 1 1 1))].
Proof.
  eexists. split; [reflexivity|].
  destruct (OnMessage_calls_at_most_one_handler submit_endpoint _ submit_request None
              eq_refl) as [Hh _].
  split; [exact Hh|reflexivity].
Defined.

Lemma registered_tables_are_well_formed_witness :
  Forall (fun r => in_range (reg_area r) (reg_areaVersion r) (reg_service r)
                     (reg_operation r))
    [mkRegistration _SUBMIT_HANDLER 1 1 1 1 accept] ∧
  ∃ errs h',
    register_all [mkRegistration _SUBMIT_HANDLER 1 1 1 1 accept]
      (NewHandlerContext_literal [] provider) = Returns errs h' ∧
    table_ok h'.
Proof.
  assert (Hall : Forall (fun r => in_range (reg_area r) (reg_areaVersion r) (reg_service r)
                                    (reg_operation r))
                   [mkRegistration _SUBMIT_HANDLER 1 1 1 1 accept]).
  { repeat constructor; cbn; lia. }
  split; [exact Hall|].
  destruct (registered_tables_are_well_formed
              [mkRegistration _SUBMIT_HANDLER 1 1 1 1 accept] [] provider Hall)
    as (errs & h' & Hrun & Hok & _).
  exists errs, h'. split; [exact Hrun|exact Hok].
Defined.

Import Tcp TcpFacts.

Lemma write32_big_endian_witness :
  0 <= 506 < 2 ^ 32 ∧
  ∃ b0 b1 b2 b3, write32 506 [0; 0; 0; 0] = Some [b0; b1; b2; b3] ∧
    big_endian b0 b1 b2 b3 = 506.
Proof.
  split; [lia|].
  destruct (write32_big_endian 506 [0; 0; 0; 0] ltac:(lia))
    as (b0 & b1 & b2 & b3 & Hrun & _ & _ & _ & _ & Hv).
  exists b0, b1, b2, b3. split; [exact Hrun|exact Hv].
Defined.

(** A slice of 21 bytes with capacity 64 is stamped without a panic: the
    length field, which holds 21 - 23 modulo 2^32, ends in the spare part. *)
Lemma short_frame_is_stamped_in_its_spare_capacity :
  stamp_length (replicate 21 0) (replicate 43 0) =
  Some (replicate 19 0 ++ [255; 255], [255; 254] ++ replicate 41 0) ∧
  stamp_length (replicate 21 0) [] = None.
Proof. split; vm_compute; reflexivity. Qed.


End Scenarios.
